(** * my-sidebar-ext: the sidebar's site registry, favicon cache and
      auto-hibernate controller

    A shallow embedding of the sidebar script (src/background.js, second
    document: "Sidebar Sites Configuration").  The script keeps its state in
    module-level variables; here every group of variables becomes a record
    that the handlers take and return.

    - [Reorder]  : handleDrop and the two Array.prototype.splice calls.
    - [Registry] : sites, generateId, saveSite, the delete handler,
                   exportSites and handleFileImport.
    - [Favicon]  : getCachedFavicon, cacheFavicon, fetchAndCacheFavicon,
                   getFavicon over an IndexedDB store and a network oracle,
                   with the ways either can fail.
    - [Idle]     : resetActivityTimer, checkHibernate, hibernate,
                   wakeFromHibernate over the browser's timer table.

    Times are milliseconds in [Z].  A string is a sequence of code units
    below 256.  What the browser decides (the answers of the network, the
    readings of the clock and of Math.random, the parsing of a URL) is a
    parameter of the functions that ask for it. *)

From Stdlib Require Import ZArith.
From stdpp Require Import gmap strings list fin_maps pretty.

Local Open Scope Z_scope.

(** ** Drag and drop reordering *)

Module Reorder.

Section Splice.
Context {A : Type}.

(** [arr.splice(start, deleteCount, ...items)]: the array after the call
    and the removed elements.  A negative [start] counts from the end,
    a [start] beyond the end is the end, and [deleteCount] is clamped to
    what is left after [start]. *)
Definition splice (arr : list A) (start deleteCount : Z) (items : list A)
  : list A * list A :=
  let len := Z.of_nat (length arr) in
  let actualStart :=
    if start <? 0 then Z.max (len + start) 0 else Z.min start len in
  let actualDeleteCount := Z.max 0 (Z.min deleteCount (len - actualStart)) in
  let i := Z.to_nat actualStart in
  let k := Z.to_nat actualDeleteCount in
  (take i arr ++ items ++ drop (i + k)%nat arr, take k (drop i arr)).

(** The index computed by handleDrop between "Calculate new index" and
    "Ensure newIndex is valid". *)
Definition newIndex (isAbove : bool) (draggedIndex targetIndex : Z)
    (length_ : Z) : Z :=
  let newIndex := if isAbove then targetIndex else targetIndex + 1 in
  let newIndex := if draggedIndex <? targetIndex then newIndex - 1 else newIndex in
  Z.max 0 (Z.min newIndex (length_ - 1)).

(** The drag state: [draggedItem] is the button being dragged, [None]
    for [null].  renderIcons gives every button its position as
    data-index, so a button is identified with that index;
    handleDragStart sets [draggedIndex] to the same number and
    handleDragEnd resets the pair to [null] and [-1]. *)
Record DragState := {
  draggedItem : option Z;
  draggedIndex : Z
}.

Definition handleDragStart (button : Z) : DragState :=
  {| draggedItem := Some button; draggedIndex := button |}.

Definition handleDragEnd : DragState :=
  {| draggedItem := None; draggedIndex := -1 |}.

(** handleDrop: [target] is the data-index of the icon button under the
    pointer ([None] when the drop is not on a button) and [isAbove] is
    [e.clientY < midY].  The result is [Some] of the spliced array when the
    handler reorders (it then saves and renders again), [None] when it
    leaves [sites] alone. *)
Definition handleDrop (drag : DragState) (target : option Z) (isAbove : bool)
    (sites : list A) : option (list A) :=
  match target, draggedItem drag with
  | Some targetIndex, Some dragged =>
      if bool_decide (targetIndex = dragged) then None
      else
        let newIndex :=
          newIndex isAbove (draggedIndex drag) targetIndex
            (Z.of_nat (length sites)) in
        if negb (draggedIndex drag =? newIndex)
           && (0 <=? draggedIndex drag)
           && (draggedIndex drag <? Z.of_nat (length sites))
        then
          let '(sites1, removed) := splice sites (draggedIndex drag) 1 [] in
          match removed with
          | movedSite :: _ => Some (fst (splice sites1 newIndex 0 [movedSite]))
          | [] => Some sites1 (* not reached: the guard keeps draggedIndex in range *)
          end
        else None
  | _, _ => None
  end.
End Splice.

End Reorder.

(** ** JSON values

    What JSON.parse returns for an import file, and what the [id] and
    [color] properties of a stored site may hold.  [JNum] stands for the
    finite numbers, of which the integral ones are represented: nothing
    below looks inside a finite number beyond its being zero or equal to
    another, and a zero stands for 0 and for -0, which neither [===] nor
    the test of a condition tells apart.  [JInf] is Infinity, or -Infinity when [negative]: JSON.parse
    returns them for literals beyond the range of a double, such as 1e400
    and -1e400. *)

#[warnings="-register-all"] Inductive json :=
| JNull
| JBool (b : bool)
| JNum (n : Z)
| JInf (negative : bool)
| JStr (s : string)
| JArr (items : list json)
| JObj (members : list (string * json)).

(** Structural comparison.  When one of the two values is null, a
    boolean, a number or a string this is JavaScript's [===].  Two arrays
    or two objects are compared by contents here, whereas JavaScript
    compares their identity, which a value does not carry: the comparison
    of ids below is the script's as long as the id that is looked for is
    not an array or an object, or no two sites hold ids of equal
    contents. *)
Fixpoint json_eqb (a b : json) : bool :=
  match a, b with
  | JNull, JNull => true
  | JBool x, JBool y => bool_decide (x = y)
  | JNum x, JNum y => bool_decide (x = y)
  | JInf x, JInf y => bool_decide (x = y)
  | JStr x, JStr y => bool_decide (x = y)
  | JArr xs, JArr ys =>
      (fix go (xs ys : list json) : bool :=
         match xs, ys with
         | [], [] => true
         | x :: xs, y :: ys => json_eqb x y && go xs ys
         | _, _ => false
         end) xs ys
  | JObj xs, JObj ys =>
      (fix go (xs ys : list (string * json)) : bool :=
         match xs, ys with
         | [], [] => true
         | (k, x) :: xs, (k', y) :: ys =>
             bool_decide (k = k') && json_eqb x y && go xs ys
         | _, _ => false
         end) xs ys
  | _, _ => false
  end.

Section json_induction.
Variable P : json -> Prop.
Hypothesis Hnull : P JNull.
Hypothesis Hbool : forall b, P (JBool b).
Hypothesis Hnum : forall n, P (JNum n).
Hypothesis Hinf : forall negative, P (JInf negative).
Hypothesis Hstr : forall s, P (JStr s).
Hypothesis Harr : forall items, Forall P items -> P (JArr items).
Hypothesis Hobj : forall members, Forall (fun kv => P kv.2) members -> P (JObj members).

Fixpoint json_nested_ind (j : json) : P j :=
  match j with
  | JNull => Hnull
  | JBool b => Hbool b
  | JNum n => Hnum n
  | JInf negative => Hinf negative
  | JStr s => Hstr s
  | JArr items =>
      Harr items
        ((fix go (l : list json) : Forall P l :=
            match l with
            | [] => Forall_nil_2 P
            | x :: l => Forall_cons_2 P x l (json_nested_ind x) (go l)
            end) items)
  | JObj members =>
      Hobj members
        ((fix go (l : list (string * json)) : Forall (fun kv => P kv.2) l :=
            match l with
            | [] => Forall_nil_2 _
            | kv :: l => Forall_cons_2 _ kv l (json_nested_ind kv.2) (go l)
            end) members)
  end.
End json_induction.

Lemma json_eqb_eq (a b : json) : json_eqb a b = true <-> a = b.
Proof.
  revert b. induction a as [| | | | |xs IH|xs IH] using json_nested_ind;
    intros [| | | | |ys|ys]; simpl; try (split; [discriminate|congruence]);
    try (rewrite bool_decide_eq_true; split; congruence); try tauto.
  - revert ys. induction IH as [|x xs Hx _ IHxs]; intros [|y ys];
      try (split; [discriminate|congruence]); [tauto|].
    rewrite andb_true_iff, Hx. specialize (IHxs ys).
    split; [intros [-> H]; apply IHxs in H|intros [= -> ->]; split; [done|apply IHxs; done]];
      congruence.
  - revert ys. induction IH as [|[k x] xs Hx _ IHxs]; intros [|[k' y] ys];
      try (split; [discriminate|congruence]); [tauto|].
    rewrite !andb_true_iff, bool_decide_eq_true. simpl in Hx. rewrite Hx.
    specialize (IHxs ys).
    split; [intros [[-> ->] H]; apply IHxs in H|intros [= -> -> ->]; split; [done|apply IHxs; done]];
      congruence.
Qed.

#[global] Instance json_eq_dec : EqDecision json.
Proof.
  intros a b. destruct (json_eqb a b) eqn:E.
  - left. by apply json_eqb_eq.
  - right. intros H. apply json_eqb_eq in H. congruence.
Defined.

(** [ToBoolean]: what [v || w] and [if (v)] test. *)
Definition truthy (v : json) : bool :=
  match v with
  | JNull => false
  | JBool b => b
  | JNum n => negb (n =? 0)
  | JInf _ => true
  | JStr s => negb (String.eqb s "")
  | JArr _ | JObj _ => true
  end.

(** [JSON.parse(JSON.stringify(v))], the value read back from the text
    that is written for [v]: JSON has no notation for Infinity and
    -Infinity, and JSON.stringify writes [null] in their place, as an
    element of an array and as the value of a property alike. *)
Fixpoint stringified (v : json) : json :=
  match v with
  | JInf _ => JNull
  | JArr items => JArr (stringified <$> items)
  | JObj members => JObj ((fun kv => (kv.1, stringified kv.2)) <$> members)
  | _ => v
  end.

(** The object JSON.parse builds from the members of an object literal:
    a later member replaces an earlier one of the same name. *)
Definition parse_object (members : list (string * json)) : gmap string json :=
  foldl (fun o kv => <[kv.1 := kv.2]> o) ∅ members.

(** [v.key] on a parsed value, [None] for [undefined].  Only the four
    property names of a site are read, and none of them is defined on a
    boolean, a number, a string or an array.  Reading a property of [null]
    throws; handleFileImport tests [site &&] first. *)
Definition prop (v : json) (key : string) : option json :=
  match v with
  | JObj members => parse_object members !! key
  | _ => None
  end.

(** [typeof v === 'string'], with [None] for [undefined]. *)
Definition is_string (v : option json) : bool :=
  match v with
  | Some (JStr _) => true
  | _ => false
  end.

(** [v || w] when [v] may be [undefined]. *)
Definition or_else (v : option json) (w : json) : json :=
  match v with
  | Some x => if truthy x then x else w
  | None => w
  end.

(** ** Strings of the add/edit form *)

(** White space as [String.prototype.trim] sees it, on the code units
    below 256: tab, line feed, vertical tab, form feed, carriage return,
    space and no-break space. *)
Definition is_white_space (c : Ascii.ascii) : bool :=
  let n := Ascii.N_of_ascii c in
  ((9 <=? n) && (n <=? 13) || (n =? 32) || (n =? 160))%N.

Fixpoint trimStart (s : string) : string :=
  match s with
  | String c rest => if is_white_space c then trimStart rest else s
  | EmptyString => EmptyString
  end.

Definition trimEnd (s : string) : string :=
  String.rev (trimStart (String.rev s)).

Definition trim (s : string) : string := trimEnd (trimStart s).

(** [s.startsWith(p)] *)
Definition startsWith (s p : string) : bool := String.prefix p s.

(** ** The site registry *)

Module Registry.

Record Site := {
  id : json;
  name : string;
  url : string;
  color : json
}.

#[global] Instance Site_eq_dec : EqDecision Site.
Proof. solve_decision. Defined.

Definition site (i n u c : string) : Site :=
  {| id := JStr i; name := n; url := u; color := JStr c |}.

Definition DEFAULT_SITES : list Site := [
  site "chatgpt" "ChatGPT" "https://chat.openai.com" "#10a37f";
  site "youtube" "YouTube" "https://www.youtube.com" "#FF0000";
  site "whatsapp" "WhatsApp" "https://web.whatsapp.com" "#25D366";
  site "github" "GitHub" "https://github.com" "#24292e";
  site "translate" "Google Translate" "https://translate.google.com" "#4285F4";
  site "claude" "Claude" "https://claude.ai" "#D4A574";
  site "gemini" "Gemini" "https://gemini.google.com" "#1a73e8"
].

(** The variables of the script that the registry operations read and
    write.  [storage] is the value under the key 'sites' of
    browser.storage.local ([None] while nothing was stored) and
    [storageWorks] tells whether the calls of browser.storage.local
    succeed: saveSites catches a failing [set] and goes on, loadSites
    catches a failing [get] and takes the default sites.  [idCalls] counts
    the calls of generateId. *)
Record State := {
  sites : list Site;
  storage : option (list Site);
  storageWorks : bool;
  idCalls : nat
}.

Definition set_sites (st : State) (l : list Site) : State :=
  {| sites := l; storage := storage st; storageWorks := storageWorks st;
     idCalls := idCalls st |}.

Definition saveSites (st : State) : State :=
  if storageWorks st
  then {| sites := sites st; storage := Some (sites st);
          storageWorks := true; idCalls := idCalls st |}
  else st.

(** loadSites: the stored list when there is a non-empty one, the default
    sites (saved at once) otherwise; the default sites, and nothing saved,
    when the storage cannot be read (the catch branch). *)
Definition loadSites (st : State) : State :=
  if storageWorks st then
    match storage st with
    | Some (s :: l) => set_sites st (s :: l)
    | _ => saveSites (set_sites st DEFAULT_SITES)
    end
  else set_sites st DEFAULT_SITES.

Section Host.
(** What the browser answers at the [n]-th call of generateId: the value of
    [Date.now()] and the text of
    [Math.random().toString(36).substr(2, 9)]. *)
Variable host : nat -> Z * string.

Definition generateId (st : State) : string * State :=
  let '(now, random) := host (idCalls st) in
  ("site_" +:+ pretty now +:+ "_" +:+ random,
   {| sites := sites st; storage := storage st;
      storageWorks := storageWorks st; idCalls := S (idCalls st) |}).

(** The add/edit form when Save is pressed: the two text inputs, the
    colour picker's [selectedColor] and [editingSiteId] ([JNull] for
    [null]). *)
Record Form := {
  siteName : string;
  siteUrl : string;
  selectedColor : json;
  editingSiteId : json
}.

Definition addScheme (url : string) : string :=
  if negb (startsWith url "http://") && negb (startsWith url "https://")
  then "https://" +:+ url
  else url.

(** saveSite.  When a site is edited it is looked for with
    [sites.findIndex(s => s.id === editingSiteId)], the ids compared as
    [json_eqb] compares them. *)
Definition saveSite (form : Form) (st : State) : State :=
  let name := trim (siteName form) in
  let url := trim (siteUrl form) in
  if String.eqb name "" || String.eqb url "" then st
  else
    let url := addScheme url in
    if truthy (editingSiteId form) then
      match list_find (fun s => id s = editingSiteId form) (sites st) with
      | Some (siteIndex, old) =>
          saveSites (set_sites st
            (<[siteIndex :=
                 {| id := id old; name := name; url := url;
                    color := selectedColor form |}]> (sites st)))
      | None => saveSites st
      end
    else
      let '(newId, st) := generateId st in
      saveSites (set_sites st
        (sites st ++ [{| id := JStr newId; name := name; url := url;
                         color := selectedColor form |}])).

(** The "delete" entry of the context menu of [target]:
    [sites.filter(s => s.id !== site.id)], the ids compared as [json_eqb]
    compares them. *)
Definition deleteSite (target : Site) (st : State) : State :=
  saveSites (set_sites st (filter (fun s => id s <> id target) (sites st))).

(** handleDrop on the registry: the spliced array is saved. *)
Definition dropSite (drag : Reorder.DragState) (target : option Z)
    (isAbove : bool) (st : State) : State :=
  match Reorder.handleDrop drag target isAbove (sites st) with
  | Some sites' => saveSites (set_sites st sites')
  | None => st
  end.

(** exportSites writes [JSON.stringify(sites, null, 2)]; the file is
    represented by the document it holds, which is what JSON.parse will
    read from it. *)
Definition site_to_json (s : Site) : json :=
  JObj [("id", id s); ("name", JStr (name s)); ("url", JStr (url s));
        ("color", color s)].

Definition exportSites (st : State) : json :=
  stringified (JArr (site_to_json <$> sites st)).

(** The filter of handleFileImport. *)
Definition hasRequiredFields (candidate : json) : bool :=
  truthy candidate
  && is_string (prop candidate "name")
  && is_string (prop candidate "url").

(** The string that a value known to be a string is. *)
Definition string_of (v : option json) : string :=
  match v with
  | Some (JStr s) => s
  | _ => ""
  end.

(** The map of handleFileImport on one candidate that passed the filter,
    so that its name and url are strings; generateId is called only when
    [site.id] is missing or falsy. *)
Definition toSite (candidate : json) (st : State) : Site * State :=
  let '(i, st) :=
    match prop candidate "id" with
    | Some v => if truthy v then (v, st)
                else let '(g, st) := generateId st in (JStr g, st)
    | None => let '(g, st) := generateId st in (JStr g, st)
    end in
  ({| id := i;
      name := string_of (prop candidate "name");
      url := string_of (prop candidate "url");
      color := or_else (prop candidate "color") (JStr "#4a9eff") |}, st).

Fixpoint toSites (candidates : list json) (st : State) : list Site * State :=
  match candidates with
  | [] => ([], st)
  | c :: rest =>
      let '(s, st) := toSite c st in
      let '(l, st) := toSites rest st in
      (s :: l, st)
  end.

Inductive ImportOutcome :=
| Imported        (* "sites imported" alert *)
| NoValidSites    (* "the file holds no valid sites" alert *)
| ImportFailed.   (* the catch branch: not JSON, or not an array *)

(** handleFileImport once a file was chosen.  [importedSites] is the result
    of [JSON.parse(text)], [None] when it throws; [replace] is the answer to
    the confirm dialog, which is only asked when there is a valid site. *)
Definition handleFileImport (importedSites : option json) (replace : bool)
    (st : State) : State * ImportOutcome :=
  match importedSites with
  | Some (JArr candidates) =>
      let '(validSites, st') := toSites (filter hasRequiredFields candidates) st in
      match validSites with
      | [] => (st', NoValidSites)
      | _ :: _ =>
          if replace then (saveSites (set_sites st' validSites), Imported)
          else
            let existingUrls : gset string := list_to_set (url <$> sites st') in
            let newSites := filter (fun s => url s ∉ existingUrls) validSites in
            (saveSites (set_sites st' (sites st' ++ newSites)), Imported)
      end
  | _ => (st, ImportFailed)
  end.
End Host.

End Registry.

(** ** The favicon cache *)

Module Favicon.

Definition CACHE_DURATION : Z := 7 * 24 * 60 * 60 * 1000.

(** A record of the object store 'favicons' (keyPath 'domain'). *)
Record Entry := {
  domain : string;
  dataUrl : string;
  timestamp : Z
}.

#[global] Instance Entry_eq_dec : EqDecision Entry.
Proof. solve_decision. Defined.

Record Blob := {
  blobType : string;
  blobBytes : list Byte.byte
}.

Definition blobSize (b : Blob) : Z := Z.of_nat (length (blobBytes b)).

(** What a request comes to: [fetch] rejects, it resolves with a
    response whose [ok] flag is given and whose [blob()] rejects, resolves
    or never settles (the body stalls), or it never settles: the script
    sets no timeout. *)
Inductive Body :=
| BodyFails
| BodyBlob (b : Blob)
| BodyStalls.

Inductive Outcome :=
| NetworkError
| Response (ok : bool) (body : Body)
| NoAnswer.

(** How a request on the open database goes.  A read: [db.transaction]
    throws, the request of [store.get] fails ([request.onerror]) or it
    succeeds.  A write: [db.transaction] throws, the transaction completes
    ([transaction.oncomplete]), an error event reaches it
    ([transaction.onerror], nothing is stored), or it is aborted without an
    error event, as when the commit fails: cacheFavicon listens for
    [complete] and [error] only. *)
Inductive Read :=
| ReadThrows
| ReadFails
| ReadSucceeds.

Inductive Write :=
| WriteThrows
| WriteCompletes
| WriteFails
| WriteAborts.

(** What the resolution did to the outside: requests sent and records
    put into the object store, latest first. *)
Inductive Event :=
| Fetch (url : string)
| Put (e : Entry).

(** [db] is the open database, [None] while the variable [db] is [null]
    (initDB failed or has not run).  [clock] is what [Date.now()]
    returns. *)
Record World := {
  db : option (gmap string Entry);
  clock : Z;
  log : list Event
}.

(** An asynchronous function: it changes the world and its promise is
    resolved with a value, rejected, or never settled. *)
Inductive Result (A : Type) :=
| Ok (a : A)
| Thrown
| Pending.
Arguments Ok {A} a.
Arguments Thrown {A}.
Arguments Pending {A}.

Definition M (A : Type) : Type := World -> Result A * World.

Definition ret {A} (a : A) : M A := fun w => (Ok a, w).

Definition throw {A} : M A := fun w => (Thrown, w).

Definition never {A} : M A := fun w => (Pending, w).

(** [await]: a promise that is never settled leaves the caller waiting. *)
Definition bind {A B} (m : M A) (k : A -> M B) : M B :=
  fun w =>
    match m w with
    | (Ok a, w') => k a w'
    | (Thrown, w') => (Thrown, w')
    | (Pending, w') => (Pending, w')
    end.

Definition try_catch {A} (m : M A) (handler : M A) : M A :=
  fun w =>
    match m w with
    | (Ok a, w') => (Ok a, w')
    | (Thrown, w') => handler w'
    | (Pending, w') => (Pending, w')
    end.

#[global] Instance M_ret : MRet M := @ret.
#[global] Instance M_bind : MBind M := fun A B k m => bind m k.

Section Browser.
(** The network: what each address answers and how long the answer takes
    (the clock moves on while a request is awaited). *)
Variable respond : string -> Outcome.
Variable latency : string -> Z.
(** [FileReader.readAsDataURL] fails on these blobs. *)
Variable readerFails : Blob -> bool.
(** Base64 of the bytes of a blob. *)
Variable base64 : list Byte.byte -> string.
(** [new URL(siteUrl).hostname], [None] when the constructor throws. *)
Variable hostname : string -> option string.
(** The object store: how the read and the write of the record of a
    domain go at a given time. *)
Variable reads : string -> Z -> Read.
Variable writes : string -> Z -> Write.

Definition fetch (url : string) : M (bool * Body) :=
  fun w =>
    let w' := {| db := db w; clock := clock w + latency url;
                 log := Fetch url :: log w |} in
    match respond url with
    | NetworkError => (Thrown, w')
    | Response ok body => (Ok (ok, body), w')
    | NoAnswer => (Pending, w')
    end.

Definition blob (body : Body) : M Blob :=
  match body with
  | BodyFails => throw
  | BodyBlob b => ret b
  | BodyStalls => never
  end.

Definition blobToDataUrl (b : Blob) : M string :=
  if readerFails b then throw
  else ret ("data:" +:+ blobType b +:+ ";base64," +:+ base64 (blobBytes b)).

(** getCachedFavicon: an exception of [db.transaction] rejects the
    promise, [request.onerror] resolves it with [null]. *)
Definition getCachedFavicon (domain : string) : M (option string) :=
  fun w =>
    match db w with
    | None => (Ok None, w)
    | Some store =>
        match reads domain (clock w) with
        | ReadThrows => (Thrown, w)
        | ReadFails => (Ok None, w)
        | ReadSucceeds =>
            match store !! domain with
            | Some result =>
                if clock w - timestamp result <? CACHE_DURATION
                then (Ok (Some (dataUrl result)), w)
                else (Ok None, w)
            | None => (Ok None, w)
            end
        end
    end.

(** cacheFavicon: an exception of [db.transaction] rejects the promise,
    [transaction.oncomplete] and [transaction.onerror] resolve it, and
    nothing settles it when the transaction is aborted. *)
Definition cacheFavicon (domain_ dataUrl_ : string) : M unit :=
  fun w =>
    match db w with
    | None => (Ok tt, w)
    | Some store =>
        let e := {| domain := domain_; dataUrl := dataUrl_;
                    timestamp := clock w |} in
        match writes domain_ (clock w) with
        | WriteThrows => (Thrown, w)
        | WriteCompletes =>
            (Ok tt, {| db := Some (<[domain_ := e]> store); clock := clock w;
                       log := Put e :: log w |})
        | WriteFails => (Ok tt, w)
        | WriteAborts => (Pending, w)
        end
    end.

Definition sources (domain : string) : list string := [
  "https://icons.duckduckgo.com/ip3/" +:+ domain +:+ ".ico";
  "https://www.google.com/s2/favicons?domain=" +:+ domain +:+ "&sz=128";
  "https://favicon.io/favicon/" +:+ domain;
  "https://" +:+ domain +:+ "/favicon.ico";
  "https://" +:+ domain +:+ "/apple-touch-icon.png";
  "https://" +:+ domain +:+ "/apple-touch-icon-precomposed.png"
].

(** The body of the loop for one source: [Some dataUrl] when the function
    returns from inside the loop, [None] for [continue]. *)
Definition trySource (domain url : string) : M (option string) :=
  try_catch
    ('(ok, body) ← fetch url;
     if negb ok then ret None
     else
       b ← blob body;
       if blobSize b <? 100 then ret None
       else
         dataUrl ← blobToDataUrl b;
         cacheFavicon domain dataUrl;;
         ret (Some dataUrl))
    (ret None).

Fixpoint trySources (domain : string) (urls : list string) : M (option string) :=
  match urls with
  | [] => ret None
  | url :: rest =>
      r ← trySource domain url;
      match r with
      | Some dataUrl => ret (Some dataUrl)
      | None => trySources domain rest
      end
  end.

Definition fetchAndCacheFavicon (domain : string) : M (option string) :=
  trySources domain (sources domain).

(** [if (cached)]: [null] and the empty string are falsy. *)
Definition is_truthy (cached : option string) : bool :=
  match cached with
  | Some s => negb (String.eqb s "")
  | None => false
  end.

Definition getFavicon (siteUrl : string) : M (option string) :=
  try_catch
    (match hostname siteUrl with
     | None => throw
     | Some domain =>
         cached ← getCachedFavicon domain;
         if is_truthy cached then ret cached
         else fetchAndCacheFavicon domain
     end)
    (ret None).
End Browser.

End Favicon.

(** ** Auto-hibernate *)

Module Idle.

Definition HIBERNATE_TIMEOUT : Z := 5 * 60 * 1000.

(** The browser's side: the clock [Date.now()] reads, the timeouts that are
    pending (every one of them was set with checkHibernate as its callback)
    with the time each is due, and the next timer id. *)
Record Browser := {
  clock : Z;
  timers : gmap positive Z;
  nextTimer : positive
}.

(** The script's variables, and of the page what the controller changes:
    the frame's address and whether the hibernate overlay is shown. *)
Record Vars := {
  hibernateTimer : option positive;
  isHibernated : bool;
  lastActivityTime : Z;
  hibernatedUrl : option string;
  currentSiteUrl : option string;
  webFrameSrc : string;
  overlayShown : bool
}.

Record State := {
  browser : Browser;
  vars : Vars
}.

(** [setTimeout(checkHibernate, delay)] *)
Definition setTimeout (delay : Z) (b : Browser) : positive * Browser :=
  (nextTimer b,
   {| clock := clock b;
      timers := <[nextTimer b := clock b + delay]> (timers b);
      nextTimer := Pos.succ (nextTimer b) |}).

Definition clearTimeout (timer : positive) (b : Browser) : Browser :=
  {| clock := clock b; timers := delete timer (timers b);
     nextTimer := nextTimer b |}.

(** A string variable used as a condition: [null] and [''] are falsy. *)
Definition is_set (v : option string) : bool :=
  match v with
  | Some s => negb (String.eqb s "")
  | None => false
  end.

Definition wakeFromHibernate (v : Vars) : Vars :=
  if negb (isHibernated v) then v
  else
    if is_set (hibernatedUrl v)
    then {| hibernateTimer := hibernateTimer v; isHibernated := false;
            lastActivityTime := lastActivityTime v;
            hibernatedUrl := None;
            currentSiteUrl := currentSiteUrl v;
            webFrameSrc := default "" (hibernatedUrl v);
            overlayShown := false |}
    else {| hibernateTimer := hibernateTimer v; isHibernated := false;
            lastActivityTime := lastActivityTime v;
            hibernatedUrl := hibernatedUrl v;
            currentSiteUrl := currentSiteUrl v;
            webFrameSrc := webFrameSrc v;
            overlayShown := false |}.

Definition hibernate (v : Vars) : Vars :=
  if isHibernated v || negb (is_set (currentSiteUrl v)) then v
  else {| hibernateTimer := hibernateTimer v; isHibernated := true;
          lastActivityTime := lastActivityTime v;
          hibernatedUrl := currentSiteUrl v;
          currentSiteUrl := currentSiteUrl v;
          webFrameSrc := "about:blank";
          overlayShown := true |}.

Definition checkHibernate (st : State) : State :=
  let inactiveTime := clock (browser st) - lastActivityTime (vars st) in
  if (HIBERNATE_TIMEOUT <=? inactiveTime)
     && is_set (currentSiteUrl (vars st))
     && negb (isHibernated (vars st))
  then {| browser := browser st; vars := hibernate (vars st) |}
  else st.

Definition resetActivityTimer (st : State) : State :=
  let v := vars st in
  let v := {| hibernateTimer := hibernateTimer v;
              isHibernated := isHibernated v;
              lastActivityTime := clock (browser st);
              hibernatedUrl := hibernatedUrl v;
              currentSiteUrl := currentSiteUrl v;
              webFrameSrc := webFrameSrc v;
              overlayShown := overlayShown v |} in
  let v := if isHibernated v then wakeFromHibernate v else v in
  let b := match hibernateTimer v with
           | Some timer => clearTimeout timer (browser st)
           | None => browser st
           end in
  let '(timer, b) := setTimeout HIBERNATE_TIMEOUT b in
  {| browser := b;
     vars := {| hibernateTimer := Some timer;
                isHibernated := isHibernated v;
                lastActivityTime := lastActivityTime v;
                hibernatedUrl := hibernatedUrl v;
                currentSiteUrl := currentSiteUrl v;
                webFrameSrc := webFrameSrc v;
                overlayShown := overlayShown v |} |}.

(** loadSite, as far as the controller sees it. *)
Definition loadSite (url : string) (st : State) : State :=
  let v := vars st in
  {| browser := browser st;
     vars := {| hibernateTimer := hibernateTimer v;
                isHibernated := isHibernated v;
                lastActivityTime := lastActivityTime v;
                hibernatedUrl := hibernatedUrl v;
                currentSiteUrl := Some url;
                webFrameSrc := url;
                overlayShown := overlayShown v |} |}.

(** The variables as the script declares them, at time [t0], and the
    state after setupActivityListeners has started the first timer. *)
Definition initial (t0 : Z) : State :=
  {| browser := {| clock := t0; timers := ∅; nextTimer := 1%positive |};
     vars := {| hibernateTimer := None; isHibernated := false;
                lastActivityTime := t0; hibernatedUrl := None;
                currentSiteUrl := None; webFrameSrc := "";
                overlayShown := false |} |}.

Definition setupActivityListeners (st : State) : State :=
  resetActivityTimer st.

(** What the event queue delivers: an activity signal (mousemove,
    mousedown, keydown, scroll, touchstart, the page becoming visible, a
    click on the overlay), a pending timeout running its callback, a click
    on a site's icon.  [t] is the time of delivery. *)
Inductive Event :=
| Activity (t : Z)
| TimerFires (timer : positive) (t : Z)
| SiteClicked (url : string) (t : Z).

Definition at_time (t : Z) (st : State) : State :=
  {| browser := {| clock := t; timers := timers (browser st);
                   nextTimer := nextTimer (browser st) |};
     vars := vars st |}.

(** One event; [None] when the queue cannot deliver it: time does not run
    backwards, and a timeout runs once, not before it is due. *)
Definition step (ev : Event) (st : State) : option State :=
  match ev with
  | Activity t =>
      if clock (browser st) <=? t
      then Some (resetActivityTimer (at_time t st))
      else None
  | TimerFires timer t =>
      match timers (browser st) !! timer with
      | Some due =>
          if (due <=? t) && (clock (browser st) <=? t)
          then Some (checkHibernate
                       {| browser := clearTimeout timer (browser (at_time t st));
                          vars := vars st |})
          else None
      | None => None
      end
  | SiteClicked url t =>
      if clock (browser st) <=? t
      then Some (loadSite url (at_time t st))
      else None
  end.

Fixpoint run (evs : list Event) (st : State) : option State :=
  match evs with
  | [] => Some st
  | ev :: rest =>
      match step ev st with
      | Some st' => run rest st'
      | None => None
      end
  end.

End Idle.

(** * Specification

    The notions of the specification (sections 3, 4 and 8) that the
    properties below are stated with, and the concrete runs they are tried
    on. *)

(** ** Reordering *)

Module ReorderSpec.

Section Lists.
Context {A : Type}.

(** The rule as section 4.2 words it, before clamping. *)
Definition documented_index (isAbove : bool) (from target : Z) : Z :=
  (if isAbove then target else target + 1)
  - (if bool_decide (from < target) then 1 else 0).

(** Remove the element at [from] and put it back at position [to]. *)
Definition move (from to : nat) (l : list A) : list A :=
  match l !! from with
  | Some x => take to (delete from l) ++ x :: drop to (delete from l)
  | None => l
  end.
End Lists.

End ReorderSpec.

(** ** Registry *)

Module RegistrySpec.
Import Registry.
Implicit Types (s : Site) (c : json).

(** An entry of an import file is valid when it has a string [name] and a
    string [url]. *)
Definition valid_entry (c : json) : Prop :=
  exists n u, prop c "name" = Some (JStr n) /\ prop c "url" = Some (JStr u).

(** What the map makes of one valid entry. *)
Definition site_of_entry (c : json) (s : Site) : Prop :=
  prop c "name" = Some (JStr (name s))
  /\ prop c "url" = Some (JStr (url s))
  /\ truthy (id s) = true
  /\ truthy (color s) = true
  /\ (forall v, prop c "id" = Some v -> truthy v = true -> id s = v)
  /\ (forall v, prop c "color" = Some v -> truthy v = true -> color s = v).

(** A site that the import's defaults leave alone. *)
Definition keeps_id_and_color s : Prop :=
  truthy (id s) = true /\ truthy (color s) = true.

(** A value without Infinity or -Infinity in it, and a site whose id and
    color are such values. *)
Fixpoint finite (v : json) : bool :=
  match v with
  | JInf _ => false
  | JArr items => forallb finite items
  | JObj members => forallb (fun kv => finite kv.2) members
  | _ => true
  end.

Definition finite_fields s : Prop :=
  finite (id s) = true /\ finite (color s) = true.

(** The invariant of a Site (section 3): a non-empty name, a non-empty url
    with an explicit scheme, and an id that no other site of the registry
    has. *)
Definition has_scheme (u : string) : bool :=
  startsWith u "http://" || startsWith u "https://".

Definition well_formed s : Prop :=
  name s <> "" /\ url s <> "" /\ has_scheme (url s) = true.

Definition registry_invariant (l : list Site) : Prop :=
  NoDup (id <$> l) /\ Forall well_formed l.

End RegistrySpec.

(** *** Concrete runs *)

Definition host0 : nat -> Z * string :=
  fun n => (1700000000000 + Z.of_nat n, "k3j9x0a1b").

Definition installed : Registry.State :=
  {| Registry.sites := Registry.DEFAULT_SITES;
     Registry.storage := Some Registry.DEFAULT_SITES;
     Registry.storageWorks := true;
     Registry.idCalls := 0 |}.

(** The import of section 8: one entry named X, next to an entry without
    a url and a number. *)
Definition file_x : list json := [
  JObj [("name", JStr "X"); ("url", JStr "https://x.test")];
  JObj [("name", JStr "no url")];
  JNum 5
].

(** Two entries with the url https://x.test, which no default site has. *)
Definition file_twice : list json := [
  JObj [("name", JStr "X"); ("url", JStr "https://x.test")];
  JObj [("name", JStr "X again"); ("url", JStr "https://x.test")]
].


(** An import file whose one entry has the id 1e400, which JSON.parse
    reads as Infinity. *)
Definition file_overflow : list json := [
  JObj [("id", JInf false); ("name", JStr "Big"); ("url", JStr "https://big.test")]
].

(** The form filled to add example.com, with spaces around the name and no
    scheme. *)
Definition add_example : Registry.Form :=
  {| Registry.siteName := "  Example ";
     Registry.siteUrl := "example.com";
     Registry.selectedColor := JStr "#4a9eff";
     Registry.editingSiteId := JNull |}.

(** ** Favicon cache *)

Module FaviconSpec.
Import Favicon.

Section Browser.
Variable respond : string -> Outcome.
Variable latency : string -> Z.
Variable readerFails : Blob -> bool.
Variable base64 : list Byte.byte -> string.
Variable hostname : string -> option string.
Variable reads : string -> Z -> Read.
Variable writes : string -> Z -> Write.

(** A source is passed over: the request fails, the response is not a
    success, its body cannot be read, the payload is under 100 bytes, or
    the payload cannot be turned into a data URL. *)
Definition rejected (url : string) : Prop :=
  respond url = NetworkError
  \/ (exists body, respond url = Response false body)
  \/ respond url = Response true BodyFails
  \/ (exists b, respond url = Response true (BodyBlob b)
               /\ (blobSize b < 100 \/ readerFails b = true)).

(** A source is taken: a success whose payload has 100 bytes or more and
    is read into the data URL [d]. *)
Definition acceptable (url d : string) : Prop :=
  exists b, respond url = Response true (BodyBlob b)
            /\ 100 <= blobSize b
            /\ readerFails b = false
            /\ d = "data:" +:+ blobType b +:+ ";base64," +:+ base64 (blobBytes b).

(** A source that leaves the resolution waiting: the request is never
    answered, or the body of a success never arrives. *)
Definition silent (url : string) : Prop :=
  respond url = NoAnswer \/ respond url = Response true BodyStalls.

(** The requests for [urls] in the log, latest first, and the time they
    take. *)
Definition requests (urls : list string) : list Event :=
  reverse (Fetch <$> urls).

Definition elapsed (urls : list string) : Z :=
  foldr (fun url t => latency url + t) 0 urls.

(** The world after a request to [url], and after a write of [d] under
    [domain]. *)
Definition fetched (url : string) (w : World) : World :=
  {| db := db w; clock := clock w + latency url; log := Fetch url :: log w |}.

Definition stored (domain_ d : string) (w : World) : World :=
  match db w with
  | Some store =>
      let e := {| domain := domain_; dataUrl := d; timestamp := clock w |} in
      {| db := Some (<[domain_ := e]> store); clock := clock w;
         log := Put e :: log w |}
  | None => w
  end.

(** How the loop of fetchAndCacheFavicon leaves a source that was read
    into the data URL [d], in the world [w] that the request left. *)
Definition taken (domain_ d : string) (w : World)
  : Result (option string) * World :=
  match db w with
  | None => (Ok (Some d), w)
  | Some _ =>
      match writes domain_ (clock w) with
      | WriteThrows => (Ok None, w)
      | WriteCompletes => (Ok (Some d), stored domain_ d w)
      | WriteFails => (Ok (Some d), w)
      | WriteAborts => (Pending, w)
      end
  end.

(** The write of a record for [domain_] in the world [w] throws: the
    source is then passed over like one that did not answer. *)
Definition write_throws (domain_ : string) (w : World) : Prop :=
  is_Some (db w) /\ writes domain_ (clock w) = WriteThrows.

Definition after_requests (urls : list string) (w : World) : World :=
  foldl (fun w url => fetched url w) w urls.

Definition is_put (ev : Event) : bool :=
  match ev with
  | Put _ => true
  | Fetch _ => false
  end.

(** The store as cacheFavicon writes it: every record is kept under its
    own domain and holds a data URL, which is not empty. *)
Definition written_by_cacheFavicon (store : gmap string Entry) : Prop :=
  forall d e, store !! d = Some e -> domain e = d /\ dataUrl e <> "".

(** The claims of the specification as it words them, for one
    resolution.  Section 4.3, the lookup: a record of the domain is
    returned, without a request, exactly while it is under 7 days old. *)
Definition cached_iff_fresh (siteUrl domain_ : string) (w : World) : Prop :=
  forall store e,
    db w = Some store -> store !! domain_ = Some e -> dataUrl e <> "" ->
    (getFavicon respond latency readerFails base64 hostname reads writes
       siteUrl w = (Ok (Some (dataUrl e)), w)
     <-> clock w - timestamp e < CACHE_DURATION).

(** Section 4.3, the fetch chain: the first source that is taken is
    written to the cache under the domain, with the time of the write, and
    returned without a request to a later source. *)
Definition first_success_cached (domain_ : string) (w : World) : Prop :=
  forall pre url post d,
    sources domain_ = pre ++ url :: post ->
    Forall rejected pre ->
    acceptable url d ->
    let r := fetchAndCacheFavicon respond latency readerFails base64 writes
               domain_ w in
    let e := {| domain := domain_; dataUrl := d; timestamp := clock r.2 |} in
    r.1 = Ok (Some d)
    /\ log r.2 = Put e :: requests (pre ++ [url]) ++ log w
    /\ exists store, db r.2 = Some store /\ store !! domain_ = Some e.

End Browser.

End FaviconSpec.

(** *** Concrete runs *)

Definition example_domain : string := "example.com".

Definition icon : Favicon.Blob :=
  {| Favicon.blobType := "image/x-icon";
     Favicon.blobBytes := replicate 318 Byte.x00 |}.

Definition pixel : Favicon.Blob :=
  {| Favicon.blobType := "image/png";
     Favicon.blobBytes := replicate 68 Byte.x00 |}.

(** DuckDuckGo is unreachable, Google answers with a 68 byte placeholder,
    favicon.io with a 404, the site itself with its icon. *)
Definition respond0 (url : string) : Favicon.Outcome :=
  if bool_decide (url = "https://www.google.com/s2/favicons?domain=example.com&sz=128")
  then Favicon.Response true (Favicon.BodyBlob pixel)
  else if bool_decide (url = "https://favicon.io/favicon/example.com")
  then Favicon.Response false Favicon.BodyFails
  else if bool_decide (url = "https://example.com/favicon.ico")
  then Favicon.Response true (Favicon.BodyBlob icon)
  else Favicon.NetworkError.



Definition latency0 (url : string) : Z := 40.

Definition readerFails0 (b : Favicon.Blob) : bool := false.

(** A stand-in for the browser's encoder: one 'A' per byte. *)
Definition base64_0 (bytes : list Byte.byte) : string :=
  String.concat "" ((fun _ => "A"%string) <$> bytes).

Definition hostname0 (siteUrl : string) : option string :=
  if bool_decide (siteUrl = "https://example.com/page") then Some example_domain
  else None.

(** The object store answers every request. *)
Definition reads0 (domain : string) (now : Z) : Favicon.Read :=
  Favicon.ReadSucceeds.

Definition writes0 (domain : string) (now : Z) : Favicon.Write :=
  Favicon.WriteCompletes.

(** The object store fails every request with an error event. *)
Definition read_errors (domain : string) (now : Z) : Favicon.Read :=
  Favicon.ReadFails.

Definition write_errors (domain : string) (now : Z) : Favicon.Write :=
  Favicon.WriteFails.


Definition day : Z := 24 * 60 * 60 * 1000.

(** A store with the icon of example.com fetched at time 0, read at the
    time [now]. *)
Definition cached_at_0 (now : Z) : Favicon.World :=
  {| Favicon.db :=
       Some {[ example_domain :=
                 {| Favicon.domain := example_domain;
                    Favicon.dataUrl := "data:image/x-icon;base64,AAAA";
                    Favicon.timestamp := 0 |} ]};
     Favicon.clock := now;
     Favicon.log := [] |}.

Definition empty_cache (now : Z) : Favicon.World :=
  {| Favicon.db := Some ∅; Favicon.clock := now; Favicon.log := [] |}.

(** ** Auto-hibernate *)

Module IdleSpec.
Import Idle.

(** The time at which an event is delivered. *)
Definition time_of (ev : Event) : Z :=
  match ev with
  | Activity t => t
  | TimerFires _ t => t
  | SiteClicked _ t => t
  end.

(** Only one idle timer is live: a pending timeout is the one the script
    holds in [hibernateTimer]. *)
Definition single_timer (st : State) : Prop :=
  forall timer due,
    timers (browser st) !! timer = Some due ->
    hibernateTimer (vars st) = Some timer.

(** Nothing can hibernate the session before [t0 + HIBERNATE_TIMEOUT]: it
    is active, its clock has reached [t0] and no pending timeout is due
    earlier. *)
Definition quiet_since (t0 : Z) (st : State) : Prop :=
  isHibernated (vars st) = false
  /\ t0 <= clock (browser st)
  /\ forall timer due,
       timers (browser st) !! timer = Some due -> t0 + HIBERNATE_TIMEOUT <= due.

(** Section 4.3 on an idle timer that fires while nothing is loaded: "a
    no-op restart", the state stays Active and the timer runs again for a
    full period. *)
Definition restarted_after (st : State) (timer : positive) (t : Z) : Prop :=
  exists st',
    step (TimerFires timer t) st = Some st'
    /\ isHibernated (vars st') = false
    /\ exists timer', timers (browser st') !! timer' = Some (t + HIBERNATE_TIMEOUT).
End IdleSpec.

(** *** Concrete runs *)

(** The sidebar at time 0, its first timer started, no site loaded. *)
Definition idle_start : Idle.State := Idle.setupActivityListeners (Idle.initial 0).

(** The same with a site loaded. *)
Definition viewing : Idle.State := Idle.loadSite "https://github.com" idle_start.

(** ** Header stripping (the background script) *)

Module Headers.

Definition HEADERS_TO_REMOVE : list string := [
  "x-frame-options";
  "content-security-policy";
  "x-content-security-policy"
].

(** An entry of [details.responseHeaders]. *)
Record Header := {
  name : string;
  value : string
}.

#[global] Instance Header_eq_dec : EqDecision Header.
Proof. solve_decision. Defined.

(** [String.prototype.toLowerCase] on the code units below 256: the
    letters A to Z and the capital letters from 192 to 222 (215, the
    multiplication sign, is not one) move up by 32. *)
Definition lower (c : Ascii.ascii) : Ascii.ascii :=
  let n := Ascii.N_of_ascii c in
  if ((65 <=? n) && (n <=? 90)
      || (192 <=? n) && (n <=? 222) && negb (n =? 215))%N
  then Ascii.ascii_of_N (n + 32)
  else c.

Fixpoint toLowerCase (s : string) : string :=
  match s with
  | String c rest => String (lower c) (toLowerCase rest)
  | EmptyString => EmptyString
  end.

(** The listener of [onHeadersReceived], which the browser calls for the
    responses of sub-frames: the headers it returns. *)
Definition onHeadersReceived (responseHeaders : list Header) : list Header :=
  filter (fun header => toLowerCase (name header) ∉ HEADERS_TO_REMOVE)
    responseHeaders.

End Headers.

(** ** The add/edit dialog and the start of the script *)

Module Dialog.
Import Registry.

(** openModal: the form as the "+" button shows it. *)
Definition openModal : Form :=
  {| siteName := ""; siteUrl := ""; selectedColor := JStr "#4a9eff";
     editingSiteId := JNull |}.

(** openEditModal: the form as the "edit" entry of the context menu of
    [site] shows it. *)
Definition openEditModal (site : Site) : Form :=
  {| siteName := name site; siteUrl := url site;
     selectedColor := or_else (Some (color site)) (JStr "#4a9eff");
     editingSiteId := id site |}.

(** The script starting again: [sites] is declared empty, the storage is
    what the last run left, and init calls loadSites. *)
Definition init (st : State) : State := loadSites (set_sites st []).

End Dialog.

(** ** Strings *)

Module StringSpec.

(** The code units of a string. *)
Definition chars (s : string) : list Ascii.ascii := String.list_ascii_of_string s.

(** A string of white space only. *)
Definition blank (s : string) : Prop :=
  Forall (fun c => is_white_space c = true) (chars s).

(** A string without white space at either end. *)
Definition tidy (s : string) : Prop :=
  (forall c, head (chars s) = Some c -> is_white_space c = false)
  /\ (forall c, last (chars s) = Some c -> is_white_space c = false).

(** The list left when the leading white space is dropped. *)
Fixpoint ltrim (l : list Ascii.ascii) : list Ascii.ascii :=
  match l with
  | c :: rest => if is_white_space c then ltrim rest else l
  | [] => []
  end.

End StringSpec.

(** ** Registry, continued *)

Module RegistryMore.
Import Registry.

(** The storage holds the registry as it is. *)
Definition mirrored (st : State) : Prop := storage st = Some (sites st).

(** What the user does to the registry through the dialog, the context
    menu and the mouse. *)
Inductive Action :=
| Save (form : Form)
| Delete (target : Site)
| Drop (drag : Reorder.DragState) (target : option Z) (isAbove : bool).

Section Host.
Variable host : nat -> Z * string.

Definition act (st : State) (a : Action) : State :=
  match a with
  | Save form => saveSite host form st
  | Delete target => deleteSite target st
  | Drop drag target isAbove => dropSite drag target isAbove st
  end.

Definition play (actions : list Action) (st : State) : State :=
  foldl act st actions.

(** The id that the [k]-th call of generateId returns. *)
Definition generated (k : nat) : json :=
  JStr ("site_" +:+ pretty (host k).1 +:+ "_" +:+ (host k).2).

(** Every id of the registry is the id of a default site or an id that
    generateId has returned. *)
Definition ids_accounted (st : State) : Prop :=
  forall s, s ∈ sites st ->
    id s ∈ id <$> DEFAULT_SITES
    \/ exists k, (k < idCalls st)%nat /\ id s = generated k.

(** The states the script can be in: the first start, on an empty
    storage, and from there what the user does (saving the form, deleting
    a site of the bar, dropping, importing a file, opening the sidebar
    again) and what becomes of the storage's availability.  The colour
    that the dialog hands over is taken to be truthy: [selectedColor]
    starts as '#4a9eff', openEditModal sets it to
    [site.color || '#4a9eff'] and a click on a colour button to the
    [data-color] of that button, which the page defines. *)
Inductive reachable : State -> Prop :=
| reach_install works calls :
    reachable (Dialog.init {| sites := []; storage := None;
                              storageWorks := works; idCalls := calls |})
| reach_save form st :
    reachable st -> truthy (selectedColor form) = true ->
    reachable (saveSite host form st)
| reach_delete target st :
    reachable st -> target ∈ sites st -> reachable (deleteSite target st)
| reach_drop drag target isAbove st :
    reachable st -> reachable (dropSite drag target isAbove st)
| reach_import file replace st :
    reachable st -> reachable (handleFileImport host file replace st).1
| reach_restart st :
    reachable st -> reachable (Dialog.init st)
| reach_storage works st :
    reachable st ->
    reachable {| sites := sites st; storage := storage st;
                 storageWorks := works; idCalls := idCalls st |}.

(** Section 8, the round trip, as the specification words it, for one
    state of the registry. *)
Definition round_trip (st : State) : Prop :=
  sites (handleFileImport host (Some (exportSites st)) true st).1 = sites st.
End Host.

(** A value that [===] compares by what it holds: not an array and not an
    object. *)
Definition primitive (v : json) : bool :=
  match v with
  | JArr _ | JObj _ => false
  | _ => true
  end.

End RegistryMore.

(** ** Auto-hibernate, continued *)

Module IdleMore.
Import Idle.

(** What holds of the variables between two events: the overlay is shown
    exactly while the session is hibernated; while it is, an address is
    kept and the last activity is five minutes old or more; while it is
    not, no address is kept. *)
Definition coherent (st : State) : Prop :=
  overlayShown (vars st) = isHibernated (vars st)
  /\ lastActivityTime (vars st) <= clock (browser st)
  /\ (isHibernated (vars st) = true ->
      is_set (hibernatedUrl (vars st)) = true
      /\ HIBERNATE_TIMEOUT <= clock (browser st) - lastActivityTime (vars st))
  /\ (isHibernated (vars st) = false -> hibernatedUrl (vars st) = None).

End IdleMore.

(** *** Concrete runs *)

(** The headers of a response that forbids framing. *)
Definition response_of_a_site : list Headers.Header := [
  {| Headers.name := "Content-Type"; Headers.value := "text/html" |};
  {| Headers.name := "X-FRAME-OPTIONS"; Headers.value := "DENY" |};
  {| Headers.name := "content-security-policy";
     Headers.value := "frame-ancestors 'none'" |};
  {| Headers.name := "Content-Security-Policy-Report-Only";
     Headers.value := "default-src 'self'" |};
  {| Headers.name := "Set-Cookie"; Headers.value := "a=1" |}
].

(** A registry that the storage mirrors, emptied by the user. *)
Definition emptied : Registry.State :=
  {| Registry.sites := [];
     Registry.storage := Some [];
     Registry.storageWorks := true;
     Registry.idCalls := 3 |}.

(** The registry after GitHub was renamed, and the same when the storage
    can no longer be read. *)
Definition renamed : Registry.State :=
  Registry.saveSite host0
    {| Registry.siteName := "GH"; Registry.siteUrl := "https://github.com";
       Registry.selectedColor := JStr "#24292e";
       Registry.editingSiteId := JStr "github" |}
    installed.

Definition unreadable : Registry.State :=
  {| Registry.sites := Registry.sites renamed;
     Registry.storage := Registry.storage renamed;
     Registry.storageWorks := false;
     Registry.idCalls := Registry.idCalls renamed |}.

(** The form with a name of spaces only. *)
Definition blank_name : Registry.Form :=
  {| Registry.siteName := "   ";
     Registry.siteUrl := "example.com";
     Registry.selectedColor := JStr "#4a9eff";
     Registry.editingSiteId := JNull |}.

(** The site GitHub of the default registry, at index 3. *)
Definition github : Registry.Site :=
  Registry.site "github" "GitHub" "https://github.com" "#24292e".

(** The edit dialog on GitHub with another name and a url without
    scheme. *)
Definition rename_github : Registry.Form :=
  {| Registry.siteName := " GH ";
     Registry.siteUrl := "github.com/explore";
     Registry.selectedColor := JStr "#000000";
     Registry.editingSiteId := JStr "github" |}.

(** The registry after the import, in replace mode, of the file with the
    id 1e400. *)
Definition overflowed : Registry.State :=
  (Registry.handleFileImport host0 (Some (JArr file_overflow)) true installed).1.

(** A host that answers every call of generateId alike: the clock stands
    still and Math.random repeats itself. *)
Definition frozen : nat -> Z * string :=
  fun _ => (1700000000000, "k3j9x0a1b").

(** Adding two sites, renaming GitHub, dragging the last site to the top
    and deleting GitHub. *)
Definition session : list RegistryMore.Action := [
  RegistryMore.Save add_example;
  RegistryMore.Save add_example;
  RegistryMore.Save rename_github;
  RegistryMore.Drop (Reorder.handleDragStart 8) (Some 0) true;
  RegistryMore.Delete github
].

(** The world after the icon of example.com was fetched into an empty
    cache, and the store it left, read six days later. *)
Definition first_visit : Favicon.World :=
  (Favicon.getFavicon respond0 latency0 readerFails0 base64_0 hostname0
     reads0 writes0 "https://example.com/page" (empty_cache 1000)).2.

Definition six_days_later : Favicon.World :=
  {| Favicon.db := Favicon.db first_visit;
     Favicon.clock := Favicon.clock first_visit + 6 * day;
     Favicon.log := [] |}.

(** A store that holds the icon of github.com only. *)
Definition github_icon : Favicon.Entry :=
  {| Favicon.domain := "github.com";
     Favicon.dataUrl := "data:image/png;base64,AAAA";
     Favicon.timestamp := 500 |}.

Definition github_cached : Favicon.World :=
  {| Favicon.db := Some {[ "github.com"%string := github_icon ]};
     Favicon.clock := 1000;
     Favicon.log := [] |}.

(** The database could not be opened. *)
Definition no_database : Favicon.World :=
  {| Favicon.db := None; Favicon.clock := 1000; Favicon.log := [] |}.

(** Five and a half minutes of a session: a site is opened, the user moves
    the mouse for a while, then nothing until the timeout runs. *)
Definition idle_session : list Idle.Event := [
  Idle.SiteClicked "https://github.com" 2000;
  Idle.Activity 2000;
  Idle.Activity 30000;
  Idle.TimerFires 3 330000
].

(** The same session before the timeout runs, and the state it reaches. *)
Definition active_session : list Idle.Event := [
  Idle.SiteClicked "https://github.com" 2000;
  Idle.Activity 2000;
  Idle.Activity 30000
].

Definition about_to_sleep : Idle.State :=
  default idle_start (Idle.run active_session idle_start).

(** * Properties *)

(** ** The helpers on concrete inputs *)

Example trim_spaces : trim "  Example site  " = "Example site"%string.
Proof. by vm_compute. Qed.

Example trim_line_ends :
  trim (String (Ascii.ascii_of_nat 9) ("example.com" +:+ String (Ascii.ascii_of_nat 10) ""))
  = "example.com"%string.
Proof. by vm_compute. Qed.

Example addScheme_bare : Registry.addScheme "example.com" = "https://example.com"%string.
Proof. by vm_compute. Qed.

Example addScheme_http : Registry.addScheme "http://example.com" = "http://example.com"%string.
Proof. by vm_compute. Qed.

Example generateId_first :
  (Registry.generateId host0 installed).1 = "site_1700000000000_k3j9x0a1b"%string.
Proof. by vm_compute. Qed.

Example splice_negative_start :
  Reorder.splice [1; 2; 3; 4] (-1) 1 [9] = ([1; 2; 3; 9], [4]).
Proof. by vm_compute. Qed.

Example prop_last_member_wins :
  prop (JObj [("name", JStr "a"); ("name", JStr "b")]) "name" = Some (JStr "b").
Proof. by vm_compute. Qed.

(** ** Reordering by drag and drop *)

Section ReorderProperties.
Import Reorder ReorderSpec.
Context {A : Type}.
Implicit Types (sites : list A) (d t : nat).

Lemma newIndex_documented isAbove (from target len : Z) :
  newIndex isAbove from target len
  = Z.max 0 (Z.min (documented_index isAbove from target) (len - 1)).
Proof.
  unfold newIndex, documented_index.
  destruct isAbove; case_bool_decide as H;
    [apply Z.ltb_lt in H|apply Z.ltb_nlt in H|apply Z.ltb_lt in H|apply Z.ltb_nlt in H];
    rewrite H; f_equal; f_equal; lia.
Qed.

(** Between two different buttons of the bar the clamp changes nothing. *)
Lemma newIndex_in_range isAbove sites d t :
  (d < length sites)%nat -> (t < length sites)%nat -> d <> t ->
  newIndex isAbove (Z.of_nat d) (Z.of_nat t) (Z.of_nat (length sites))
  = documented_index isAbove (Z.of_nat d) (Z.of_nat t)
  /\ 0 <= documented_index isAbove (Z.of_nat d) (Z.of_nat t)
       <= Z.of_nat (length sites) - 1.
Proof.
  intros Hd Ht Hne. rewrite newIndex_documented. unfold documented_index.
  destruct isAbove; case_bool_decide; lia.
Qed.

Lemma splice_remove_one sites d x :
  sites !! d = Some x ->
  splice sites (Z.of_nat d) 1 [] = (delete d sites, [x]).
Proof.
  intros Hx. pose proof (lookup_lt_Some _ _ _ Hx) as Hlt.
  unfold splice. replace (Z.of_nat d <? 0) with false by lia.
  rewrite Z.min_l by lia. rewrite Nat2Z.id.
  replace (Z.to_nat (Z.max 0 (Z.min 1 (Z.of_nat (length sites) - Z.of_nat d))))
    with 1%nat by lia.
  f_equal.
  - rewrite delete_take_drop. simpl. do 2 f_equal. lia.
  - rewrite <- (take_drop_middle _ _ _ Hx) at 1.
    rewrite drop_app_length'; [done|]. rewrite length_take. lia.
Qed.

Lemma splice_insert_one (l : list A) (n : nat) x :
  (n <= length l)%nat ->
  splice l (Z.of_nat n) 0 [x] = (take n l ++ x :: drop n l, []).
Proof.
  intros Hn. unfold splice. replace (Z.of_nat n <? 0) with false by lia.
  rewrite Z.min_l by lia. rewrite Nat2Z.id.
  replace (Z.to_nat (Z.max 0 (Z.min 0 (Z.of_nat (length l) - Z.of_nat n))))
    with 0%nat by lia.
  rewrite Nat.add_0_r. simpl. by rewrite take_0.
Qed.

Lemma move_same sites d : move d d sites = sites.
Proof.
  unfold move. destruct (sites !! d) as [x|] eqn:Hx; [|done].
  rewrite delete_take_drop.
  pose proof (lookup_lt_Some _ _ _ Hx) as Hlt.
  rewrite take_app_length', drop_app_length' by (rewrite length_take; lia).
  by apply take_drop_middle.
Qed.

Lemma handleDrop_move sites d t isAbove :
  (d < length sites)%nat -> (t < length sites)%nat -> d <> t ->
  default sites
    (handleDrop (handleDragStart (Z.of_nat d)) (Some (Z.of_nat t)) isAbove sites)
  = move d (Z.to_nat (documented_index isAbove (Z.of_nat d) (Z.of_nat t))) sites.
Proof.
  intros Hd Ht Hne.
  destruct (newIndex_in_range isAbove sites d t Hd Ht Hne) as [Hn Hr].
  unfold handleDrop, handleDragStart. cbn [draggedItem draggedIndex].
  rewrite bool_decide_eq_false_2 by lia.
  rewrite Hn. set (n := documented_index _ _ _) in *.
  destruct (lookup_lt_is_Some_2 sites d Hd) as [x Hx].
  destruct (decide (Z.of_nat d = n)) as [E|E].
  - replace (Z.of_nat d =? n) with true by lia. cbn [negb andb default].
    rewrite <- E, Nat2Z.id. by rewrite move_same.
  - replace (Z.of_nat d =? n) with false by lia.
    replace (0 <=? Z.of_nat d) with true by lia.
    replace (Z.of_nat d <? Z.of_nat (length sites)) with true by lia.
    cbn [negb andb]. rewrite (splice_remove_one _ _ _ Hx).
    rewrite <- (Z2Nat.id n) at 1 by lia.
    rewrite splice_insert_one by (rewrite length_delete by eauto; lia).
    simpl. unfold move. by rewrite Hx.
Qed.

(** Where the dragged site and the target end up. *)
Lemma move_adjacent sites d t isAbove x y :
  sites !! d = Some x -> sites !! t = Some y -> d <> t ->
  let n := Z.to_nat (documented_index isAbove (Z.of_nat d) (Z.of_nat t)) in
  move d n sites !! n = Some x
  /\ move d n sites !! (if isAbove then S n else pred n) = Some y
  /\ (isAbove = false -> (0 < n)%nat).
Proof.
  intros Hx Hy Hne n.
  pose proof (lookup_lt_Some _ _ _ Hx) as Hd.
  pose proof (lookup_lt_Some _ _ _ Hy) as Ht.
  destruct (newIndex_in_range isAbove sites d t Hd Ht Hne) as [_ Hr].
  assert (Hlen : length (delete d sites) = pred (length sites))
    by (rewrite length_delete by eauto; lia).
  assert (Htake : length (take n (delete d sites)) = n)
    by (rewrite length_take; lia).
  unfold move. rewrite Hx. split; [|split].
  - rewrite lookup_app_r by lia. by rewrite Htake, Nat.sub_diag.
  - subst n. unfold documented_index in *.
    destruct isAbove; case_bool_decide as Hlt.
    + rewrite lookup_app_r by lia. rewrite Htake.
      replace (S _ - _)%nat with 1%nat by lia. simpl.
      rewrite lookup_drop, Nat.add_0_r, list_lookup_delete_ge by lia.
      rewrite <- Hy. f_equal. lia.
    + rewrite lookup_app_r by lia. rewrite Htake.
      replace (S _ - _)%nat with 1%nat by lia. simpl.
      rewrite lookup_drop, Nat.add_0_r, list_lookup_delete_lt by lia.
      rewrite <- Hy. f_equal. lia.
    + rewrite lookup_app_l by lia. rewrite lookup_take_lt by lia.
      rewrite list_lookup_delete_ge by lia. rewrite <- Hy. f_equal. lia.
    + rewrite lookup_app_l by lia. rewrite lookup_take_lt by lia.
      rewrite list_lookup_delete_lt by lia. rewrite <- Hy. f_equal. lia.
  - intros ->. subst n. unfold documented_index in *. case_bool_decide; lia.
Qed.

(** C1. handleDrop computes the drop position by the splice-adjustment
    rule: dropping above a target asks for the target's index, dropping
    below for the index after it, one less when the dragged index is smaller
    than the target's, the whole clamped to [0, length - 1].  Between two
    different buttons of the bar the array becomes the one with the dragged
    site removed and put back at that index, which places it just before
    the target (above) or just after it (below).  For [a; b; c; e]
    dragging index 0 and dropping below index 2 gives [b; c; a; e]. *)
Theorem C1_handleDrop_splice_rule sites d t isAbove x y :
  sites !! d = Some x -> sites !! t = Some y -> d <> t ->
  let len := Z.of_nat (length sites) in
  let n := newIndex isAbove (Z.of_nat d) (Z.of_nat t) len in
  let sites' :=
    default sites
      (handleDrop (handleDragStart (Z.of_nat d)) (Some (Z.of_nat t)) isAbove sites) in
  n = Z.max 0 (Z.min
        ((if isAbove then Z.of_nat t else Z.of_nat t + 1)
         - (if bool_decide (Z.of_nat d < Z.of_nat t) then 1 else 0))
        (len - 1))
  /\ 0 <= n <= len - 1
  /\ sites' = move d (Z.to_nat n) sites
  /\ sites' !! Z.to_nat n = Some x
  /\ sites' !! (if isAbove then S (Z.to_nat n) else pred (Z.to_nat n)) = Some y
  /\ (forall a b c e : A,
        handleDrop (handleDragStart 0) (Some 2) false [a; b; c; e]
        = Some [b; c; a; e]).
Proof.
  intros Hx Hy Hne len n sites'.
  pose proof (lookup_lt_Some _ _ _ Hx) as Hd.
  pose proof (lookup_lt_Some _ _ _ Hy) as Ht.
  destruct (newIndex_in_range isAbove sites d t Hd Ht Hne) as [Hn Hr].
  fold len n in Hn, Hr.
  assert (Hs : sites' = move d (Z.to_nat n) sites).
  { subst sites'. rewrite Hn. by apply handleDrop_move. }
  destruct (move_adjacent sites d t isAbove x y Hx Hy Hne) as (Hmx & Hmy & _).
  rewrite <- Hn in Hmx, Hmy. rewrite <- Hs in Hmx, Hmy.
  split; [apply newIndex_documented|].
  split; [lia|]. repeat split; try done.
Qed.
End ReorderProperties.

Lemma C1_witness :
  default ["A"; "B"; "C"; "D"]
    (Reorder.handleDrop (Reorder.handleDragStart 0) (Some 2) false
       ["A"; "B"; "C"; "D"]%string)
  = ["B"; "C"; "A"; "D"]%string.
Proof.
  pose proof (C1_handleDrop_splice_rule ["A"; "B"; "C"; "D"]%string 0 2 false
                "A"%string "C"%string eq_refl eq_refl ltac:(lia)) as H.
  destruct H as (_ & _ & H & _). exact H.
Defined.

(** A drop permutes the registry. *)
Section ReorderPermutation.
Import Reorder ReorderSpec.
Context {A : Type}.

Lemma move_Permutation (l : list A) (from to : nat) : move from to l ≡ₚ l.
Proof.
  unfold move. destruct (l !! from) as [x|] eqn:Hx; [|done].
  rewrite <- Permutation_middle, take_drop. symmetry.
  by apply delete_Permutation.
Qed.

Lemma handleDrop_Some drag target isAbove (sites sites' : list A) :
  handleDrop drag target isAbove sites = Some sites' ->
  exists from to : nat, sites' = move from to sites.
Proof.
  unfold handleDrop. destruct target as [t|]; [|done].
  destruct (draggedItem drag) as [b|]; [|done].
  case_bool_decide; [done|].
  set (n := newIndex isAbove (draggedIndex drag) t (Z.of_nat (length sites))).
  destruct (negb (draggedIndex drag =? n) && (0 <=? draggedIndex drag)
            && (draggedIndex drag <? Z.of_nat (length sites))) eqn:G; [|done].
  apply andb_prop in G as [G Hlt]. apply andb_prop in G as [_ Hge].
  apply Z.leb_le in Hge. apply Z.ltb_lt in Hlt.
  assert (Hn : 0 <= n <= Z.of_nat (length sites) - 1)
    by (subst n; unfold newIndex; lia).
  destruct (lookup_lt_is_Some_2 sites (Z.to_nat (draggedIndex drag))) as [x Hx];
    [lia|].
  rewrite <- (Z2Nat.id (draggedIndex drag)) at 1 by lia.
  rewrite (splice_remove_one _ _ _ Hx).
  rewrite <- (Z2Nat.id n) by lia.
  rewrite splice_insert_one by (rewrite length_delete by eauto; lia).
  intros [= <-]. exists (Z.to_nat (draggedIndex drag)), (Z.to_nat n).
  unfold move. by rewrite Hx.
Qed.
End ReorderPermutation.

(** ** The registry: import, export, add, edit, delete *)

Section RegistryProperties.
Import Registry RegistrySpec.
Variable host : nat -> Z * string.
Implicit Types (st : State) (c : json) (s : Site).

Lemma hasRequiredFields_valid c : hasRequiredFields c = true <-> valid_entry c.
Proof.
  unfold hasRequiredFields, valid_entry. split.
  - intros H. apply andb_prop in H as [H Hu]. apply andb_prop in H as [_ Hn].
    destruct (prop c "name") as [[]|]; try discriminate.
    destruct (prop c "url") as [[]|]; try discriminate. eauto.
  - intros (n & u & Hn & Hu). rewrite Hn, Hu.
    destruct c; try discriminate. reflexivity.
Qed.

Lemma generateId_sites st : sites (generateId host st).2 = sites st.
Proof. unfold generateId. by destruct (host (idCalls st)). Qed.

Lemma generateId_nonempty st : (generateId host st).1 <> "".
Proof. unfold generateId. by destruct (host (idCalls st)). Qed.

Lemma toSite_sites c st : sites (toSite host c st).2 = sites st.
Proof.
  unfold toSite. pose proof (generateId_sites st) as H.
  destruct (prop c "id") as [v|]; [destruct (truthy v)|];
    try destruct (generateId host st); done.
Qed.

Lemma toSites_sites l st : sites (toSites host l st).2 = sites st.
Proof.
  revert st. induction l as [|c l IH]; intros st; [done|]. simpl.
  pose proof (toSite_sites c st) as H. destruct (toSite host c st) as [s st1].
  specialize (IH st1). destruct (toSites host l st1). simpl in *. congruence.
Qed.

Lemma toSites_length l st : length (toSites host l st).1 = length l.
Proof.
  revert st. induction l as [|c l IH]; intros st; [done|]. simpl.
  destruct (toSite host c st) as [s st1].
  specialize (IH st1). destruct (toSites host l st1). simpl in *. congruence.
Qed.

Lemma toSites_nil l st : (toSites host l st).1 = [] -> l = [] /\ (toSites host l st).2 = st.
Proof.
  intros H. pose proof (toSites_length l st) as E. rewrite H in E.
  destruct l; [done|discriminate].
Qed.

Lemma truthy_JStr g : g <> "" -> truthy (JStr g) = true.
Proof. intros H. simpl. by destruct g. Qed.

Lemma toSite_of_entry c st :
  valid_entry c -> site_of_entry c (toSite host c st).1.
Proof.
  intros (n & u & Hn & Hu). unfold toSite, site_of_entry.
  pose proof (generateId_nonempty st) as Hg.
  assert (Hc : truthy (or_else (prop c "color") (JStr "#4a9eff")) = true
               /\ forall v, prop c "color" = Some v -> truthy v = true ->
                   or_else (prop c "color") (JStr "#4a9eff") = v).
  { unfold or_else. destruct (prop c "color") as [v|]; [destruct (truthy v) eqn:E|];
      (split; [done|]); intros ? [= <-] ?; congruence. }
  destruct Hc as [Hc1 Hc2].
  destruct (prop c "id") as [v|]; [destruct (truthy v) eqn:E|];
    try destruct (generateId host st) as [g st1]; simpl in *;
    rewrite ?Hn, ?Hu; simpl; repeat split; auto using truthy_JStr;
    try (intros ? [= <-] ?; congruence); try discriminate.
  all: by apply (truthy_JStr g).
Qed.

Lemma toSites_of_entries l st :
  Forall valid_entry l -> Forall2 site_of_entry l (toSites host l st).1.
Proof.
  revert st. induction l as [|c l IH]; intros st Hl; [constructor|].
  apply Forall_cons in Hl as [Hc Hl]. simpl.
  pose proof (toSite_of_entry c st Hc) as H.
  destruct (toSite host c st) as [s st1].
  specialize (IH st1 Hl). destruct (toSites host l st1). by constructor.
Qed.

Lemma filter_none {B} (P : B -> Prop) `{!forall x, Decision (P x)} (l : list B) :
  (forall x, x ∈ l -> ~ P x) -> filter P l = [].
Proof.
  induction l as [|x l IH]; intros Hall; [done|].
  rewrite filter_cons_False by (apply Hall, list_elem_of_here).
  apply IH. intros y Hy. by apply Hall, list_elem_of_further.
Qed.

Lemma saveSites_sites st : sites (saveSites st) = sites st.
Proof. unfold saveSites. by destruct (storageWorks st). Qed.

Lemma not_elem_of_existingUrls (l : list Site) (u : string) :
  u ∉ (list_to_set (url <$> l) : gset string) <-> u ∉ url <$> l.
Proof. by rewrite elem_of_list_to_set. Qed.

Lemma handleFileImport_sites candidates replace st :
  let validSites := (toSites host (filter hasRequiredFields candidates) st).1 in
  let r := handleFileImport host (Some (JArr candidates)) replace st in
  (validSites = [] -> r = (st, NoValidSites))
  /\ (validSites <> [] -> r.2 = Imported /\
      sites r.1 =
        if replace then validSites
        else sites st ++ filter (fun s => url s ∉ url <$> sites st) validSites).
Proof.
  intros validSites r. subst validSites r. unfold handleFileImport.
  pose proof (toSites_sites (filter hasRequiredFields candidates) st) as Hs.
  pose proof (toSites_nil (filter hasRequiredFields candidates) st) as Hnil.
  destruct (toSites host _ st) as [[|s l] st1]; cbn [fst snd] in *.
  - split; [|done]. intros _. destruct (Hnil eq_refl) as [_ ->]. done.
  - split; [done|]. intros _. destruct replace; cbn [fst snd];
      rewrite saveSites_sites; cbn [sites set_sites]; [done|].
    split; [done|]. rewrite Hs. f_equal. apply list_filter_iff. intros x.
    apply not_elem_of_existingUrls.
Qed.

(** Where the sites of the registry come from after an import. *)
Lemma handleFileImport_provenance candidates replace st :
  Forall (fun s => s ∈ sites st
                   \/ exists c, c ∈ candidates /\ site_of_entry c s)
    (sites (handleFileImport host (Some (JArr candidates)) replace st).1).
Proof.
  destruct (handleFileImport_sites candidates replace st) as [Hnil Hcons].
  assert (Hvalid : Forall (fun s => exists c, c ∈ candidates /\ site_of_entry c s)
            (toSites host (filter hasRequiredFields candidates) st).1).
  { apply Forall_forall. intros s Hs.
    apply list_elem_of_lookup in Hs as [i Hi].
    assert (HF : Forall2 site_of_entry (filter hasRequiredFields candidates)
              (toSites host (filter hasRequiredFields candidates) st).1).
    { apply toSites_of_entries, Forall_forall. intros c Hc.
      apply list_elem_of_filter in Hc as [Hc _].
      apply hasRequiredFields_valid. by apply Is_true_true. }
    destruct (Forall2_lookup_r _ _ _ _ _ HF Hi) as (c & Hc & Hcs).
    exists c. split; [|done].
    apply list_elem_of_lookup_2 in Hc. by apply list_elem_of_filter in Hc as [_ Hc]. }
  destruct (toSites host (filter hasRequiredFields candidates) st).1 as [|s0 l0] eqn:E.
  - rewrite (Hnil eq_refl). cbn [fst]. apply Forall_forall. auto.
  - destruct (Hcons ltac:(done)) as [_ ->]. destruct replace.
    + eapply Forall_impl; [exact Hvalid|]. auto.
    + apply Forall_app. split; [apply Forall_forall; auto|].
      apply Forall_forall. intros s Hs. right.
      apply list_elem_of_filter in Hs as [_ Hs].
      by apply (proj1 (Forall_forall _ _) Hvalid).
Qed.

(** C3. Import by mode.  The valid set is made of the entries of the file
    that have a string name and a string url, in the file's order, each
    with its name and url; the other entries are dropped.  With an empty
    valid set the state is returned as it was.  Otherwise, in replace mode
    the registry becomes the valid set, and in merge mode the valid sites
    whose url is not the url of a site of the current registry are
    appended, in order, after the current sites, the others are dropped. *)
Theorem C3_import_modes candidates replace st :
  let validSites := (toSites host (filter hasRequiredFields candidates) st).1 in
  let r := handleFileImport host (Some (JArr candidates)) replace st in
  (forall c, hasRequiredFields c = true <-> valid_entry c)
  /\ Forall2 site_of_entry (filter hasRequiredFields candidates) validSites
  /\ (validSites = [] -> r = (st, NoValidSites))
  /\ (validSites <> [] -> replace = true -> sites r.1 = validSites)
  /\ (validSites <> [] -> replace = false ->
      sites r.1
      = sites st ++ filter (fun s => url s ∉ url <$> sites st) validSites).
Proof.
  intros validSites r.
  destruct (handleFileImport_sites candidates replace st) as [Hnil Hcons].
  fold validSites r in Hnil, Hcons.
  split; [apply hasRequiredFields_valid|].
  split.
  { apply toSites_of_entries, Forall_forall. intros c Hc.
    apply list_elem_of_filter in Hc as [Hc _].
    apply hasRequiredFields_valid. by apply Is_true_true. }
  split; [done|].
  split; intros Hne ->; by destruct (Hcons Hne).
Qed.

(** C10. In merge mode the urls of the imported sites are compared with
    the urls of the registry as it was before the import only: when [u] is
    not the url of a current site, every valid imported site with url [u]
    is appended, so that two of them leave the registry with a url that
    occurs twice. *)
Theorem C10_merge_keeps_duplicate_urls candidates st (u : string) :
  let validSites := (toSites host (filter hasRequiredFields candidates) st).1 in
  let st' := (handleFileImport host (Some (JArr candidates)) false st).1 in
  u ∉ url <$> sites st ->
  (2 <= length (filter (fun s => url s = u) validSites))%nat ->
  filter (fun s => url s = u) (sites st') = filter (fun s => url s = u) validSites
  /\ ~ NoDup (url <$> sites st').
Proof.
  intros validSites st' Hu Htwo.
  destruct (handleFileImport_sites candidates false st) as [_ Hcons].
  fold validSites st' in Hcons.
  assert (Hne : validSites <> []) by (intros E; rewrite E in Htwo; simpl in Htwo; lia).
  destruct (Hcons Hne) as [_ Hs].
  assert (Hf : filter (fun s => url s = u) (sites st')
               = filter (fun s => url s = u) validSites).
  { rewrite Hs, filter_app.
    replace (filter (fun s => url s = u) (sites st)) with (@nil Site).
    - simpl. rewrite list_filter_filter. apply list_filter_iff.
      intros s. split; [tauto|]. intros E. split; [done|]. by rewrite E.
    - symmetry. apply filter_none. intros s Hin E.
      apply Hu. rewrite <- E. by apply list_elem_of_fmap_2. }
  split; [done|]. intros Hnd.
  assert (Hnd' : NoDup (url <$> filter (fun s => url s = u) (sites st'))).
  { eapply sublist_NoDup; [exact Hnd|apply fmap_sublist, sublist_filter]. }

  rewrite Hf in Hnd'.
  destruct (filter (fun s => url s = u) validSites) as [|s1 [|s2 l]] eqn:E;
    simpl in Htwo; try lia.
  assert (H1 : s1 ∈ filter (fun s => url s = u) validSites)
    by (rewrite E; apply list_elem_of_here).
  assert (H2 : s2 ∈ filter (fun s => url s = u) validSites)
    by (rewrite E; apply list_elem_of_further, list_elem_of_here).
  apply list_elem_of_filter in H1 as [H1 _]. apply list_elem_of_filter in H2 as [H2 _].
  simpl in Hnd'. apply NoDup_cons in Hnd' as [Hnot _]. apply Hnot.
  rewrite H1, <- H2. apply list_elem_of_here.
Qed.
End RegistryProperties.

Lemma C3_witness :
  Registry.name <$> Registry.sites
    (Registry.handleFileImport host0 (Some (JArr file_x)) true installed).1
  = ["X"]%string.
Proof.
  destruct (C3_import_modes host0 file_x true installed) as (_ & _ & _ & H & _).
  rewrite H; [by vm_compute|by vm_compute|done].
Defined.

Lemma C10_witness :
  length (filter (fun s => Registry.url s = "https://x.test"%string)
    (Registry.sites
       (Registry.handleFileImport host0 (Some (JArr file_twice)) false installed).1))
  = 2%nat.
Proof.
  destruct (C10_merge_keeps_duplicate_urls host0 file_twice installed
              "https://x.test"%string) as [H _].
  - eapply bool_decide_unpack. by vm_compute.
  - vm_compute. lia.
  - rewrite H. by vm_compute.
Defined.

Section RoundTrip.
Import Registry RegistrySpec RegistryMore.
Variable host : nat -> Z * string.
Implicit Types (st : State) (s : Site).

Lemma prop_site_to_json s :
  prop (site_to_json s) "id" = Some (id s)
  /\ prop (site_to_json s) "name" = Some (JStr (name s))
  /\ prop (site_to_json s) "url" = Some (JStr (url s))
  /\ prop (site_to_json s) "color" = Some (color s).
Proof.
  unfold site_to_json, prop, parse_object. simpl.
  repeat split; repeat (rewrite lookup_insert_ne by done);
    by rewrite lookup_insert_eq.
Qed.

Lemma hasRequiredFields_site_to_json s : hasRequiredFields (site_to_json s) = true.
Proof.
  apply hasRequiredFields_valid. destruct (prop_site_to_json s) as (_ & Hn & Hu & _).
  by exists (name s), (url s).
Qed.

Lemma toSite_site_to_json s st :
  keeps_id_and_color s -> toSite host (site_to_json s) st = (s, st).
Proof.
  intros [Hi Hc]. destruct (prop_site_to_json s) as (Ei & En & Eu & Ec).
  unfold toSite, or_else. rewrite Ei, En, Eu, Ec, Hi, Hc. by destruct s.
Qed.

Lemma toSites_site_to_json (l : list Site) st :
  Forall keeps_id_and_color l -> toSites host (site_to_json <$> l) st = (l, st).
Proof.
  induction 1 as [|s l Hs _ IH]; [done|].
  rewrite fmap_cons. cbn [toSites].
  by rewrite (toSite_site_to_json s st Hs), IH.
Qed.

Lemma stringified_finite (v : json) : finite v = true -> stringified v = v.
Proof.
  induction v as [| | | | |items IH|members IH] using json_nested_ind;
    try done; cbn [finite stringified]; intros Hf.
  - f_equal. induction IH as [|x items Hx _ IHitems]; [done|].
    cbn [forallb] in Hf. apply andb_prop in Hf as [Hf1 Hf2].
    rewrite fmap_cons. by rewrite (Hx Hf1), (IHitems Hf2).
  - f_equal. induction IH as [|[k x] members Hx _ IHm]; [done|].
    cbn [forallb snd] in Hf. apply andb_prop in Hf as [Hf1 Hf2].
    rewrite fmap_cons. cbn [fst snd] in *. by rewrite (Hx Hf1), (IHm Hf2).
Qed.

(** The file of a registry without Infinity in an id or a color holds the
    sites as they are. *)
Lemma exportSites_finite st :
  Forall finite_fields (sites st) ->
  exportSites st = JArr (site_to_json <$> sites st).
Proof.
  intros Hf. unfold exportSites. cbn [stringified]. f_equal.
  induction Hf as [|s l [Hi Hc] _ IH]; [done|].
  rewrite !fmap_cons, IH. f_equal.
  unfold site_to_json. cbn [stringified fmap list_fmap fst snd].
  by rewrite (stringified_finite _ Hi), (stringified_finite _ Hc).
Qed.

Lemma filter_site_to_json (l : list Site) :
  filter hasRequiredFields (site_to_json <$> l) = site_to_json <$> l.
Proof.
  induction l as [|s l IH]; [done|]. rewrite fmap_cons.
  rewrite filter_cons_True by (rewrite hasRequiredFields_site_to_json; done).
  by rewrite IH.
Qed.

Lemma generateId_storage st :
  storage (generateId host st).2 = storage st
  /\ storageWorks (generateId host st).2 = storageWorks st
  /\ idCalls (generateId host st).2 = S (idCalls st).
Proof. unfold generateId. by destruct (host (idCalls st)). Qed.

Lemma toSite_storage c st :
  storage (toSite host c st).2 = storage st
  /\ storageWorks (toSite host c st).2 = storageWorks st.
Proof.
  unfold toSite. destruct (generateId_storage st) as (H1 & H2 & _).
  destruct (prop c "id") as [v|]; [destruct (truthy v)|];
    try destruct (generateId host st); done.
Qed.

Lemma toSites_storage l st :
  storage (toSites host l st).2 = storage st
  /\ storageWorks (toSites host l st).2 = storageWorks st.
Proof.
  revert st. induction l as [|c l IH]; intros st; [done|]. cbn [toSites].
  destruct (toSite_storage c st) as [H1 H2].
  destruct (toSite host c st) as [s st1].
  destruct (IH st1) as [H3 H4]. destruct (toSites host l st1).
  cbn [snd] in *. split; congruence.
Qed.

(** saveSites stores the registry or leaves the storage alone. *)
Lemma saveSites_storage st :
  storage (saveSites st) = Some (sites (saveSites st))
  \/ storage (saveSites st) = storage st.
Proof. unfold saveSites. destruct (storageWorks st); [by left|by right]. Qed.

(** So does every handler. *)
Lemma handlers_storage st :
  (forall form,
     storage (saveSite host form st) = Some (sites (saveSite host form st))
     \/ storage (saveSite host form st) = storage st)
  /\ (forall target,
        storage (deleteSite target st) = Some (sites (deleteSite target st))
        \/ storage (deleteSite target st) = storage st)
  /\ (forall drag target isAbove,
        storage (dropSite drag target isAbove st)
        = Some (sites (dropSite drag target isAbove st))
        \/ storage (dropSite drag target isAbove st) = storage st)
  /\ (forall file replace,
        storage (handleFileImport host file replace st).1
        = Some (sites (handleFileImport host file replace st).1)
        \/ storage (handleFileImport host file replace st).1 = storage st).
Proof.
  assert (Hsave : forall st0 l,
    storage st0 = storage st ->
    storage (saveSites (set_sites st0 l))
    = Some (sites (saveSites (set_sites st0 l)))
    \/ storage (saveSites (set_sites st0 l)) = storage st).
  { intros st0 l E. destruct (saveSites_storage (set_sites st0 l)) as [H|H];
      [by left|right]. by rewrite H. }
  split; [|split; [|split]].
  - intros form. unfold saveSite. destruct (_ || _); [by right|].
    destruct (truthy _).
    + destruct (list_find _ _) as [[i old]|]; [by apply Hsave|].
      apply saveSites_storage.
    + destruct (generateId_storage st) as (H1 & _ & _).
      destruct (generateId host st) as [g st1]. cbn [snd] in H1.
      by apply Hsave.
  - intros target. by apply Hsave.
  - intros drag target isAbove. unfold dropSite.
    destruct (Reorder.handleDrop _ _ _ _); [by apply Hsave|by right].
  - intros file replace. unfold handleFileImport.
    destruct file as [[| | | | |candidates|]|]; try by right.
    destruct (toSites_storage (filter hasRequiredFields candidates) st) as [H1 _].
    destruct (toSites host _ st) as [[|s l] st1]; cbn [fst snd] in *;
      [by right|].
    destruct replace; by apply Hsave.
Qed.

(** The round trip on a registry whose sites have truthy, finite ids and
    colors. *)
Lemma roundtrip_of_kept_sites st :
  Forall keeps_id_and_color (sites st) ->
  Forall finite_fields (sites st) ->
  forall cur,
    handleFileImport host (Some (exportSites st)) true cur
    = match sites st with
      | [] => (cur, NoValidSites)
      | _ :: _ => (saveSites (set_sites cur (sites st)), Imported)
      end.
Proof.
  intros Hwf Hfin cur. unfold handleFileImport.
  rewrite (exportSites_finite _ Hfin).
  rewrite filter_site_to_json, (toSites_site_to_json _ cur Hwf).
  by destruct (sites st).
Qed.

(** The sites that the script itself makes all have a truthy id and a
    truthy color, as long as the colour picker hands over a colour. *)
Lemma keeps_id_and_color_invariant st :
  Forall keeps_id_and_color DEFAULT_SITES
  /\ (Forall keeps_id_and_color (sites st) ->
      (forall form, truthy (selectedColor form) = true ->
         Forall keeps_id_and_color (sites (saveSite host form st)))
      /\ (forall target, Forall keeps_id_and_color (sites (deleteSite target st)))
      /\ (forall drag target isAbove,
           Forall keeps_id_and_color (sites (dropSite drag target isAbove st)))
      /\ (forall candidates replace,
           Forall keeps_id_and_color
             (sites (handleFileImport host (Some (JArr candidates)) replace st).1))).
Proof.
  split; [by repeat constructor|]. intros Hwf. split; [|split; [|split]].
  - intros form Hcolor. unfold saveSite.
    destruct (_ || _); [done|].
    destruct (truthy (editingSiteId form)).
    + destruct (list_find _ (sites st)) as [[i old]|] eqn:Ef;
        rewrite saveSites_sites; [|done]. cbn [sites set_sites].
      apply list_find_Some in Ef as (Hi & _ & _).
      apply Forall_insert; [done|]. split; [|done]. cbn [id].
      by apply (Forall_lookup_1 _ _ _ _ Hwf Hi).
    + pose proof (generateId_nonempty host st) as Hg.
      pose proof (generateId_sites host st) as Hs.
      destruct (generateId host st) as [g st1]. cbn [fst snd] in Hg, Hs.
      rewrite saveSites_sites. cbn [sites set_sites]. rewrite Hs.
      apply Forall_app. split; [done|]. apply Forall_singleton.
      split; [|done]. by apply truthy_JStr.
  - intros target. unfold deleteSite. rewrite saveSites_sites.
    cbn [sites set_sites]. apply Forall_forall. intros s Hs.
    apply list_elem_of_filter in Hs as [_ Hs].
    by apply (proj1 (Forall_forall _ _) Hwf).
  - intros drag target isAbove. unfold dropSite.
    destruct (Reorder.handleDrop _ _ _ _) as [l'|] eqn:E; [|done].
    rewrite saveSites_sites. cbn [sites set_sites].
    apply handleDrop_Some in E as (from & to & ->).
    by rewrite move_Permutation.
  - intros candidates replace.
    eapply Forall_impl; [apply handleFileImport_provenance|].
    intros s [Hs|(c & _ & _ & _ & Hi & Hc & _)].
    + by apply (proj1 (Forall_forall _ _) Hwf).
    + by split.
Qed.

(** Every site of a state the script can be in has a truthy id and a
    truthy color, and so has every stored site. *)
Lemma reachable_keeps st :
  reachable host st ->
  Forall keeps_id_and_color (sites st)
  /\ (forall l, storage st = Some l -> Forall keeps_id_and_color l).
Proof.
  assert (Hdef : Forall keeps_id_and_color DEFAULT_SITES)
    by (by repeat constructor).
  assert (Hinit : forall st0,
    (forall l, storage st0 = Some l -> Forall keeps_id_and_color l) ->
    Forall keeps_id_and_color (sites (Dialog.init st0))
    /\ (forall l, storage (Dialog.init st0) = Some l ->
          Forall keeps_id_and_color l)).
  { intros st0 Hst. unfold Dialog.init, loadSites.
    cbn [storage storageWorks set_sites].
    destruct (storageWorks st0) eqn:Ew; [|by split].
    destruct (storage st0) as [[|s l]|] eqn:Es.
    - unfold saveSites, set_sites. cbn [storageWorks]. rewrite Ew.
      cbn [sites storage]. split; [done|]. by intros ? [= <-].
    - unfold set_sites. cbn [sites storage]. split; [by apply Hst|].
      intros l0. rewrite Es. apply Hst.
    - unfold saveSites, set_sites. cbn [storageWorks]. rewrite Ew.
      cbn [sites storage]. split; [done|]. by intros ? [= <-]. }
  assert (Hstore : forall st0 st1,
    Forall keeps_id_and_color (sites st1) ->
    (forall l, storage st0 = Some l -> Forall keeps_id_and_color l) ->
    storage st1 = Some (sites st1) \/ storage st1 = storage st0 ->
    forall l, storage st1 = Some l -> Forall keeps_id_and_color l).
  { intros st0 st1 Hs Hst [E|E] l; rewrite E; [by intros [= <-]|apply Hst]. }
  induction 1 as [works calls|form st Hr [IH1 IH2] Hcolor
                  |target st Hr [IH1 IH2] Hin
                  |drag target isAbove st Hr [IH1 IH2]
                  |file replace st Hr [IH1 IH2]|st Hr [IH1 IH2]
                  |works st Hr [IH1 IH2]].
  - apply Hinit. cbn. done.
  - destruct (keeps_id_and_color_invariant st) as [_ H].
    destruct (H IH1) as (Hsave & _).
    split; [by apply Hsave|].
    apply (Hstore st); [by apply Hsave|done|apply handlers_storage].
  - destruct (keeps_id_and_color_invariant st) as [_ H].
    destruct (H IH1) as (_ & Hdel & _).
    split; [by apply Hdel|].
    apply (Hstore st); [by apply Hdel|done|apply handlers_storage].
  - destruct (keeps_id_and_color_invariant st) as [_ H].
    destruct (H IH1) as (_ & _ & Hdrop & _).
    split; [by apply Hdrop|].
    apply (Hstore st); [by apply Hdrop|done|apply handlers_storage].
  - assert (Hs : Forall keeps_id_and_color
                   (sites (handleFileImport host file replace st).1)).
    { destruct file as [[| | | | |candidates|]|]; try done.
      destruct (keeps_id_and_color_invariant st) as [_ H].
      destruct (H IH1) as (_ & _ & _ & Himp). apply Himp. }
    split; [done|].
    apply (Hstore st); [done|done|apply handlers_storage].
  - by apply Hinit.
  - by split.
Qed.

(** C8, as amended.  In every state the script can be in where no id and
    no color holds Infinity or -Infinity, importing the exported file in
    replace mode gives back the same sites in the same order, ids, names,
    urls and colors included, and generates no id.  The file of a registry
    with at least one site gives these sites whatever the registry it is
    imported into; the file of the empty registry has no valid site and
    leaves the importing registry as it is. *)
Theorem C8_export_import_roundtrip st :
  reachable host st ->
  Forall finite_fields (sites st) ->
  let r := handleFileImport host (Some (exportSites st)) true st in
  sites r.1 = sites st
  /\ idCalls r.1 = idCalls st
  /\ (forall cur, sites st <> [] ->
        sites (handleFileImport host (Some (exportSites st)) true cur).1 = sites st)
  /\ (forall cur, sites st = [] ->
        handleFileImport host (Some (exportSites st)) true cur = (cur, NoValidSites)).
Proof.
  intros Hreach Hfin r.
  destruct (reachable_keeps st Hreach) as [Hwf _].
  pose proof (roundtrip_of_kept_sites st Hwf Hfin) as Hgen.
  subst r. split; [|split; [|split]].
  - rewrite Hgen. destruct (sites st) eqn:E; [done|].
    cbn [fst]. by rewrite saveSites_sites.
  - rewrite Hgen. destruct (sites st) eqn:E; [done|].
    cbn [fst]. unfold saveSites. by destruct (storageWorks _).
  - intros cur Hne. rewrite Hgen. destruct (sites st) eqn:E; [done|].
    cbn [fst]. by rewrite saveSites_sites.
  - intros cur E. rewrite Hgen. by rewrite E.
Qed.
End RoundTrip.

(** The registry after the first start is one of these states. *)
Lemma installed_reachable : RegistryMore.reachable host0 installed.
Proof. apply (RegistryMore.reach_install host0 true 0). Qed.

Lemma C8_witness :
  Registry.sites
    (Registry.handleFileImport host0 (Some (Registry.exportSites installed))
       true installed).1
  = Registry.DEFAULT_SITES.
Proof.
  refine (proj1 (C8_export_import_roundtrip host0 installed _ _)).
  - apply installed_reachable.
  - by repeat constructor.
Defined.

(** C8, as stated, fails on the registry that the import of a file with
    the id 1e400 leaves: the id is Infinity, the exported file holds null
    in its place, and the import gives the site a generated id. *)
Lemma C8_counterexample :
  RegistryMore.reachable host0 overflowed
  /\ ~ RegistryMore.round_trip host0 overflowed
  /\ Registry.id <$> Registry.sites overflowed = [JInf false]
  /\ Registry.exportSites overflowed
     = JArr [JObj [("id", JNull); ("name", JStr "Big");
                   ("url", JStr "https://big.test");
                   ("color", JStr "#4a9eff")]]
  /\ Registry.id <$> Registry.sites
       (Registry.handleFileImport host0
          (Some (Registry.exportSites overflowed)) true overflowed).1
     = [JStr "site_1700000000000_k3j9x0a1b"].
Proof.
  split; [|split; [|by vm_compute]].
  - apply (RegistryMore.reach_import host0 (Some (JArr file_overflow)) true
             installed).
    apply installed_reachable.
  - unfold RegistryMore.round_trip. intros H.
    apply (f_equal (fmap Registry.id)) in H. by vm_compute in H.
Qed.


(** ** The invariant of section 3 *)

Section RegistryInvariant.
Import Registry RegistrySpec.
Variable host : nat -> Z * string.
Implicit Types (st : State) (s : Site).

Lemma addScheme_spec (u : string) :
  addScheme u = if has_scheme u then u else "https://" +:+ u.
Proof.
  unfold addScheme, has_scheme.
  by destruct (startsWith u "http://"), (startsWith u "https://").
Qed.

Lemma addScheme_has_scheme (u : string) : has_scheme (addScheme u) = true.
Proof.
  rewrite addScheme_spec. destruct (has_scheme u) eqn:E; [done|].
  unfold has_scheme, startsWith. simpl. by destruct (_ +:+ u).
Qed.

Lemma addScheme_nonempty (u : string) : u <> "" -> addScheme u <> "".
Proof.
  intros Hu. rewrite addScheme_spec. by destruct (has_scheme u).
Qed.

Lemma eqb_empty_false (x : string) : String.eqb x "" = false -> x <> "".
Proof. intros H ->. discriminate. Qed.

Lemma registry_invariant_Permutation (l l' : list Site) :
  l' ≡ₚ l -> registry_invariant l -> registry_invariant l'.
Proof.
  intros Hp [Hnd Hwf]. split.
  - by rewrite Hp.
  - by rewrite Hp.
Qed.

Lemma registry_invariant_filter (P : Site -> Prop) `{!forall s, Decision (P s)}
    (l : list Site) :
  registry_invariant l -> registry_invariant (filter P l).
Proof.
  intros [Hnd Hwf]. split.
  - eapply sublist_NoDup; [exact Hnd|apply fmap_sublist, sublist_filter].
  - apply Forall_forall. intros s Hs. apply list_elem_of_filter in Hs as [_ Hs].
    by apply (proj1 (Forall_forall _ _) Hwf).
Qed.

End RegistryInvariant.



(** ** The favicon cache *)

Section FaviconProperties.
Import Favicon FaviconSpec.
Variable respond : string -> Outcome.
Variable latency : string -> Z.
Variable readerFails : Blob -> bool.
Variable base64 : list Byte.byte -> string.
Variable hostname : string -> option string.
Variable reads : string -> Z -> Read.
Variable writes : string -> Z -> Write.

Local Abbreviation rejected := (rejected respond readerFails).
Local Abbreviation acceptable := (acceptable respond readerFails base64).
Local Abbreviation silent := (silent respond).
Local Abbreviation elapsed := (elapsed latency).
Local Abbreviation trySource :=
  (trySource respond latency readerFails base64 writes).
Local Abbreviation trySources :=
  (trySources respond latency readerFails base64 writes).
Local Abbreviation fetchAndCacheFavicon :=
  (fetchAndCacheFavicon respond latency readerFails base64 writes).
Local Abbreviation getCachedFavicon := (getCachedFavicon reads).
Local Abbreviation getFavicon :=
  (getFavicon respond latency readerFails base64 hostname reads writes).

Implicit Types (w : World) (url domain d : string) (urls : list string).

Local Abbreviation fetched := (fetched latency).
Local Abbreviation after_requests := (after_requests latency).
Local Abbreviation taken := (taken writes).
Local Abbreviation write_throws := (write_throws writes).

Ltac run_monad :=
  unfold trySource, Favicon.trySource, try_catch, mbind, M_bind, bind, fetch,
    blob, blobToDataUrl, throw, never, ret, mret, M_ret.

Lemma trySource_rejected domain url w :
  rejected url -> trySource domain url w = (Ok None, fetched url w).
Proof.
  intros [H|[[body H]|[H|(b & H & Hb)]]]; run_monad; rewrite H; try done.
  destruct Hb as [Hb|Hb].
  - cbn [negb]. by replace (blobSize b <? 100) with true by lia.
  - cbn [negb]. destruct (blobSize b <? 100); [done|]. by rewrite Hb.
Qed.

Lemma trySource_acceptable domain url d w :
  acceptable url d -> trySource domain url w = taken domain d (fetched url w).
Proof.
  intros (b & H & Hsize & Hread & ->). run_monad. rewrite H. cbn [negb].
  replace (blobSize b <? 100) with false by lia. rewrite Hread.
  unfold FaviconSpec.taken, stored, cacheFavicon, FaviconSpec.fetched.
  cbn [db clock]. destruct (db w); [|done].
  by destruct (writes domain (clock w + latency url)).
Qed.

Lemma trySource_silent domain url w :
  silent url -> trySource domain url w = (Pending, fetched url w).
Proof. intros [H|H]; run_monad; by rewrite H. Qed.

(** Every source is passed over, taken, or leaves the resolution
    waiting. *)
Lemma source_cases url :
  rejected url \/ (exists d, acceptable url d) \/ silent url.
Proof.
  unfold FaviconSpec.rejected, FaviconSpec.acceptable, FaviconSpec.silent.
  destruct (respond url) as [|[] [|b|]|] eqn:E; eauto 6.
  destruct (decide (blobSize b < 100)); [eauto 8|].
  destruct (readerFails b) eqn:Er; [eauto 8|].
  right. left. eexists. exists b. repeat split; [lia|done].
Qed.

Lemma acceptable_nonempty url d : acceptable url d -> d <> "".
Proof. intros (b & _ & _ & _ & ->). discriminate. Qed.

Lemma after_requests_world urls w :
  db (after_requests urls w) = db w
  /\ clock (after_requests urls w) = clock w + elapsed urls
  /\ log (after_requests urls w) = requests urls ++ log w.
Proof.
  revert w. induction urls as [|url urls IH]; intros w.
  - unfold FaviconSpec.elapsed. simpl. repeat split. lia.
  - unfold FaviconSpec.after_requests, FaviconSpec.requests, FaviconSpec.elapsed in *.
    cbn [foldl foldr]. destruct (IH (fetched url w)) as (Hd & Hc & Hl).
    rewrite Hd, Hc, Hl, fmap_cons, reverse_cons, <- app_assoc.
    cbn [db clock log FaviconSpec.fetched]. repeat split. lia.
Qed.

(** The world after the write of [d] under [domain]. *)
Lemma stored_world domain d w :
  clock (stored domain d w) = clock w
  /\ db (stored domain d w)
     = (fun store =>
          <[domain := {| Favicon.domain := domain; dataUrl := d;
                         timestamp := clock w |}]> store) <$> db w
  /\ log (stored domain d w)
     = match db w with
       | Some _ => [Put {| Favicon.domain := domain; dataUrl := d;
                           timestamp := clock w |}]
       | None => []
       end ++ log w.
Proof. unfold stored. destruct (db w) eqn:E; cbn; rewrite ?E; done. Qed.

(** The four ways the loop leaves a source that was read. *)
Lemma taken_cases domain d w :
  (taken domain d w = (Ok (Some d), w)
   /\ (db w = None \/ writes domain (clock w) = WriteFails))
  \/ (taken domain d w = (Ok (Some d), stored domain d w)
      /\ is_Some (db w) /\ writes domain (clock w) = WriteCompletes)
  \/ (taken domain d w = (Pending, w)
      /\ is_Some (db w) /\ writes domain (clock w) = WriteAborts)
  \/ (taken domain d w = (Ok None, w) /\ write_throws domain w).
Proof.
  unfold FaviconSpec.taken, FaviconSpec.write_throws.
  destruct (db w) as [store|]; [|by left; split; [|left]].
  destruct (writes domain (clock w)); eauto 10.
Qed.

Lemma trySources_rejected domain urls w :
  Forall rejected urls ->
  trySources domain urls w = (Ok None, after_requests urls w).
Proof.
  intros H. revert w. induction H as [|url urls Hr _ IH]; intros w; [done|].
  cbn [Favicon.trySources]. unfold mbind, M_bind, bind.
  by rewrite (trySource_rejected _ _ _ Hr), IH.
Qed.

(** The loop stops at a source that is taken, unless the write throws. *)
Lemma trySources_stop domain url rest d w :
  acceptable url d ->
  ~ write_throws domain (fetched url w) ->
  trySources domain (url :: rest) w = taken domain d (fetched url w).
Proof.
  intros Ha Hw. cbn [Favicon.trySources]. unfold mbind, M_bind, bind.
  rewrite (trySource_acceptable _ _ _ _ Ha).
  destruct (taken_cases domain d (fetched url w))
    as [[-> _]|[[-> _]|[[-> _]|[_ Ht]]]]; done.
Qed.

Lemma trySources_first_acceptable domain pre url post d w :
  Forall rejected pre -> acceptable url d ->
  ~ write_throws domain (after_requests (pre ++ [url]) w) ->
  trySources domain (pre ++ url :: post) w
  = taken domain d (after_requests (pre ++ [url]) w).
Proof.
  intros H Ha. revert w. induction H as [|u pre Hr _ IH]; intros w Hw.
  - by apply trySources_stop.
  - cbn [app Favicon.trySources]. unfold mbind, M_bind, bind.
    rewrite (trySource_rejected _ _ _ Hr). by apply IH.
Qed.

(** How a fetch chain ends: every source was passed over, the loop was
    left at the last of the sources that were requested, or that source
    left it waiting. *)
Lemma trySources_outcome domain urls w :
  exists pre,
    pre `prefix_of` urls
    /\ (urls <> [] -> pre <> [])
    /\ ((pre = urls
         /\ trySources domain urls w = (Ok None, after_requests urls w))
        \/ (exists d,
              d <> ""
              /\ ~ write_throws domain (after_requests pre w)
              /\ trySources domain urls w
                 = taken domain d (after_requests pre w))
        \/ ((exists url, url ∈ pre /\ silent url)
            /\ trySources domain urls w = (Pending, after_requests pre w))).
Proof.
  revert w. induction urls as [|url urls IH]; intros w.
  - exists []. split; [done|]. split; [done|]. by left.
  - assert (Hskip :
      trySource domain url w = (Ok None, fetched url w) ->
      exists pre,
        pre `prefix_of` url :: urls
        /\ (url :: urls <> [] -> pre <> [])
        /\ ((pre = url :: urls
             /\ trySources domain (url :: urls) w
                = (Ok None, after_requests (url :: urls) w))
            \/ (exists d,
                  d <> ""
                  /\ ~ write_throws domain (after_requests pre w)
                  /\ trySources domain (url :: urls) w
                     = taken domain d (after_requests pre w))
            \/ ((exists url0, url0 ∈ pre /\ silent url0)
                /\ trySources domain (url :: urls) w
                   = (Pending, after_requests pre w)))).
    { intros Hrun. destruct (IH (fetched url w)) as (pre & Hpre & _ & Hend).
      exists (url :: pre). split; [by apply prefix_cons|]. split; [done|].
      cbn [Favicon.trySources]. unfold mbind, M_bind, bind. rewrite Hrun.
      destruct Hend as [[-> Hend]|[(d & Hd & Hw & Hend)|[(u & Hu & Hs) Hend]]];
        [by left|right; left; by exists d|right; right].
      split; [|done]. exists u. split; [by apply list_elem_of_further|done]. }
    destruct (source_cases url) as [Hr|[[d Ha]|Hs]].
    + apply Hskip. by apply trySource_rejected.
    + destruct (taken_cases domain d (fetched url w))
        as [[E Hc]|[[E Hc]|[[E Hc]|[E Ht]]]].
      4: { apply Hskip. by rewrite (trySource_acceptable _ _ _ _ Ha). }
      all: assert (Hw : ~ write_throws domain (fetched url w))
             by (intros [[store Hopen] Ht];
                 destruct Hc as [Hc|Hc] || destruct Hc as [_ Hc]; congruence).
      all: exists [url]; split; [apply prefix_cons, prefix_nil|];
           split; [done|]; right; left; exists d;
           split; [by apply (acceptable_nonempty url)|]; split; [done|];
           by apply trySources_stop.
    + exists [url]. split; [apply prefix_cons, prefix_nil|]. split; [done|].
      right; right. split; [exists url; split; [apply list_elem_of_here|done]|].
      cbn [Favicon.trySources]. unfold mbind, M_bind, bind.
      by rewrite (trySource_silent _ _ _ Hs).
Qed.

(** What a fetch chain does to the world: it requests the first sources,
    in their order, and then puts one record at most, which holds what it
    returns. *)
Lemma trySources_world domain urls w :
  exists pre puts,
    pre `prefix_of` urls
    /\ (urls <> [] -> pre <> [])
    /\ log (trySources domain urls w).2 = puts ++ requests pre ++ log w
    /\ clock (trySources domain urls w).2 = clock w + elapsed pre
    /\ ((puts = [] /\ db (trySources domain urls w).2 = db w)
        \/ (exists d store,
              let e := {| Favicon.domain := domain; dataUrl := d;
                          timestamp := clock (trySources domain urls w).2 |} in
              d <> ""
              /\ db w = Some store
              /\ writes domain (clock (trySources domain urls w).2)
                 = WriteCompletes
              /\ (trySources domain urls w).1 = Ok (Some d)
              /\ puts = [Put e]
              /\ db (trySources domain urls w).2 = Some (<[domain := e]> store))).
Proof.
  destruct (trySources_outcome domain urls w)
    as (pre & Hpre & Hne & [[-> ->]|[(d & Hd & Hw & ->)|[_ ->]]]).
  - destruct (after_requests_world urls w) as (Hdb & Hc & Hl).
    exists urls, []. cbn [snd]. do 2 (split; [done|]).
    split; [done|]. split; [done|]. by left.
  - destruct (after_requests_world pre w) as (Hdb & Hc & Hl).
    exists pre.
    destruct (taken_cases domain d (after_requests pre w))
      as [[-> _]|[[-> [[store Hs] Hok]]|[[-> _]|[_ Ht]]]]; [| | |done];
      cbn [fst snd].
    + exists []. do 2 (split; [done|]). split; [done|]. split; [done|]. by left.
    + destruct (stored_world domain d (after_requests pre w))
        as (Hclock & Hstore & Hlog).
      rewrite Hs in Hlog. rewrite Hs in Hstore. cbn in Hstore.
      eexists [_]. do 2 (split; [done|]).
      split; [by rewrite Hlog, Hl|]. split; [by rewrite Hclock|].
      right. exists d, store. rewrite Hclock.
      rewrite Hdb in Hs. do 5 (split; [done|]). done.
    + exists []. do 2 (split; [done|]). split; [done|]. split; [done|]. by left.
  - destruct (after_requests_world pre w) as (Hdb & Hc & Hl).
    exists pre, []. cbn [snd]. do 2 (split; [done|]).
    split; [done|]. split; [done|]. by left.
Qed.

(** fetchAndCacheFavicon does not reject: every exception is caught
    inside the loop. *)
Lemma trySources_not_thrown domain urls w :
  (trySources domain urls w).1 <> Thrown.
Proof.
  destruct (trySources_outcome domain urls w)
    as (pre & _ & _ & [[_ ->]|[(d & _ & _ & ->)|[_ ->]]]); [done| |done].
  by destruct (taken_cases domain d (after_requests pre w))
    as [[-> _]|[[-> _]|[[-> _]|[-> _]]]].
Qed.

(** The lookup changes nothing, and resolves unless the transaction
    cannot be started. *)
Lemma getCachedFavicon_pure domain w :
  (exists c, getCachedFavicon domain w = (Ok c, w))
  \/ (getCachedFavicon domain w = (Thrown, w)
      /\ is_Some (db w) /\ reads domain (clock w) = ReadThrows).
Proof.
  unfold Favicon.getCachedFavicon. destruct (db w) as [store|]; [|eauto].
  destruct (reads domain (clock w)); [right; eauto|eauto|].
  destruct (store !! domain) as [e|]; [|eauto].
  destruct (_ <? _); eauto.
Qed.

(** getFavicon once the host name is known: the cached value when it is
    truthy, the fetch chain otherwise; [null] when the lookup rejects. *)
Lemma getFavicon_domain siteUrl domain w c :
  hostname siteUrl = Some domain ->
  getCachedFavicon domain w = (Ok c, w) ->
  getFavicon siteUrl w
  = if is_truthy c then (Ok c, w) else fetchAndCacheFavicon domain w.
Proof.
  intros Hh Hc. unfold Favicon.getFavicon, try_catch. rewrite Hh.
  unfold mbind, M_bind, bind. rewrite Hc.
  destruct (is_truthy c); [done|].
  unfold Favicon.fetchAndCacheFavicon.
  pose proof (trySources_not_thrown domain (sources domain) w) as Hn.
  by destruct (trySources domain (sources domain) w) as [[r| |] w'].
Qed.

Lemma getFavicon_lookup_throws siteUrl domain w :
  hostname siteUrl = Some domain ->
  getCachedFavicon domain w = (Thrown, w) ->
  getFavicon siteUrl w = (Ok None, w).
Proof.
  intros Hh Hc. unfold Favicon.getFavicon, try_catch. rewrite Hh.
  unfold mbind, M_bind, bind. by rewrite Hc.
Qed.

Lemma getFavicon_no_hostname siteUrl w :
  hostname siteUrl = None -> getFavicon siteUrl w = (Ok None, w).
Proof. intros Hh. unfold Favicon.getFavicon, try_catch. by rewrite Hh. Qed.

(** No resolution puts more than one record. *)
Lemma fetchAndCacheFavicon_one_put domain w :
  exists new,
    log (fetchAndCacheFavicon domain w).2 = new ++ log w
    /\ (length (filter is_put new) <= 1)%nat.
Proof.
  unfold Favicon.fetchAndCacheFavicon.
  destruct (trySources_world domain (sources domain) w)
    as (pre & puts & _ & _ & Hl & _ & Hputs).
  exists (puts ++ requests pre). split; [by rewrite Hl, app_assoc|].
  assert (Hnone : filter is_put (requests pre) = []).
  { apply filter_none. intros ev Hev Hput. unfold FaviconSpec.requests in Hev.
    rewrite elem_of_reverse in Hev.
    apply list_elem_of_fmap in Hev as (u & -> & _). done. }
  rewrite filter_app, Hnone, app_nil_r.
  destruct Hputs as [[-> _]|(d & store & _ & _ & _ & _ & -> & _)];
    [cbn; lia|].
  rewrite filter_cons_True by done. cbn. lia.
Qed.

(** The first request of a fetch chain goes to the first source. *)
Lemma fetchAndCacheFavicon_first_request domain w :
  exists new,
    log (fetchAndCacheFavicon domain w).2
    = new ++ Fetch ("https://icons.duckduckgo.com/ip3/" +:+ domain +:+ ".ico")
          :: log w.
Proof.
  unfold Favicon.fetchAndCacheFavicon.
  destruct (trySources_world domain (sources domain) w)
    as (pre & puts & Hpre & Hne & Hl & _).
  rewrite Hl. destruct pre as [|u pre]; [by destruct Hne|].
  destruct Hpre as [post Hs]. injection Hs as <- _.
  unfold FaviconSpec.requests. rewrite fmap_cons, reverse_cons, <- app_assoc.
  eexists. rewrite app_assoc. reflexivity.
Qed.

(** C4, as amended.  The sources are tried in order: when the sources
    before [url] are passed over (the request fails, the response is not a
    success, the payload is under 100 bytes or cannot be read) and [url]
    answers with a success whose payload of 100 bytes or more is read into
    the data URL [d], the resolution returns [d] after requesting exactly
    these sources, in order, and none of the later ones, provided that the
    write, if the database is open, completes or ends in an error event.
    When it completes, the record for the domain, with [d] and the time of
    the write, is put into the store, once; when the database is closed or
    the write ends in an error event, nothing is put.  No resolution puts
    more than one record. *)
Theorem C4_first_acceptable_source_wins domain w pre url post d :
  sources domain = pre ++ url :: post ->
  Forall rejected pre ->
  acceptable url d ->
  let now := clock w + elapsed (pre ++ [url]) in
  (is_Some (db w) ->
   writes domain now = WriteCompletes \/ writes domain now = WriteFails) ->
  let r := fetchAndCacheFavicon domain w in
  let e := {| Favicon.domain := domain; dataUrl := d; timestamp := now |} in
  r.1 = Ok (Some d)
  /\ clock r.2 = now
  /\ (is_Some (db w) -> writes domain now = WriteCompletes ->
      db r.2 = (fun store => <[domain := e]> store) <$> db w
      /\ log r.2 = Put e :: requests (pre ++ [url]) ++ log w)
  /\ (db w = None \/ writes domain now = WriteFails ->
      db r.2 = db w
      /\ log r.2 = requests (pre ++ [url]) ++ log w)
  /\ (forall domain0 w0, exists new,
        log (fetchAndCacheFavicon domain0 w0).2 = new ++ log w0
        /\ (length (filter is_put new) <= 1)%nat).
Proof.
  intros Hs Hpre Ha now Hwrite r e. subst r now.
  destruct (after_requests_world (pre ++ [url]) w) as (Hd & Hc & Hl).
  assert (Hw : ~ write_throws domain (after_requests (pre ++ [url]) w)).
  { intros [Hopen Ht]. rewrite Hd in Hopen. rewrite Hc in Ht.
    destruct (Hwrite Hopen); congruence. }
  unfold Favicon.fetchAndCacheFavicon at 1 2 3 4 5 6.
  rewrite Hs, (trySources_first_acceptable _ _ _ _ _ _ Hpre Ha Hw).
  destruct (stored_world domain d (after_requests (pre ++ [url]) w))
    as (Hclock & Hstore & Hlog).
  destruct (taken_cases domain d (after_requests (pre ++ [url]) w))
    as [[-> Hcase]|[[-> [Hopen Hcase]]|[[_ [Hopen Hcase]]|[_ Ht]]]];
    [| | |done]; cbn [fst snd]; rewrite ?Hd, ?Hc in *.
  - split; [done|]. split; [done|]. split; [|split].
    + intros Hopen' Hok. destruct Hcase as [Hcase|Hcase]; [|congruence].
      rewrite Hcase in Hopen'. by destruct Hopen'.
    + by intros _.
    + apply fetchAndCacheFavicon_one_put.
  - split; [done|]. split; [by rewrite Hclock|]. split; [|split].
    + intros _ _. rewrite Hstore, Hlog, Hl.
      destruct Hopen as [store Hopen]. by rewrite Hopen.
    + intros [Hclosed|Hfail]; [|congruence].
      rewrite Hclosed in Hopen. by destruct Hopen.
    + apply fetchAndCacheFavicon_one_put.
  - destruct (Hwrite Hopen); congruence.
Qed.


(** C2, as amended.  With a record for the domain in the open store
    (holding a data URL, hence not the empty string) and a lookup that
    succeeds, getFavicon returns the cached data URL and does nothing else
    exactly when [now - timestamp] is under 7 days.  From 7 days on the
    lookup is a miss that leaves the record in place: the fetch chain runs
    on the unchanged store, starting with a request to the first source,
    and the record is still there when every source is passed over. *)
Theorem C2_cache_hit_iff_fresh siteUrl domain w store e :
  hostname siteUrl = Some domain ->
  db w = Some store ->
  store !! domain = Some e ->
  dataUrl e <> "" ->
  reads domain (clock w) = ReadSucceeds ->
  (getFavicon siteUrl w = (Ok (Some (dataUrl e)), w)
   <-> clock w - timestamp e < CACHE_DURATION)
  /\ (CACHE_DURATION <= clock w - timestamp e ->
      getCachedFavicon domain w = (Ok None, w)
      /\ getFavicon siteUrl w = fetchAndCacheFavicon domain w
      /\ (exists new,
            log (getFavicon siteUrl w).2
            = new ++ Fetch ("https://icons.duckduckgo.com/ip3/" +:+ domain +:+ ".ico")
                  :: log w)
      /\ (Forall rejected (sources domain) ->
          (getFavicon siteUrl w).1 = Ok None
          /\ db (getFavicon siteUrl w).2 = Some store)).
Proof.
  intros Hh Hdb He Hne Hread.
  pose proof (fetchAndCacheFavicon_first_request domain w) as Hfirst.
  assert (Hstale : CACHE_DURATION <= clock w - timestamp e ->
    getCachedFavicon domain w = (Ok None, w)
    /\ getFavicon siteUrl w = fetchAndCacheFavicon domain w).
  { intros Hold.
    assert (Hc : getCachedFavicon domain w = (Ok None, w)).
    { unfold Favicon.getCachedFavicon. rewrite Hdb, Hread, He.
      by replace (clock w - timestamp e <? CACHE_DURATION) with false by lia. }
    split; [done|]. by rewrite (getFavicon_domain _ _ _ _ Hh Hc). }
  split; [split|].
  - intros Hhit. destruct (decide (clock w - timestamp e < CACHE_DURATION)) as [|Hold];
      [done|exfalso].
    destruct Hstale as [_ Hrun]; [lia|]. rewrite Hrun in Hhit.
    destruct Hfirst as [new Hl]. rewrite Hhit in Hl. cbn [snd] in Hl.
    apply (f_equal length) in Hl. rewrite length_app in Hl. simpl in Hl. lia.
  - intros Hfresh.
    assert (Hc : getCachedFavicon domain w = (Ok (Some (dataUrl e)), w)).
    { unfold Favicon.getCachedFavicon. rewrite Hdb, Hread, He.
      by replace (clock w - timestamp e <? CACHE_DURATION) with true by lia. }
    rewrite (getFavicon_domain _ _ _ _ Hh Hc). simpl.
    by destruct (dataUrl e).
  - intros Hold. destruct (Hstale Hold) as [Hc Hrun]. rewrite Hrun.
    split; [done|]. split; [done|]. split; [done|].
    intros Hrej. unfold Favicon.fetchAndCacheFavicon.
    rewrite (trySources_rejected _ _ _ Hrej). cbn [fst snd].
    destruct (after_requests_world (sources domain) w) as (-> & _). done.
Qed.

(** What cacheFavicon writes keeps the store well formed, so that the
    assumption of C2 on the record holds of every store the script has
    filled. *)
Lemma getFavicon_written_by_cacheFavicon siteUrl w store :
  db w = Some store ->
  written_by_cacheFavicon store ->
  exists store', db (getFavicon siteUrl w).2 = Some store'
                 /\ written_by_cacheFavicon store'.
Proof.
  intros Hdb Hwf.
  destruct (hostname siteUrl) as [domain|] eqn:Hh.
  2: { rewrite (getFavicon_no_hostname _ _ Hh). eauto. }
  destruct (getCachedFavicon_pure domain w) as [[c Hc]|(Hc & _ & _)].
  2: { rewrite (getFavicon_lookup_throws _ _ _ Hh Hc). eauto. }
  rewrite (getFavicon_domain _ _ _ _ Hh Hc).
  destruct (is_truthy c); [eauto|].
  unfold Favicon.fetchAndCacheFavicon.
  destruct (trySources_world domain (sources domain) w)
    as (pre & puts & _ & _ & _ & _ & Hputs).
  destruct Hputs as [[_ ->]|(d & store0 & Hd & Hs & _ & _ & _ & ->)]; [eauto|].
  rewrite Hdb in Hs. injection Hs as <-.
  eexists. split; [done|].
  intros d0 e0. destruct (decide (domain = d0)) as [<-|Hne].
  - rewrite lookup_insert_eq. by intros [= <-].
  - rewrite lookup_insert_ne by done. apply Hwf.
Qed.
End FaviconProperties.

(** The two runs of section 8: a record fetched 6 days ago is returned
    without a request, a record fetched 8 days ago is not. *)
Lemma C2_witness :
  Favicon.getFavicon respond0 latency0 readerFails0 base64_0 hostname0
    reads0 writes0 "https://example.com/page" (cached_at_0 (6 * day))
  = (Favicon.Ok (Some "data:image/x-icon;base64,AAAA"%string), cached_at_0 (6 * day))
  /\ exists new,
      Favicon.log
        (Favicon.getFavicon respond0 latency0 readerFails0 base64_0 hostname0
           reads0 writes0 "https://example.com/page" (cached_at_0 (8 * day))).2
      = new ++ [Favicon.Fetch "https://icons.duckduckgo.com/ip3/example.com.ico"].
Proof.
  split.
  - apply (C2_cache_hit_iff_fresh respond0 latency0 readerFails0 base64_0 hostname0
             reads0 writes0
             "https://example.com/page" example_domain (cached_at_0 (6 * day))
             _ _ eq_refl eq_refl eq_refl ltac:(discriminate) eq_refl).
    by vm_compute.
  - destruct (C2_cache_hit_iff_fresh respond0 latency0 readerFails0 base64_0 hostname0
             reads0 writes0
             "https://example.com/page" example_domain (cached_at_0 (8 * day))
             _ _ eq_refl eq_refl eq_refl ltac:(discriminate) eq_refl) as [_ H].
    destruct H as (_ & _ & H & _); [by vm_compute|]. exact H.
Defined.

(** C2, as stated, fails when the request of the lookup ends in an error
    event: the record fetched 6 days ago is there, and the resolution goes
    to the network all the same. *)
Lemma C2_counterexample :
  ~ FaviconSpec.cached_iff_fresh respond0 latency0 readerFails0 base64_0
      hostname0 read_errors writes0 "https://example.com/page" example_domain
      (cached_at_0 (6 * day))
  /\ exists e,
      Favicon.log
        (Favicon.getFavicon respond0 latency0 readerFails0 base64_0 hostname0
           read_errors writes0 "https://example.com/page"
           (cached_at_0 (6 * day))).2
      = Favicon.Put e
        :: FaviconSpec.requests
             ["https://icons.duckduckgo.com/ip3/example.com.ico";
              "https://www.google.com/s2/favicons?domain=example.com&sz=128";
              "https://favicon.io/favicon/example.com";
              "https://example.com/favicon.ico"]%string.
Proof.
  split; [|eexists; by vm_compute]. intros H.
  destruct (H _ _ eq_refl eq_refl ltac:(discriminate)) as [_ Hhit].
  specialize (Hhit ltac:(by vm_compute)).
  apply (f_equal (fun r => length (Favicon.log r.2))) in Hhit.
  by vm_compute in Hhit.
Qed.

Lemma C4_witness :
  let r := Favicon.fetchAndCacheFavicon respond0 latency0 readerFails0 base64_0
             writes0 example_domain (empty_cache 1000) in
  r.1 = Favicon.Ok (Some ("data:image/x-icon;base64," +:+ base64_0 (Favicon.blobBytes icon)))
  /\ Favicon.clock r.2 = 1160
  /\ length (Favicon.log r.2) = 5%nat.
Proof.
  destruct (C4_first_acceptable_source_wins respond0 latency0 readerFails0 base64_0
    writes0 example_domain (empty_cache 1000)
    ["https://icons.duckduckgo.com/ip3/example.com.ico";
     "https://www.google.com/s2/favicons?domain=example.com&sz=128";
     "https://favicon.io/favicon/example.com"]%string
    "https://example.com/favicon.ico"%string
    ["https://example.com/apple-touch-icon.png";
     "https://example.com/apple-touch-icon-precomposed.png"]%string
    ("data:image/x-icon;base64," +:+ base64_0 (Favicon.blobBytes icon)))
    as (Hr & Hc & Hdone & _).
  - by vm_compute.
  - apply Forall_cons_2; [|apply Forall_cons_2; [|apply Forall_cons_2; [|apply Forall_nil_2]]].
    + left. by vm_compute.
    + right; right; right. exists pixel. split; [by vm_compute|left; by vm_compute].
    + right; left. eexists. by vm_compute.
  - exists icon. repeat split; by vm_compute.
  - intros _. by left.
  - destruct Hdone as [_ Hl]; [by eexists|done|].
    intros r. subst r. rewrite Hr, Hc, Hl. repeat split; by vm_compute.
Defined.

(** C4, as stated, fails when the write ends in an error event: the icon
    of the first source that answers is returned, and the store holds no
    record of it. *)
Lemma C4_counterexample :
  ~ FaviconSpec.first_success_cached respond0 latency0 readerFails0 base64_0
      write_errors example_domain (empty_cache 1000)
  /\ Favicon.fetchAndCacheFavicon respond0 latency0 readerFails0 base64_0
       write_errors example_domain (empty_cache 1000)
     = (Favicon.Ok (Some ("data:image/x-icon;base64," +:+ base64_0 (Favicon.blobBytes icon))),
        FaviconSpec.after_requests latency0
          ["https://icons.duckduckgo.com/ip3/example.com.ico";
           "https://www.google.com/s2/favicons?domain=example.com&sz=128";
           "https://favicon.io/favicon/example.com";
           "https://example.com/favicon.ico"]%string
          (empty_cache 1000)).
Proof.
  split; [|by vm_compute]. intros H.
  destruct (H
    ["https://icons.duckduckgo.com/ip3/example.com.ico";
     "https://www.google.com/s2/favicons?domain=example.com&sz=128";
     "https://favicon.io/favicon/example.com"]%string
    "https://example.com/favicon.ico"%string
    ["https://example.com/apple-touch-icon.png";
     "https://example.com/apple-touch-icon-precomposed.png"]%string
    ("data:image/x-icon;base64," +:+ base64_0 (Favicon.blobBytes icon)))
    as (_ & Hlog & _).
  - by vm_compute.
  - apply Forall_cons_2; [|apply Forall_cons_2; [|apply Forall_cons_2; [|apply Forall_nil_2]]].
    + left. by vm_compute.
    + right; right; right. exists pixel. split; [by vm_compute|left; by vm_compute].
    + right; left. eexists. by vm_compute.
  - exists icon. repeat split; by vm_compute.
  - apply (f_equal length) in Hlog. by vm_compute in Hlog.
Qed.



(** ** Auto-hibernate *)

Section IdleProperties.
Import Idle IdleSpec.
Implicit Types (st : State) (b : Browser) (v : Vars) (t : Z).

Lemma is_set_Some (u : string) : u <> "" -> is_set (Some u) = true.
Proof. intros H. simpl. by destruct u. Qed.

(** After an activity signal of a session that is not hibernated: the
    variables are as before but for the time of the last activity, and the
    one pending timeout is the new one, due a full period later. *)
Lemma resetActivityTimer_active st :
  isHibernated (vars st) = false ->
  single_timer st ->
  let st1 := resetActivityTimer st in
  timers (browser st1)
  = {[ nextTimer (browser st) := clock (browser st) + HIBERNATE_TIMEOUT ]}
  /\ clock (browser st1) = clock (browser st)
  /\ hibernateTimer (vars st1) = Some (nextTimer (browser st))
  /\ isHibernated (vars st1) = false
  /\ lastActivityTime (vars st1) = clock (browser st)
  /\ hibernatedUrl (vars st1) = hibernatedUrl (vars st)
  /\ currentSiteUrl (vars st1) = currentSiteUrl (vars st)
  /\ webFrameSrc (vars st1) = webFrameSrc (vars st)
  /\ overlayShown (vars st1) = overlayShown (vars st).
Proof.
  intros Hact Hone. unfold resetActivityTimer.
  cbn [isHibernated hibernateTimer]. rewrite Hact.
  assert (Hclear : timers (match hibernateTimer (vars st) with
                           | Some timer => clearTimeout timer (browser st)
                           | None => browser st
                           end) = ∅).
  { apply map_eq. intros timer. rewrite lookup_empty.
    destruct (hibernateTimer (vars st)) as [held|] eqn:Eh.
    - cbn [clearTimeout timers]. destruct (decide (held = timer)) as [->|Hne].
      + apply lookup_delete_eq.
      + rewrite lookup_delete_ne by done.
        destruct (timers (browser st) !! timer) as [due|] eqn:Et; [|done].
        specialize (Hone _ _ Et). congruence.
    - destruct (timers (browser st) !! timer) as [due|] eqn:Et; [|done].
      specialize (Hone _ _ Et). congruence. }
  destruct (hibernateTimer (vars st)) as [held|];
    cbn [setTimeout clearTimeout browser vars timers clock nextTimer
         hibernateTimer isHibernated lastActivityTime hibernatedUrl
         currentSiteUrl webFrameSrc overlayShown] in *;
    rewrite Hclear; repeat split; done.
Qed.

(** Every event leaves one live timer at most. *)
Lemma resetActivityTimer_single st :
  single_timer st -> single_timer (resetActivityTimer st).
Proof.
  intros Hone timer due. unfold resetActivityTimer.
  assert (Hwake : hibernateTimer
            (if isHibernated (vars st)
             then wakeFromHibernate
                    {| hibernateTimer := hibernateTimer (vars st);
                       isHibernated := isHibernated (vars st);
                       lastActivityTime := clock (browser st);
                       hibernatedUrl := hibernatedUrl (vars st);
                       currentSiteUrl := currentSiteUrl (vars st);
                       webFrameSrc := webFrameSrc (vars st);
                       overlayShown := overlayShown (vars st) |}
             else
                    {| hibernateTimer := hibernateTimer (vars st);
                       isHibernated := isHibernated (vars st);
                       lastActivityTime := clock (browser st);
                       hibernatedUrl := hibernatedUrl (vars st);
                       currentSiteUrl := currentSiteUrl (vars st);
                       webFrameSrc := webFrameSrc (vars st);
                       overlayShown := overlayShown (vars st) |})
          = hibernateTimer (vars st)).
  { unfold wakeFromHibernate. cbn [isHibernated hibernatedUrl].
    destruct (isHibernated (vars st)); [|done].
    cbn [negb]. by destruct (is_set (hibernatedUrl (vars st))). }
  cbn [isHibernated]. rewrite Hwake.
  destruct (hibernateTimer (vars st)) as [held|] eqn:Eh;
    cbn [setTimeout clearTimeout browser vars timers clock nextTimer
         hibernateTimer].
  - destruct (decide (nextTimer (browser st) = timer)) as [->|Hne]; [done|].
    rewrite lookup_insert_ne by done.
    destruct (decide (held = timer)) as [->|Hne'].
    + by rewrite lookup_delete_eq.
    + rewrite lookup_delete_ne by done. intros Et.
      specialize (Hone _ _ Et). congruence.
  - destruct (decide (nextTimer (browser st) = timer)) as [->|Hne]; [done|].
    rewrite lookup_insert_ne by done. intros Et.
    specialize (Hone _ _ Et). congruence.
Qed.

Lemma step_single ev st st' :
  single_timer st -> step ev st = Some st' -> single_timer st'.
Proof.
  intros Hone. destruct ev as [t|timer t|url t]; cbn [step].
  - destruct (_ <=? _); [|done]. intros [= <-].
    by apply resetActivityTimer_single.
  - destruct (timers (browser st) !! timer) as [due|] eqn:Et; [|done].
    destruct (_ && _); [|done]. intros [= <-]. intros k d.
    unfold checkHibernate, hibernate.
    destruct (_ && _ && _); cbn [browser vars clearTimeout at_time timers];
      [destruct (_ || _); cbn [hibernateTimer]|];
      (destruct (decide (timer = k)) as [->|Hne];
       [by rewrite lookup_delete_eq|rewrite lookup_delete_ne by done; apply Hone]).
  - destruct (_ <=? _); [|done]. intros [= <-]. exact Hone.
Qed.

Lemma initial_single t0 : single_timer (initial t0).
Proof. intros timer due. cbn. by rewrite lookup_empty. Qed.

Lemma step_quiet t0 ev st st' :
  quiet_since t0 st ->
  time_of ev < t0 + HIBERNATE_TIMEOUT ->
  step ev st = Some st' ->
  quiet_since t0 st'.
Proof.
  intros (Hact & Hclock & Hdue) Hev Hstep.
  destruct st as [[clk tm nt] [ht ih la hu cu src ov]].
  cbn [browser vars clock timers isHibernated] in *. subst ih.
  destruct ev as [t|timer t|url t]; cbn [step time_of browser clock timers] in *.
  - destruct (clk <=? t) eqn:Ht; [|done]. apply Z.leb_le in Ht.
    injection Hstep as <-. unfold resetActivityTimer, at_time, quiet_since.
    cbn [browser vars clock timers nextTimer isHibernated hibernateTimer].
    destruct ht as [held|];
      cbn [setTimeout clearTimeout browser vars clock timers nextTimer
           isHibernated];
      (split; [done|]); (split; [lia|]); intros timer due.
    + destruct (decide (nt = timer)) as [->|Hne].
      * rewrite lookup_insert_eq. intros [= <-]. lia.
      * rewrite lookup_insert_ne by done.
        destruct (decide (held = timer)) as [->|Hne'].
        -- by rewrite lookup_delete_eq.
        -- rewrite lookup_delete_ne by done. apply Hdue.
    + destruct (decide (nt = timer)) as [->|Hne].
      * rewrite lookup_insert_eq. intros [= <-]. lia.
      * rewrite lookup_insert_ne by done. apply Hdue.
  - destruct (tm !! timer) as [due|] eqn:Et; [|done].
    specialize (Hdue _ _ Et).
    replace (due <=? t) with false in Hstep by lia. done.
  - destruct (clk <=? t) eqn:Ht; [|done]. apply Z.leb_le in Ht.
    injection Hstep as <-. unfold loadSite, at_time, quiet_since.
    cbn [browser vars clock timers isHibernated]. repeat split; [lia|done].
Qed.

Lemma run_quiet t0 evs st st' :
  quiet_since t0 st ->
  Forall (fun ev => time_of ev < t0 + HIBERNATE_TIMEOUT) evs ->
  run evs st = Some st' ->
  quiet_since t0 st'.
Proof.
  intros Hq Hevs. revert st Hq.
  induction Hevs as [|ev evs Hev _ IH]; intros st Hq; cbn [run].
  - by intros [= <-].
  - destruct (step ev st) as [st1|] eqn:E; [|done].
    apply IH. by apply (step_quiet t0 ev st).
Qed.

(** C6. With T = 5 minutes = 300000 ms: take an active session with a
    site loaded and one live timer at most, and an activity signal at
    [t0].  Then one timeout is pending, due at [t0 + 300000]; whatever is
    delivered before that time, the session is not hibernated; when the
    timeout runs (at [t0 + 300000] or later) with no activity in between,
    the session is hibernated, the address of the site is kept in
    [hibernatedUrl], the frame is blank and the overlay is shown; the next
    activity signal makes the session active again, loads the kept address
    into the frame, clears [hibernatedUrl], hides the overlay and starts a
    new timeout. *)
Theorem C6_hibernate_after_five_idle_minutes st (u : string) t0 :
  isHibernated (vars st) = false ->
  currentSiteUrl (vars st) = Some u ->
  u <> "" ->
  single_timer st ->
  clock (browser st) <= t0 ->
  exists st1 timer,
    step (Activity t0) st = Some st1
    /\ timers (browser st1) = {[ timer := t0 + 300000 ]}
    /\ (forall evs st',
          Forall (fun ev => time_of ev < t0 + 300000) evs ->
          run evs st1 = Some st' ->
          isHibernated (vars st') = false)
    /\ (forall t2, t0 + 300000 <= t2 ->
        exists st2,
          step (TimerFires timer t2) st1 = Some st2
          /\ isHibernated (vars st2) = true
          /\ hibernatedUrl (vars st2) = Some u
          /\ webFrameSrc (vars st2) = "about:blank"
          /\ overlayShown (vars st2) = true
          /\ timers (browser st2) = ∅
          /\ (forall t3, t2 <= t3 ->
              exists st3 timer',
                step (Activity t3) st2 = Some st3
                /\ isHibernated (vars st3) = false
                /\ webFrameSrc (vars st3) = u
                /\ hibernatedUrl (vars st3) = None
                /\ overlayShown (vars st3) = false
                /\ timers (browser st3) = {[ timer' := t3 + 300000 ]})).
Proof.
  intros Hact Hurl Hu Hone Hclock.
  assert (Hone' : single_timer (at_time t0 st)) by exact Hone.
  destruct (resetActivityTimer_active (at_time t0 st) Hact Hone')
    as (Htm & Hclk & Hht & Hih & Hla & Hhu & Hcu & Hsrc & Hov).
  set (st1 := resetActivityTimer (at_time t0 st)) in *.
  cbn [at_time vars browser clock nextTimer timers] in Htm, Hclk, Hht, Hih, Hla, Hhu, Hcu.
  exists st1, (nextTimer (browser st)).
  split. { cbn [step]. by replace (clock (browser st) <=? t0) with true by lia. }
  split; [exact Htm|]. split.
  { intros evs st' Hevs Hrun.
    apply (run_quiet t0 evs st1 st'); [|exact Hevs|exact Hrun].
    split; [done|]. split; [rewrite Hclk; lia|].
    intros timer due. rewrite Htm. intros [_ <-]%lookup_singleton_Some.
    unfold HIBERNATE_TIMEOUT. lia. }
  assert (Hq : step (Activity t0) st = Some st1)
    by (cbn [step]; by replace (clock (browser st) <=? t0) with true by lia).
  clearbody st1. rewrite Hurl in Hcu.
  change HIBERNATE_TIMEOUT with 300000 in Htm.
  intros t2 Ht2. cbn [step]. rewrite Htm, lookup_singleton_eq, Hclk.
  replace (t0 + 300000 <=? t2) with true by lia.
  replace (t0 <=? t2) with true by lia. cbn [andb].
  eexists. split; [reflexivity|].
  unfold checkHibernate, hibernate.
  cbn [browser vars clock timers nextTimer at_time clearTimeout].
  rewrite Hla, Hcu, Hih, (is_set_Some u Hu).
  replace (HIBERNATE_TIMEOUT <=? t2 - t0) with true
    by (unfold HIBERNATE_TIMEOUT; lia).
  cbn [andb orb negb vars browser isHibernated hibernatedUrl webFrameSrc
       overlayShown timers].
  cbn [clearTimeout timers clock nextTimer].
  rewrite Htm, delete_singleton_eq. repeat (split; [done|]).
  intros t3 Ht3. cbn [step browser clock].
  replace (t2 <=? t3) with true by lia.
  do 2 eexists. split; [reflexivity|].
  unfold resetActivityTimer, wakeFromHibernate, at_time.
  cbn [browser vars clock timers nextTimer isHibernated hibernatedUrl
       hibernateTimer negb].
  rewrite (is_set_Some u Hu).
  cbn [browser vars clock timers nextTimer isHibernated hibernatedUrl
       hibernateTimer webFrameSrc overlayShown setTimeout clearTimeout default].
  rewrite Hht. cbn [clearTimeout timers browser clock nextTimer].
  rewrite delete_singleton_eq, delete_empty, insert_empty.
  repeat split; done.
Qed.

(** C9, as amended.  When a timeout runs its callback while no site is
    loaded, nothing changes but the clock and the timeout's leaving the
    pending ones: the variables are as before, so the session is not
    hibernated by it, and no new timeout is set.  With one live timer at
    most, none is pending afterwards; the next activity signal starts one
    for a full period. *)
Theorem C9_idle_fire_without_site st timer t st' :
  is_set (currentSiteUrl (vars st)) = false ->
  step (TimerFires timer t) st = Some st' ->
  vars st' = vars st
  /\ clock (browser st') = t
  /\ timers (browser st') = delete timer (timers (browser st))
  /\ nextTimer (browser st') = nextTimer (browser st)
  /\ (single_timer st -> timers (browser st') = ∅)
  /\ (isHibernated (vars st) = false -> single_timer st ->
      forall t2, t <= t2 ->
      exists st2 timer',
        step (Activity t2) st' = Some st2
        /\ isHibernated (vars st2) = false
        /\ timers (browser st2) = {[ timer' := t2 + HIBERNATE_TIMEOUT ]}).
Proof.
  intros Hnone Hstep. cbn [step] in Hstep.
  destruct (timers (browser st) !! timer) as [due|] eqn:Et; [|done].
  destruct ((due <=? t) && (clock (browser st) <=? t)); [|done].
  injection Hstep as <-. unfold checkHibernate.
  cbn [vars browser]. rewrite Hnone, andb_false_r. cbn [andb vars browser].
  assert (Hempty : single_timer st -> delete timer (timers (browser st)) = ∅).
  { intros Hone. apply map_eq. intros k. rewrite lookup_empty.
    destruct (decide (timer = k)) as [->|Hne]; [apply lookup_delete_eq|].
    rewrite lookup_delete_ne by done.
    destruct (timers (browser st) !! k) as [d|] eqn:Ek; [|done].
    pose proof (Hone _ _ Ek). pose proof (Hone _ _ Et). congruence. }
  cbn [clearTimeout at_time browser clock timers nextTimer].
  do 4 (split; [done|]). split; [exact Hempty|].
  intros Hact Hone t2 Ht2. cbn [step browser clock clearTimeout].
  replace (t <=? t2) with true by lia.
  do 2 eexists. split; [reflexivity|].
  match goal with |- context [resetActivityTimer ?s] =>
    destruct (resetActivityTimer_active s) as (Htm & _ & _ & Hih & _) end.
  - exact Hact.
  - intros k d. cbn [at_time browser vars timers clearTimeout].
    rewrite (Hempty Hone). by rewrite lookup_empty.
  - split; [exact Hih|]. exact Htm.
Qed.
End IdleProperties.

Lemma C6_witness :
  exists timer st3,
    Idle.run [Idle.Activity 0; Idle.TimerFires timer 300000; Idle.Activity 301000]
      viewing = Some st3
    /\ Idle.isHibernated (Idle.vars st3) = false
    /\ Idle.webFrameSrc (Idle.vars st3) = "https://github.com"%string.
Proof.
  assert (Hone : IdleSpec.single_timer viewing)
    by apply (resetActivityTimer_single _ (initial_single 0)).
  destruct (C6_hibernate_after_five_idle_minutes viewing "https://github.com" 0
              eq_refl eq_refl ltac:(discriminate) Hone ltac:(by vm_compute))
    as (st1 & timer & H1 & _ & _ & H2).
  destruct (H2 300000 ltac:(by vm_compute)) as (st2 & H2' & _ & _ & _ & _ & _ & H3).
  destruct (H3 301000 ltac:(by vm_compute)) as (st3 & timer' & H3' & Hact & Hsrc & _).
  exists timer, st3. cbn [Idle.run]. rewrite H1, H2', H3'. done.
Defined.

(** C9, as stated, fails: at time 300000 the first timeout of a sidebar
    without a site runs its callback, after which no timeout is pending at
    all, let alone one for another full period. *)
Lemma C9_counterexample :
  ~ IdleSpec.restarted_after idle_start 1 300000
  /\ exists st',
      Idle.step (Idle.TimerFires 1 300000) idle_start = Some st'
      /\ Idle.isHibernated (Idle.vars st') = false
      /\ Idle.timers (Idle.browser st') = ∅.
Proof.
  assert (E : Idle.step (Idle.TimerFires 1 300000) idle_start
              = Some {| Idle.browser :=
                          {| Idle.clock := 300000; Idle.timers := ∅;
                             Idle.nextTimer := 2 |};
                        Idle.vars := Idle.vars idle_start |})
    by (by vm_compute).
  split.
  - intros (st' & Hstep & _ & timer' & Hpending).
    rewrite E in Hstep. injection Hstep as <-.
    cbn [Idle.browser Idle.timers] in Hpending.
    by rewrite lookup_empty in Hpending.
  - eexists. split; [exact E|]. by split.
Qed.

Lemma C9_witness :
  exists st',
    Idle.step (Idle.TimerFires 1 300000) idle_start = Some st'
    /\ Idle.vars st' = Idle.vars idle_start
    /\ Idle.timers (Idle.browser st') = ∅.
Proof.
  eexists. split; [by vm_compute|].
  destruct (C9_idle_fire_without_site idle_start 1 300000 _ eq_refl
              ltac:(by vm_compute)) as (Hv & _ & _ & _ & He & _).
  split; [exact Hv|]. apply He.
  apply (resetActivityTimer_single _ (initial_single 0)).
Defined.

(** * Further properties *)

(** ** Header stripping *)

Section HeaderProperties.
Import Headers.

Lemma onHeadersReceived_elem_of (hs : list Header) (h : Header) :
  h ∈ onHeadersReceived hs
  <-> h ∈ hs /\ toLowerCase (name h) ∉ HEADERS_TO_REMOVE.
Proof. unfold onHeadersReceived. rewrite list_elem_of_filter. tauto. Qed.

(** X1. The listener returns the response headers in their order without
    those whose name is, whatever the case of its letters, X-Frame-Options,
    Content-Security-Policy or X-Content-Security-Policy, and keeps every
    other header; a second pass removes nothing more. *)
Theorem X1_blocking_headers_removed (hs : list Header) :
  let out := onHeadersReceived hs in
  (out `sublist_of` hs)
  /\ (forall h, h ∈ hs -> toLowerCase (name h) ∉ HEADERS_TO_REMOVE -> h ∈ out)
  /\ (forall h blocked,
        blocked ∈ ["X-Frame-Options"; "Content-Security-Policy";
                   "X-Content-Security-Policy"]%string ->
        toLowerCase (name h) = toLowerCase blocked ->
        h ∉ out)
  /\ onHeadersReceived out = out.
Proof.
  intros out. split; [apply sublist_filter|]. split; [|split].
  - intros h Hin Hkeep. by apply onHeadersReceived_elem_of.
  - intros h blocked Hb Hsame Hout.
    apply onHeadersReceived_elem_of in Hout as [_ Hkeep]. apply Hkeep.
    rewrite Hsame. clear -Hb. unfold HEADERS_TO_REMOVE.
    apply elem_of_cons in Hb as [->|Hb].
    { change (toLowerCase "X-Frame-Options") with "x-frame-options"%string.
      apply list_elem_of_here. }
    apply elem_of_cons in Hb as [->|Hb].
    { change (toLowerCase "Content-Security-Policy")
        with "content-security-policy"%string.
      apply list_elem_of_further, list_elem_of_here. }
    apply list_elem_of_singleton in Hb as ->.
    change (toLowerCase "X-Content-Security-Policy")
      with "x-content-security-policy"%string.
    do 2 apply list_elem_of_further. apply list_elem_of_here.
  - subst out. unfold onHeadersReceived. rewrite list_filter_filter.
    apply list_filter_iff. tauto.
Qed.
End HeaderProperties.

Lemma X1_witness :
  Headers.name <$> Headers.onHeadersReceived response_of_a_site
  = ["Content-Type"; "Content-Security-Policy-Report-Only"; "Set-Cookie"]%string
  /\ {| Headers.name := "X-FRAME-OPTIONS"; Headers.value := "DENY" |}
     ∉ Headers.onHeadersReceived response_of_a_site.
Proof.
  split; [by vm_compute|].
  apply (proj1 (proj2 (proj2 (X1_blocking_headers_removed response_of_a_site)))
           _ "X-Frame-Options"%string).
  - eapply bool_decide_unpack. by vm_compute.
  - by vm_compute.
Defined.

(** ** Reordering *)

Section ReorderMore.
Import Reorder ReorderSpec.
Context {A : Type}.
Implicit Types (sites : list A).

(** When handleDrop reorders, it moves the site at [draggedIndex], which
    is in range, to another index in range. *)
Lemma handleDrop_Some_range drag target isAbove sites sites' :
  handleDrop drag target isAbove sites = Some sites' ->
  exists (from to : nat) x,
    Z.of_nat from = draggedIndex drag
    /\ sites !! from = Some x
    /\ (to < length sites)%nat
    /\ from <> to
    /\ sites' = move from to sites.
Proof.
  unfold handleDrop. destruct target as [t|]; [|done].
  destruct (draggedItem drag) as [b|]; [|done].
  case_bool_decide; [done|].
  set (n := newIndex isAbove (draggedIndex drag) t (Z.of_nat (length sites))).
  destruct (negb (draggedIndex drag =? n) && (0 <=? draggedIndex drag)
            && (draggedIndex drag <? Z.of_nat (length sites))) eqn:G; [|done].
  apply andb_prop in G as [G Hlt]. apply andb_prop in G as [Hne Hge].
  apply Z.leb_le in Hge. apply Z.ltb_lt in Hlt.
  apply negb_true_iff, Z.eqb_neq in Hne.
  assert (Hn : 0 <= n <= Z.of_nat (length sites) - 1)
    by (subst n; unfold newIndex; lia).
  destruct (lookup_lt_is_Some_2 sites (Z.to_nat (draggedIndex drag))) as [x Hx];
    [lia|].
  rewrite <- (Z2Nat.id (draggedIndex drag)) at 1 by lia.
  rewrite (splice_remove_one _ _ _ Hx).
  rewrite <- (Z2Nat.id n) by lia.
  rewrite splice_insert_one by (rewrite length_delete by eauto; lia).
  intros [= <-]. exists (Z.to_nat (draggedIndex drag)), (Z.to_nat n), x.
  repeat split; [lia|done|lia|lia|]. unfold move. by rewrite Hx.
Qed.

Lemma move_lookup_delete sites (from to : nat) x :
  sites !! from = Some x ->
  (to < length sites)%nat ->
  move from to sites !! to = Some x
  /\ delete to (move from to sites) = delete from sites.
Proof.
  intros Hx Hto. pose proof (lookup_lt_Some _ _ _ Hx) as Hfrom.
  assert (Htake : length (take to (delete from sites)) = to).
  { rewrite length_take, length_delete by eauto. lia. }
  unfold move. rewrite Hx. split.
  - rewrite lookup_app_r by lia. by rewrite Htake, Nat.sub_diag.
  - rewrite <- Htake at 1. by rewrite delete_middle, take_drop.
Qed.

(** X2. A drop that reorders loses and duplicates nothing: the new array
    is a permutation of the old one, of the same length; the dragged site is
    at another index, and the other sites are in the order they had. *)
Theorem X2_drop_rearranges drag target isAbove sites sites' :
  handleDrop drag target isAbove sites = Some sites' ->
  sites' ≡ₚ sites
  /\ length sites' = length sites
  /\ exists (from to : nat) x,
      Z.of_nat from = draggedIndex drag
      /\ from <> to
      /\ sites !! from = Some x
      /\ sites' !! to = Some x
      /\ delete to sites' = delete from sites.
Proof.
  intros H. apply handleDrop_Some_range in H
    as (from & to & x & Hfrom & Hx & Hto & Hne & ->).
  destruct (move_lookup_delete sites from to x Hx Hto) as [Hl Hd].
  split; [apply move_Permutation|].
  split; [by rewrite move_Permutation|].
  by exists from, to, x.
Qed.

(** X3. Between two different buttons of the bar the handler leaves the
    array alone, and saves nothing, in two cases only: a drop above the
    button that follows the dragged one, and a drop below the button that
    precedes it.  Without a drag in progress, or away from a button, it
    does nothing either. *)
Theorem X3_drop_without_effect sites (d t : nat) isAbove :
  (d < length sites)%nat -> (t < length sites)%nat -> d <> t ->
  (handleDrop (handleDragStart (Z.of_nat d)) (Some (Z.of_nat t)) isAbove sites = None
   <-> (isAbove = true /\ t = S d) \/ (isAbove = false /\ d = S t))
  /\ handleDrop (handleDragStart (Z.of_nat d)) None isAbove sites = None
  /\ handleDrop handleDragEnd (Some (Z.of_nat t)) isAbove sites = None.
Proof.
  intros Hd Ht Hne. split; [|done].
  destruct (newIndex_in_range isAbove sites d t Hd Ht Hne) as [Hn Hr].
  unfold handleDrop, handleDragStart. cbn [draggedItem draggedIndex].
  rewrite bool_decide_eq_false_2 by lia. rewrite Hn.
  replace (0 <=? Z.of_nat d) with true by lia.
  replace (Z.of_nat d <? Z.of_nat (length sites)) with true by lia.
  rewrite !andb_true_r.
  destruct (lookup_lt_is_Some_2 sites d Hd) as [x Hx].
  rewrite (splice_remove_one _ _ _ Hx).
  unfold documented_index in *.
  destruct (Z.of_nat d =? _) eqn:E; cbn [negb].
  - apply Z.eqb_eq in E. split; [intros _|done].
    destruct isAbove; case_bool_decide; [left|left|right|right]; split; (done || lia).
  - apply Z.eqb_neq in E. split; [done|].
    intros [[-> ->]|[-> ->]]; exfalso; apply E; case_bool_decide; lia.
Qed.
End ReorderMore.

Lemma X2_witness :
  exists sites',
    Reorder.handleDrop (Reorder.handleDragStart 3) (Some 0) true
      ["A"; "B"; "C"; "D"]%string = Some sites'
    /\ sites' ≡ₚ ["A"; "B"; "C"; "D"]%string
    /\ sites' = ["D"; "A"; "B"; "C"]%string.
Proof.
  eexists. split; [by vm_compute|].
  split; [|done].
  apply (X2_drop_rearranges (Reorder.handleDragStart 3) (Some 0) true
           ["A"; "B"; "C"; "D"]%string). by vm_compute.
Defined.

Lemma X3_witness :
  Reorder.handleDrop (Reorder.handleDragStart 1) (Some 2) true
    ["A"; "B"; "C"; "D"]%string = None
  /\ Reorder.handleDrop (Reorder.handleDragStart 1) (Some 2) false
       ["A"; "B"; "C"; "D"]%string <> None.
Proof.
  destruct (X3_drop_without_effect ["A"; "B"; "C"; "D"]%string 1 2 true
              ltac:(simpl; lia) ltac:(simpl; lia) ltac:(lia)) as [Ha _].
  destruct (X3_drop_without_effect ["A"; "B"; "C"; "D"]%string 1 2 false
              ltac:(simpl; lia) ltac:(simpl; lia) ltac:(lia)) as [Hb _].
  split.
  - apply Ha. by left.
  - intros H. apply Hb in H as [[? _]|[_ ?]]; [done|lia].
Defined.

(** ** Trimming *)

Section TrimProperties.
Import StringSpec.
Implicit Types (s : string) (l : list Ascii.ascii).

Lemma chars_inj s1 s2 : chars s1 = chars s2 -> s1 = s2.
Proof.
  intros H. rewrite <- (String.string_of_list_ascii_of_string s1),
    <- (String.string_of_list_ascii_of_string s2). unfold chars in H. by rewrite H.
Qed.

Lemma chars_rev_app s1 s2 :
  chars (String.rev_app s1 s2) = reverse (chars s1) ++ chars s2.
Proof.
  revert s2. induction s1 as [|c s1 IH]; intros s2; [done|].
  cbn [String.rev_app]. rewrite IH. unfold chars.
  cbn [String.list_ascii_of_string]. by rewrite reverse_cons, <- app_assoc.
Qed.

Lemma chars_rev s : chars (String.rev s) = reverse (chars s).
Proof. unfold String.rev. by rewrite chars_rev_app, app_nil_r. Qed.

Lemma chars_trimStart s : chars (trimStart s) = ltrim (chars s).
Proof.
  induction s as [|c s IH]; [done|]. cbn [trimStart]. unfold chars in *.
  cbn [String.list_ascii_of_string ltrim]. by destruct (is_white_space c).
Qed.

Lemma chars_trim s :
  chars (trim s) = reverse (ltrim (reverse (ltrim (chars s)))).
Proof.
  unfold trim, trimEnd. by rewrite chars_rev, chars_trimStart, chars_rev,
    chars_trimStart.
Qed.

Lemma ltrim_head l c : head (ltrim l) = Some c -> is_white_space c = false.
Proof.
  induction l as [|a l IH]; [done|]. cbn [ltrim].
  destruct (is_white_space a) eqn:E; [done|]. by intros [= <-].
Qed.

Lemma ltrim_fixed l :
  (forall c, head l = Some c -> is_white_space c = false) -> ltrim l = l.
Proof.
  destruct l as [|a l]; [done|]. intros H. cbn [ltrim].
  by rewrite (H a eq_refl).
Qed.

Lemma ltrim_nil l :
  ltrim l = [] <-> Forall (fun c => is_white_space c = true) l.
Proof.
  induction l as [|a l IH]; [by split|]. cbn [ltrim].
  destruct (is_white_space a) eqn:E.
  - rewrite IH, Forall_cons. tauto.
  - split; [done|]. intros H. apply Forall_cons in H as [H _]. congruence.
Qed.

Lemma ltrim_suffix l : exists pre, l = pre ++ ltrim l.
Proof.
  induction l as [|a l [pre IH]]; [by exists []|]. cbn [ltrim].
  destruct (is_white_space a).
  - exists (a :: pre). cbn. by rewrite <- IH.
  - by exists [].
Qed.

(** Dropping the white space at the end of a list keeps its first
    element when that is not white space. *)
Lemma rtrim_head l c :
  head (reverse (ltrim (reverse l))) = Some c ->
  (forall a, head l = Some a -> is_white_space a = false) ->
  head l = Some c.
Proof.
  intros Hc Hl. destruct l as [|a l]; [done|].
  specialize (Hl a eq_refl). rewrite reverse_cons in Hc.
  assert (E : forall k, ltrim (k ++ [a]) = ltrim k ++ [a]).
  { clear -Hl. induction k as [|b k IH]; cbn [ltrim app]; [by rewrite Hl|].
    destruct (is_white_space b); [exact IH|done]. }
  rewrite E, reverse_snoc in Hc. exact Hc.
Qed.

Lemma trim_tidy s : tidy (trim s).
Proof.
  split; intros c; rewrite chars_trim.
  - intros Hc. pose proof (rtrim_head _ _ Hc (ltrim_head _)) as Hc'.
    by apply ltrim_head in Hc'.
  - rewrite last_reverse. apply ltrim_head.
Qed.

Lemma tidy_trim s : tidy s -> trim s = s.
Proof.
  intros [Hh Hl]. apply chars_inj. rewrite chars_trim.
  rewrite (ltrim_fixed (chars s) Hh).
  rewrite ltrim_fixed; [apply reverse_involutive|].
  intros c. rewrite head_reverse. apply Hl.
Qed.

Lemma trim_idempotent s : trim (trim s) = trim s.
Proof. apply tidy_trim, trim_tidy. Qed.

Lemma trim_blank s : trim s = "" <-> blank s.
Proof.
  unfold blank. split.
  - intros H. apply (f_equal chars) in H. rewrite chars_trim in H.
    change (chars "") with (@nil Ascii.ascii) in H.
    apply (f_equal reverse) in H. rewrite reverse_involutive in H.
    cbn in H. apply ltrim_nil in H. rewrite Forall_reverse in H.
    destruct (ltrim_suffix (chars s)) as [pre Hpre].
    destruct (ltrim (chars s)) as [|a k] eqn:E; [by apply ltrim_nil|].
    apply Forall_cons in H as [Ha _].
    pose proof (ltrim_head (chars s) a) as Hh. rewrite E in Hh.
    specialize (Hh eq_refl). congruence.
  - intros H. apply chars_inj. rewrite chars_trim.
    apply ltrim_nil in H. by rewrite H.
Qed.

Lemma chars_app s1 s2 : chars (s1 +:+ s2) = chars s1 ++ chars s2.
Proof.
  induction s1 as [|c s1 IH]; [done|]. unfold chars in *.
  change (String c s1 +:+ s2) with (String c (s1 +:+ s2)).
  cbn [String.list_ascii_of_string app]. by rewrite IH.
Qed.

(** A tidy string stays tidy when a scheme is put before it. *)
Lemma tidy_addScheme s : tidy s -> s <> "" -> tidy (Registry.addScheme s).
Proof.
  intros Ht Hne. unfold Registry.addScheme.
  destruct (_ && _); [|done]. destruct Ht as [_ Hl]. split.
  - intros c. rewrite chars_app. by intros [= <-].
  - intros c. rewrite chars_app, last_app.
    destruct (last (chars s)) as [b|] eqn:E.
    + intros [= <-]. by apply Hl.
    + apply last_None in E. destruct s; [done|discriminate].
Qed.
End TrimProperties.

(** ** The registry and its storage *)

Section RegistryMoreProperties.
Import Registry RegistrySpec RegistryMore StringSpec.
Variable host : nat -> Z * string.
Implicit Types (st : State) (s : Site).

Lemma saveSites_mirrored st :
  storageWorks st = true ->
  mirrored (saveSites st) /\ storageWorks (saveSites st) = true.
Proof. intros H. unfold saveSites, mirrored. by rewrite H. Qed.

(** X4. While the storage works, it mirrors the registry: loadSites
    leaves the two equal, and saving the form, deleting, dropping and
    importing keep them equal, whether they change the registry or refuse
    to. *)
Theorem X4_storage_mirrors_registry st :
  storageWorks st = true ->
  mirrored (loadSites st)
  /\ (mirrored st ->
      (forall form, mirrored (saveSite host form st))
      /\ (forall target, mirrored (deleteSite target st))
      /\ (forall drag target isAbove, mirrored (dropSite drag target isAbove st))
      /\ (forall file replace, mirrored (handleFileImport host file replace st).1)).
Proof.
  intros Hw. split.
  { unfold loadSites. rewrite Hw. destruct (storage st) as [[|s l]|] eqn:E.
    - by apply saveSites_mirrored.
    - unfold mirrored. cbn. exact E.
    - by apply saveSites_mirrored. }
  intros Hm. split; [|split; [|split]].
  - intros form. unfold saveSite. destruct (_ || _); [done|].
    destruct (truthy _).
    + destruct (list_find _ _) as [[i old]|]; by apply saveSites_mirrored.
    + destruct (generateId_storage host st) as (_ & H2 & _).
      destruct (generateId host st) as [g st1]. cbn [snd] in H2.
      apply saveSites_mirrored. cbn. congruence.
  - intros target. by apply saveSites_mirrored.
  - intros drag target isAbove. unfold dropSite.
    destruct (Reorder.handleDrop _ _ _ _); [by apply saveSites_mirrored|done].
  - intros file replace. unfold handleFileImport.
    destruct file as [[| | | | |candidates|]|]; try done.
    destruct (toSites_storage host (filter hasRequiredFields candidates) st) as [H1 H2].
    pose proof (toSites_nil host (filter hasRequiredFields candidates) st) as Hnil.
    destruct (toSites host _ st) as [[|s l] st1]; cbn [fst snd] in *.
    + destruct (Hnil eq_refl) as [_ ->]. done.
    + destruct replace; apply saveSites_mirrored; cbn; congruence.
Qed.

(** X5. The start of the script never leaves the registry empty.
    While the storage works it takes the stored sites when there are some
    and the default sites otherwise, so that a registry that the storage
    mirrors comes back as it was, except the empty one, which comes back
    as the seven default sites.  When the storage cannot be read it takes
    the default sites and stores nothing. *)
Theorem X5_registry_after_restart st :
  sites (Dialog.init st) <> []
  /\ (storageWorks st = true -> mirrored st ->
      sites (Dialog.init st)
      = match sites st with [] => DEFAULT_SITES | _ :: _ => sites st end)
  /\ (storageWorks st = false ->
      sites (Dialog.init st) = DEFAULT_SITES
      /\ storage (Dialog.init st) = storage st).
Proof.
  unfold Dialog.init, loadSites. cbn [storage storageWorks set_sites].
  split; [|split].
  - destruct (storageWorks st); [|done].
    destruct (storage st) as [[|s l]|]; rewrite ?saveSites_sites; done.
  - intros -> Hm. rewrite Hm.
    destruct (sites st); rewrite ?saveSites_sites; done.
  - by intros ->.
Qed.

(** X6. The form is refused, and nothing at all changes, when the name or
    the url holds white space only.  Otherwise a new site is appended after
    the others: its name is the entered name without the white space at
    its ends, its url is the trimmed entry with https:// before it unless
    it starts with http:// or https://, and neither has white space at
    either end. *)
Theorem X6_form_validation form st :
  (blank (siteName form) \/ blank (siteUrl form) ->
   saveSite host form st = st)
  /\ (~ blank (siteName form) -> ~ blank (siteUrl form) ->
      truthy (editingSiteId form) = false ->
      exists s,
        sites (saveSite host form st) = sites st ++ [s]
        /\ id s = JStr (generateId host st).1
        /\ name s = trim (siteName form)
        /\ url s = addScheme (trim (siteUrl form))
        /\ color s = selectedColor form
        /\ tidy (name s) /\ name s <> ""
        /\ tidy (url s) /\ has_scheme (url s) = true
        /\ idCalls (saveSite host form st) = S (idCalls st)).
Proof.
  split.
  - intros H. unfold saveSite.
    destruct H as [H|H]; apply trim_blank in H; rewrite H; [done|].
    by rewrite orb_true_r.
  - intros Hn Hu He. unfold saveSite.
    destruct (String.eqb (trim (siteName form)) "") eqn:En.
    { apply String.eqb_eq, trim_blank in En. done. }
    destruct (String.eqb (trim (siteUrl form)) "") eqn:Eu.
    { apply String.eqb_eq, trim_blank in Eu. done. }
    cbn [orb]. rewrite He.
    destruct (generateId_storage host st) as (_ & _ & Hcalls).
    pose proof (generateId_sites host st) as Hs.
    destruct (generateId host st) as [g st1]. cbn [fst snd] in *.
    eexists. rewrite saveSites_sites. cbn [sites set_sites]. rewrite Hs.
    split; [reflexivity|]. cbn [id name url color].
    repeat split; try apply trim_tidy; try done.
    + by apply eqb_empty_false.
    + apply tidy_addScheme; [apply trim_tidy|by apply eqb_empty_false].
    + apply tidy_addScheme; [apply trim_tidy|by apply eqb_empty_false].
    + apply addScheme_has_scheme.
    + unfold saveSites. destruct (storageWorks _); cbn; exact Hcalls.
Qed.
End RegistryMoreProperties.

Lemma X4_witness :
  RegistryMore.mirrored (Registry.saveSite host0 add_example installed)
  /\ RegistryMore.mirrored
       (Registry.handleFileImport host0 (Some (JArr file_x)) false installed).1.
Proof.
  destruct (X4_storage_mirrors_registry host0 installed eq_refl) as [_ H].
  destruct (H eq_refl) as (Hsave & _ & _ & Himport).
  split; [apply Hsave|apply Himport].
Defined.

Lemma X5_witness :
  Registry.sites (Dialog.init emptied) = Registry.DEFAULT_SITES
  /\ Registry.sites (Dialog.init renamed) = Registry.sites renamed
  /\ Registry.sites (Dialog.init unreadable) = Registry.DEFAULT_SITES.
Proof.
  destruct (X5_registry_after_restart emptied) as (_ & H1 & _).
  destruct (X5_registry_after_restart renamed) as (_ & H2 & _).
  destruct (X5_registry_after_restart unreadable) as (_ & _ & H3).
  split; [|split].
  - apply (H1 eq_refl eq_refl).
  - apply (H2 eq_refl). by vm_compute.
  - apply (H3 eq_refl).
Defined.

Lemma X6_witness :
  Registry.saveSite host0 blank_name installed = installed
  /\ Registry.name <$> last (Registry.sites (Registry.saveSite host0 add_example installed))
     = Some "Example"%string.
Proof.
  split.
  - apply (proj1 (X6_form_validation host0 blank_name installed)).
    left. repeat constructor.
  - by vm_compute.
Defined.

(** ** Editing and deleting *)

Section EditDeleteProperties.
Import Registry RegistrySpec RegistryMore StringSpec.
Variable host : nat -> Z * string.
Implicit Types (st : State) (s : Site).

Lemma filter_all {B} (P : B -> Prop) `{!forall x, Decision (P x)} (l : list B) :
  Forall P l -> filter P l = l.
Proof.
  induction 1 as [|x l Hx _ IH]; [done|].
  by rewrite filter_cons_True, IH.
Qed.

Lemma has_scheme_addScheme (u : string) : has_scheme u = true -> addScheme u = u.
Proof. intros H. by rewrite addScheme_spec, H. Qed.

(** X7. Opening the edit dialog on a site and saving it as it stands
    changes no site, for a site that is the first with its id, whose id and
    color are truthy, whose name and url have no white space at either end
    and whose url has a scheme: what saveSite made of an entry, it makes
    again. *)
Theorem X7_edit_without_change st (i : nat) s :
  sites st !! i = Some s ->
  (forall j s', (j < i)%nat -> sites st !! j = Some s' -> id s' <> id s) ->
  truthy (id s) = true ->
  truthy (color s) = true ->
  tidy (name s) -> name s <> "" ->
  tidy (url s) -> has_scheme (url s) = true ->
  sites (saveSite host (Dialog.openEditModal s) st) = sites st.
Proof.
  intros Hi Hfirst Hid Hcolor Hn Hne Hu Hs.
  unfold saveSite, Dialog.openEditModal.
  cbn [siteName siteUrl selectedColor editingSiteId or_else].
  rewrite (tidy_trim _ Hn), (tidy_trim _ Hu), Hid, Hcolor.
  assert (Hue : url s <> "") by (intros E; rewrite E in Hs; discriminate).
  replace (String.eqb (name s) "") with false
    by (symmetry; by apply String.eqb_neq).
  replace (String.eqb (url s) "") with false
    by (symmetry; by apply String.eqb_neq).
  cbn [orb]. rewrite (has_scheme_addScheme _ Hs).
  assert (Hfind : list_find (fun s' => id s' = id s) (sites st) = Some (i, s)).
  { apply list_find_Some. split; [done|]. split; [done|].
    intros j s' Hj Hlt. by apply Hfirst with j. }
  rewrite Hfind, saveSites_sites. cbn [sites set_sites].
  apply list_insert_id. rewrite Hi. by destruct s.
Qed.

(** X8. Saving the edit of a site whose id is not an array or an object
    (the ids that the script makes are strings) changes no id, hence
    neither the number of sites nor their order, and leaves every site with
    another id as it is; when no site has the id that is being edited, no
    site changes.  No id is generated. *)
Theorem X8_edit_is_local form st :
  truthy (editingSiteId form) = true ->
  primitive (editingSiteId form) = true ->
  let st' := saveSite host form st in
  id <$> sites st' = id <$> sites st
  /\ (forall j s, sites st !! j = Some s -> id s <> editingSiteId form ->
        sites st' !! j = Some s)
  /\ (editingSiteId form ∉ id <$> sites st -> sites st' = sites st)
  /\ idCalls st' = idCalls st.
Proof.
  intros He _ st'. subst st'. unfold saveSite.
  destruct (_ || _); [done|]. rewrite He.
  destruct (list_find _ (sites st)) as [[i old]|] eqn:Ef.
  - apply list_find_Some in Ef as (Hi & Hid & _).
    rewrite saveSites_sites. cbn [sites set_sites].
    split; [|split; [|split]].
    + rewrite list_fmap_insert. cbn [id]. apply list_insert_id.
      by rewrite list_lookup_fmap, Hi.
    + intros j s Hj Hne. rewrite list_lookup_insert_ne; [done|].
      intros <-. congruence.
    + intros Hnot. exfalso. apply Hnot. rewrite <- Hid.
      apply list_elem_of_fmap_2. by apply list_elem_of_lookup_2 in Hi.
    + unfold saveSites. by destruct (storageWorks _).
  - rewrite saveSites_sites. repeat split; try done.
    unfold saveSites. by destruct (storageWorks _).
Qed.

Lemma filter_other_ids (l : list Site) (i : nat) s :
  NoDup (id <$> l) -> l !! i = Some s ->
  filter (fun s' => id s' <> id s) l = delete i l.
Proof.
  revert i. induction l as [|a l IH]; intros i Hnd Hi; [done|].
  rewrite fmap_cons in Hnd. apply NoDup_cons in Hnd as [Ha Hnd].
  destruct i as [|i]; cbn in Hi.
  - injection Hi as ->. rewrite filter_cons_False by tauto. cbn.
    apply filter_all.
    apply Forall_forall. intros s' Hs' E. apply Ha. rewrite <- E.
    by apply list_elem_of_fmap_2.
  - rewrite filter_cons_True.
    + cbn. f_equal. by apply IH.
    + intros E. apply Ha. rewrite E. apply list_elem_of_fmap_2.
      by apply list_elem_of_lookup_2 in Hi.
Qed.

(** X9. Deleting a site whose id is not an array or an object (the ids
    that the script makes are strings) removes every site with its id and
    nothing else: no site of the registry has that id afterwards, the sites
    with another id stay, in their order, and deleting again changes
    nothing.  When the ids are unique, the registry loses the one site, at
    its index. *)
Theorem X9_delete_by_id target st :
  primitive (id target) = true ->
  let st' := deleteSite target st in
  (id target ∉ id <$> sites st')
  /\ (sites st' `sublist_of` sites st)
  /\ (forall s, s ∈ sites st -> id s <> id target -> s ∈ sites st')
  /\ sites (deleteSite target st') = sites st'
  /\ (forall i, NoDup (id <$> sites st) -> sites st !! i = Some target ->
        sites st' = delete i (sites st)).
Proof.
  intros _ st'. subst st'. unfold deleteSite. rewrite !saveSites_sites.
  cbn [sites set_sites]. rewrite ?saveSites_sites. cbn [sites set_sites].
  split; [|split; [|split; [|split]]].
  - intros H. apply list_elem_of_fmap in H as (s & E & Hs).
    apply list_elem_of_filter in Hs as [Hne _]. congruence.
  - apply sublist_filter.
  - intros s Hs Hne. by apply list_elem_of_filter.
  - rewrite list_filter_filter. apply list_filter_iff. tauto.
  - intros i Hnd Hi. by apply filter_other_ids.
Qed.

(** X10. Adding a site and deleting it gives back the sites there were,
    when the id that generateId returned was not in use. *)
Theorem X10_add_then_delete form st s :
  ~ blank (siteName form) -> ~ blank (siteUrl form) ->
  truthy (editingSiteId form) = false ->
  JStr (generateId host st).1 ∉ id <$> sites st ->
  last (sites (saveSite host form st)) = Some s ->
  sites (deleteSite s (saveSite host form st)) = sites st.
Proof.
  intros Hn Hu He Hfresh Hlast. unfold deleteSite.
  rewrite saveSites_sites. cbn [sites set_sites].
  unfold saveSite in *.
  destruct (String.eqb (trim (siteName form)) "") eqn:En.
  { apply String.eqb_eq, trim_blank in En. done. }
  destruct (String.eqb (trim (siteUrl form)) "") eqn:Eu.
  { apply String.eqb_eq, trim_blank in Eu. done. }
  cbn [orb] in *. rewrite He in *.
  pose proof (generateId_sites host st) as Hs.
  destruct (generateId host st) as [g st1]. cbn [fst snd] in *.
  rewrite saveSites_sites in *. cbn [sites set_sites] in *. rewrite Hs in *.
  rewrite last_snoc in Hlast. injection Hlast as <-. cbn [id].
  rewrite filter_app, filter_cons_False, filter_nil, app_nil_r by tauto.
  apply filter_all. apply Forall_forall. intros s' Hs' E.
  apply Hfresh. rewrite <- E. by apply list_elem_of_fmap_2.
Qed.
End EditDeleteProperties.

Lemma X7_witness :
  Registry.sites (Registry.saveSite host0 (Dialog.openEditModal github) installed)
  = Registry.DEFAULT_SITES.
Proof.
  apply (X7_edit_without_change host0 installed 3 github eq_refl).
  - intros j s' Hj Hs'. destruct j as [|[|[|j]]]; [..|lia];
      injection Hs' as <-; discriminate.
  - done.
  - done.
  - split; intros c [= <-]; by vm_compute.
  - discriminate.
  - split; intros c [= <-]; by vm_compute.
  - by vm_compute.
Defined.

Lemma X8_witness :
  Registry.id <$> Registry.sites (Registry.saveSite host0 rename_github installed)
  = Registry.id <$> Registry.DEFAULT_SITES
  /\ Registry.sites (Registry.saveSite host0 rename_github installed) !! 3%nat
     = Some {| Registry.id := JStr "github"; Registry.name := "GH";
               Registry.url := "https://github.com/explore";
               Registry.color := JStr "#000000" |}.
Proof.
  split; [|by vm_compute].
  apply (X8_edit_is_local host0 rename_github installed eq_refl eq_refl).
Defined.

Lemma X9_witness :
  Registry.sites (Registry.deleteSite github installed)
  = delete 3%nat Registry.DEFAULT_SITES.
Proof.
  apply (X9_delete_by_id github installed eq_refl).
  - eapply bool_decide_unpack. by vm_compute.
  - done.
Defined.

Lemma X10_witness :
  Registry.sites
    (Registry.deleteSite
       {| Registry.id := JStr "site_1700000000000_k3j9x0a1b";
          Registry.name := "Example"; Registry.url := "https://example.com";
          Registry.color := JStr "#4a9eff" |}
       (Registry.saveSite host0 add_example installed))
  = Registry.DEFAULT_SITES.
Proof.
  apply (X10_add_then_delete host0 add_example installed).
  - intros H. apply trim_blank in H. by vm_compute in H.
  - intros H. apply trim_blank in H. by vm_compute in H.
  - done.
  - eapply bool_decide_unpack. by vm_compute.
  - by vm_compute.
Defined.

(** ** Generated ids and repeated imports *)

Section IdProperties.
Import Stdlib.Strings.Ascii.
Import Registry RegistrySpec RegistryMore StringSpec.
Implicit Types (st : State) (s : Site).

Lemma pretty_N_go_underscore (x : N) (acc : string) :
  "_"%char ∉ chars acc -> "_"%char ∉ chars (pretty_N_go x acc).
Proof.
  revert acc. induction (N.lt_wf_0 x) as [x _ IH]; intros acc Hacc.
  assert (x = 0 \/ 0 < x)%N as [->|Hpos] by lia.
  - by rewrite pretty_N_go_0.
  - rewrite pretty_N_go_step by done. apply IH; [by apply N.div_lt|].
    unfold chars in *. cbn [String.list_ascii_of_string].
    apply not_elem_of_cons. split; [|done].
    unfold pretty_N_char. by repeat case_match.
Qed.

Lemma pretty_N_underscore (x : N) : "_"%char ∉ chars (pretty x).
Proof.
  unfold pretty, pretty_N. case_decide.
  - by intros [[=]|[]%elem_of_nil]%elem_of_cons.
  - apply pretty_N_go_underscore, not_elem_of_nil.
Qed.

Lemma pretty_Z_underscore (z : Z) : "_"%char ∉ chars (pretty z).
Proof.
  destruct z as [|p|p]; unfold pretty, pretty_Z.
  - by intros [[=]|[]%elem_of_nil]%elem_of_cons.
  - apply pretty_N_underscore.
  - rewrite chars_app. apply not_elem_of_app. split.
    + by intros [[=]|[]%elem_of_nil]%elem_of_cons.
    + apply pretty_N_underscore.
Qed.

(** The first underscore of a text tells where its first part ends. *)
Lemma split_at_underscore (l1 l2 k1 k2 : list Ascii.ascii) :
  "_"%char ∉ l1 -> "_"%char ∉ l2 ->
  l1 ++ "_"%char :: k1 = l2 ++ "_"%char :: k2 ->
  l1 = l2 /\ k1 = k2.
Proof.
  revert l2. induction l1 as [|a l1 IH]; intros [|b l2] H1 H2 E; cbn in E.
  - by injection E as ->.
  - injection E as <- _. exfalso. apply H2, list_elem_of_here.
  - injection E as -> _. exfalso. apply H1, list_elem_of_here.
  - injection E as -> E. apply not_elem_of_cons in H1 as [_ H1].
    apply not_elem_of_cons in H2 as [_ H2].
    destruct (IH l2 H1 H2 E) as [-> ->]. done.
Qed.

Lemma id_text_inj (now1 now2 : Z) (random1 random2 : string) :
  "site_" +:+ pretty now1 +:+ "_" +:+ random1
  = "site_" +:+ pretty now2 +:+ "_" +:+ random2 ->
  now1 = now2 /\ random1 = random2.
Proof.
  intros E. apply (inj (String.app "site_")) in E.
  apply (f_equal chars) in E. rewrite !chars_app in E.
  change (chars "_" ++ chars random1) with ("_"%char :: chars random1) in E.
  change (chars "_" ++ chars random2) with ("_"%char :: chars random2) in E.
  apply split_at_underscore in E as [En Er]; [|apply pretty_Z_underscore..].
  apply chars_inj in En, Er. split; [|done]. by apply (inj pretty).
Qed.

Variable host : nat -> Z * string.

Lemma generateId_generated st :
  JStr (generateId host st).1 = generated host (idCalls st).
Proof. unfold generateId, generated. by destruct (host (idCalls st)). Qed.

Lemma generated_inj k1 k2 :
  generated host k1 = generated host k2 -> host k1 = host k2.
Proof.
  unfold generated. intros E. apply (f_equal (fun j => string_of (Some j))) in E.
  change ("site_" +:+ pretty (host k1).1 +:+ "_" +:+ (host k1).2
          = "site_" +:+ pretty (host k2).1 +:+ "_" +:+ (host k2).2) in E.
  apply id_text_inj in E as [E1 E2].
  destruct (host k1), (host k2). cbn in *. congruence.
Qed.

Lemma generated_not_default k : generated host k ∉ id <$> DEFAULT_SITES.
Proof.
  unfold generated. intros H.
  repeat (apply elem_of_cons in H as [H|H]; [by injection H as H|]).
  by apply elem_of_nil in H.
Qed.

(** X11. Two calls of generateId return the same id exactly when the
    clock and the random text were the same at both; the id is not empty
    and is the id of no default site. *)
Theorem X11_generated_ids_differ st1 st2 :
  ((generateId host st1).1 = (generateId host st2).1
   <-> host (idCalls st1) = host (idCalls st2))
  /\ (generateId host st1).1 <> ""
  /\ JStr (generateId host st1).1 ∉ id <$> DEFAULT_SITES.
Proof.
  split; [split|split].
  - intros E. apply generated_inj. rewrite <- !generateId_generated. by rewrite E.
  - intros E. unfold generateId.
    destruct (host (idCalls st1)), (host (idCalls st2)). by injection E as -> ->.
  - apply generateId_nonempty.
  - rewrite generateId_generated. apply generated_not_default.
Qed.

(** X12. With a host that never gives the same clock reading and random
    text twice, a registry that has the invariant of section 3 and whose
    ids are default or generated ones keeps both through every sequence of
    saved forms, deletions and drops: the ids stay unique without any
    assumption on what generateId returns. *)
Theorem X12_unique_ids_without_import st (actions : list Action) :
  Inj (=) (=) host ->
  registry_invariant (sites st) ->
  ids_accounted host st ->
  registry_invariant (sites (play host actions st))
  /\ ids_accounted host (play host actions st).
Proof.
  intros Hinj. revert st. induction actions as [|a actions IH]; intros st Hinv Hacc;
    [done|].
  cbn [play foldl]. apply IH; clear IH.
  - destruct a as [form|target|drag target isAbove]; cbn [act].
    + unfold saveSite.
      destruct (String.eqb (trim (siteName form)) "") eqn:En; [done|].
      destruct (String.eqb (trim (siteUrl form)) "") eqn:Eu; [done|].
      cbn [orb].
      assert (Hnew : forall i c, well_formed
                {| id := i; name := trim (siteName form);
                   url := addScheme (trim (siteUrl form)); color := c |}).
      { intros i c. repeat split; cbn [name url].
        - by apply eqb_empty_false.
        - by apply addScheme_nonempty, eqb_empty_false.
        - apply addScheme_has_scheme. }
      destruct Hinv as [Hnd Hwf].
      destruct (truthy (editingSiteId form)).
      * destruct (list_find _ (sites st)) as [[i old]|] eqn:Ef;
          rewrite saveSites_sites; [|done]. cbn [sites set_sites].
        apply list_find_Some in Ef as (Hi & _ & _). split.
        -- rewrite list_fmap_insert. cbn [id].
           rewrite list_insert_id; [done|]. by rewrite list_lookup_fmap, Hi.
        -- by apply Forall_insert.
      * pose proof (generateId_generated st) as Hg.
        pose proof (generateId_sites host st) as Hs.
        destruct (generateId host st) as [g st1]. cbn [fst snd] in *.
        rewrite saveSites_sites. cbn [sites set_sites]. rewrite Hs. split.
        -- rewrite fmap_app. apply NoDup_app. split; [done|]. split;
             [|apply NoDup_singleton].
           intros x Hx Hx'. apply list_elem_of_singleton in Hx'. subst x.
           cbn [id] in Hx. rewrite Hg in Hx.
           apply list_elem_of_fmap in Hx as (s & E & Hs').
           destruct (Hacc s Hs') as [Hd|(k & Hk & Hgen)].
           ++ rewrite <- E in Hd. by apply generated_not_default in Hd.
           ++ rewrite <- E in Hgen. apply generated_inj, Hinj in Hgen. lia.
        -- apply Forall_app. split; [done|]. by apply Forall_singleton.
    + unfold deleteSite. rewrite saveSites_sites. cbn [sites set_sites].
      by apply registry_invariant_filter.
    + unfold dropSite.
      destruct (Reorder.handleDrop _ _ _ _) as [l'|] eqn:E; [|done].
      rewrite saveSites_sites. cbn [sites set_sites].
      apply handleDrop_Some in E as (from & to & ->).
      eapply registry_invariant_Permutation; [apply move_Permutation|done].
  - destruct a as [form|target|drag target isAbove]; cbn [act].
    + unfold saveSite. destruct (_ || _); [done|].
      destruct (truthy (editingSiteId form)).
      * destruct (list_find _ (sites st)) as [[i old]|] eqn:Ef.
        -- apply list_find_Some in Ef as (Hi & _ & _).
           intros s. rewrite saveSites_sites. cbn [sites set_sites].
           replace (idCalls (saveSites _)) with (idCalls st)
             by (unfold saveSites; by destruct (storageWorks _)).
           intros Hs. apply list_elem_of_lookup in Hs as [j Hj].
           apply list_lookup_insert_Some in Hj as [(-> & <- & _)|[_ Hj]].
           ++ cbn [id]. apply Hacc. by apply list_elem_of_lookup_2 in Hi.
           ++ apply Hacc. by apply list_elem_of_lookup_2 in Hj.
        -- intros s. rewrite saveSites_sites.
           replace (idCalls (saveSites _)) with (idCalls st)
             by (unfold saveSites; by destruct (storageWorks _)).
           apply Hacc.
      * pose proof (generateId_generated st) as Hg.
        pose proof (generateId_sites host st) as Hs.
        assert (Hc : idCalls (generateId host st).2 = S (idCalls st))
          by (unfold generateId; by destruct (host (idCalls st))).
        destruct (generateId host st) as [g st1]. cbn [fst snd] in *.
        intros s. rewrite saveSites_sites. cbn [sites set_sites].
        replace (idCalls (saveSites _)) with (S (idCalls st))
          by (unfold saveSites; destruct (storageWorks _); cbn; congruence).
        rewrite Hs. intros [Hin|Hin%list_elem_of_singleton]%elem_of_app.
        -- destruct (Hacc s Hin) as [Hd|(k & Hk & Hgen)]; [by left|].
           right. exists k. split; [lia|done].
        -- subst s. cbn [id]. right. exists (idCalls st). split; [lia|done].
    + intros s. unfold deleteSite. rewrite saveSites_sites. cbn [sites set_sites].
      replace (idCalls (saveSites _)) with (idCalls st)
        by (unfold saveSites; by destruct (storageWorks _)).
      intros [_ Hs]%list_elem_of_filter. by apply Hacc.
    + unfold dropSite.
      destruct (Reorder.handleDrop _ _ _ _) as [l'|] eqn:E; [|done].
      apply handleDrop_Some in E as (from & to & ->).
      intros s. rewrite saveSites_sites. cbn [sites set_sites].
      replace (idCalls (saveSites _)) with (idCalls st)
        by (unfold saveSites; by destruct (storageWorks _)).
      rewrite move_Permutation. apply Hacc.
Qed.
End IdProperties.

Section RepeatedImport.
Import Registry RegistrySpec RegistryMore.
Variable host : nat -> Z * string.
Implicit Types (st : State) (s : Site).

(** The urls of the valid set are those of the file, whatever the state
    the import starts from. *)
Lemma toSites_urls (l : list json) st :
  url <$> (toSites host l st).1 = (fun c => string_of (prop c "url")) <$> l.
Proof.
  revert st. induction l as [|c l IH]; intros st; [done|]. cbn [toSites].
  assert (Hu : url (toSite host c st).1 = string_of (prop c "url")).
  { unfold toSite. destruct (prop c "id") as [v|]; [destruct (truthy v)|];
      try destruct (generateId host st); done. }
  destruct (toSite host c st) as [s st1]. specialize (IH st1).
  destruct (toSites host l st1). cbn [fst] in *. rewrite fmap_cons.
  by rewrite Hu, IH.
Qed.

(** X13. Importing a file in merge mode a second time adds nothing: the
    registry after the second import is the registry after the first. *)
Theorem X13_merge_twice candidates st :
  let st1 := (handleFileImport host (Some (JArr candidates)) false st).1 in
  let st2 := (handleFileImport host (Some (JArr candidates)) false st1).1 in
  sites st2 = sites st1.
Proof.
  intros st1 st2.
  destruct (handleFileImport_sites host candidates false st) as [Hnil1 Hcons1].
  destruct (handleFileImport_sites host candidates false st1) as [Hnil2 Hcons2].
  fold st1 in Hnil1, Hcons1. fold st2 in Hnil2, Hcons2.
  set (F := filter hasRequiredFields candidates) in *.
  pose proof (toSites_urls F st) as Hu1.
  pose proof (toSites_urls F st1) as Hu2.
  destruct (toSites host F st1).1 as [|s2 l2] eqn:E2.
  { subst st2. by rewrite (Hnil2 eq_refl). }
  destruct (Hcons2 ltac:(done)) as [_ ->].
  destruct (toSites host F st).1 as [|s1 l1] eqn:E1.
  { rewrite <- Hu2 in Hu1. discriminate. }
  destruct (Hcons1 ltac:(done)) as [_ Hs1].
  rewrite filter_none; [by rewrite app_nil_r|].
  intros s Hs Hnot. apply Hnot.
  apply (list_elem_of_fmap_2 url) in Hs. rewrite Hu2, <- Hu1 in Hs.
  apply list_elem_of_fmap in Hs as (s' & -> & Hs').
  rewrite Hs1, fmap_app. apply elem_of_app.
  destruct (decide (url s' ∈ url <$> sites st)) as [Hin|Hout]; [by left|right].
  apply list_elem_of_fmap_2. by apply list_elem_of_filter.
Qed.
End RepeatedImport.

Lemma X11_witness :
  (Registry.generateId frozen installed).1
  = (Registry.generateId frozen (Registry.saveSite frozen add_example installed)).1
  /\ (Registry.generateId host0 installed).1
     <> (Registry.generateId host0 (Registry.saveSite host0 add_example installed)).1.
Proof.
  split.
  - apply (X11_generated_ids_differ frozen installed
             (Registry.saveSite frozen add_example installed)). by vm_compute.
  - intros E.
    apply (X11_generated_ids_differ host0 installed
             (Registry.saveSite host0 add_example installed)) in E.
    by vm_compute in E.
Defined.

Lemma host0_inj : Inj (=) (=) host0.
Proof. intros m n E. unfold host0 in E. injection E as E. lia. Qed.

Lemma X12_witness :
  NoDup (Registry.id <$> Registry.sites (RegistryMore.play host0 session installed))
  /\ length (Registry.sites (RegistryMore.play host0 session installed)) = 8%nat.
Proof.
  split; [|by vm_compute].
  apply (X12_unique_ids_without_import host0 installed session host0_inj).
  - split; [eapply bool_decide_unpack; by vm_compute|].
    repeat constructor; by vm_compute.
  - intros s Hs. left. by apply list_elem_of_fmap_2.
Defined.

Lemma X13_witness :
  Registry.sites
    (Registry.handleFileImport host0 (Some (JArr file_twice)) false
       (Registry.handleFileImport host0 (Some (JArr file_twice)) false installed).1).1
  = Registry.sites
      (Registry.handleFileImport host0 (Some (JArr file_twice)) false installed).1
  /\ length (Registry.sites
       (Registry.handleFileImport host0 (Some (JArr file_twice)) false installed).1)
     = 9%nat.
Proof.
  split; [apply (X13_merge_twice host0 file_twice installed)|by vm_compute].
Defined.

(** ** The favicon cache, continued *)

Section FaviconMore.
Import Favicon FaviconSpec.
Variable respond : string -> Outcome.
Variable latency : string -> Z.
Variable readerFails : Blob -> bool.
Variable base64 : list Byte.byte -> string.
Variable hostname : string -> option string.
Variable reads : string -> Z -> Read.
Variable writes : string -> Z -> Write.

Local Abbreviation rejected := (rejected respond readerFails).
Local Abbreviation acceptable := (acceptable respond readerFails base64).
Local Abbreviation elapsed := (elapsed latency).
Local Abbreviation fetched := (fetched latency).
Local Abbreviation after_requests := (after_requests latency).
Local Abbreviation trySources :=
  (trySources respond latency readerFails base64 writes).
Local Abbreviation fetchAndCacheFavicon :=
  (fetchAndCacheFavicon respond latency readerFails base64 writes).
Local Abbreviation getCachedFavicon := (getCachedFavicon reads).
Local Abbreviation getFavicon :=
  (getFavicon respond latency readerFails base64 hostname reads writes).

Implicit Types (w : World) (url domain d : string) (urls : list string).

(** What a resolution does to the world, whichever way it ends. *)
Lemma getFavicon_world siteUrl domain w :
  hostname siteUrl = Some domain ->
  exists pre puts,
    pre `prefix_of` sources domain
    /\ log (getFavicon siteUrl w).2 = puts ++ requests pre ++ log w
    /\ clock (getFavicon siteUrl w).2 = clock w + elapsed pre
    /\ ((puts = [] /\ db (getFavicon siteUrl w).2 = db w)
        \/ (exists d store,
              let e := {| Favicon.domain := domain; dataUrl := d;
                          timestamp := clock (getFavicon siteUrl w).2 |} in
              d <> ""
              /\ db w = Some store
              /\ writes domain (clock (getFavicon siteUrl w).2) = WriteCompletes
              /\ (getFavicon siteUrl w).1 = Ok (Some d)
              /\ puts = [Put e]
              /\ db (getFavicon siteUrl w).2 = Some (<[domain := e]> store)))
    /\ (pre = [] -> (getFavicon siteUrl w).2 = w)
    /\ (db w = None -> pre <> []).
Proof.
  intros Hh.
  assert (Hstay : forall res,
    getFavicon siteUrl w = (res, w) -> is_Some (db w) ->
    exists pre puts,
      pre `prefix_of` sources domain
      /\ log (getFavicon siteUrl w).2 = puts ++ requests pre ++ log w
      /\ clock (getFavicon siteUrl w).2 = clock w + elapsed pre
      /\ ((puts = [] /\ db (getFavicon siteUrl w).2 = db w)
          \/ (exists d store,
                let e := {| Favicon.domain := domain; dataUrl := d;
                            timestamp := clock (getFavicon siteUrl w).2 |} in
                d <> ""
                /\ db w = Some store
                /\ writes domain (clock (getFavicon siteUrl w).2) = WriteCompletes
                /\ (getFavicon siteUrl w).1 = Ok (Some d)
                /\ puts = [Put e]
                /\ db (getFavicon siteUrl w).2 = Some (<[domain := e]> store)))
      /\ (pre = [] -> (getFavicon siteUrl w).2 = w)
      /\ (db w = None -> pre <> [])).
  { intros res -> [store Hopen]. exists [], []. cbn [snd].
    split; [apply prefix_nil|]. split; [done|].
    split; [unfold FaviconSpec.elapsed; cbn; lia|].
    split; [by left|]. split; [done|]. intros Hclosed. congruence. }
  destruct (getCachedFavicon_pure reads domain w) as [[c Hc]|(Hc & Hopen & _)].
  2: { apply (Hstay (Ok None)); [|done].
       by apply (getFavicon_lookup_throws respond latency readerFails base64
                   hostname reads writes siteUrl domain). }
  pose proof (getFavicon_domain respond latency readerFails base64 hostname
                reads writes siteUrl domain w c Hh Hc) as Hrun.
  destruct (is_truthy c) eqn:Et.
  { apply (Hstay (Ok c)); [done|].
    unfold Favicon.getCachedFavicon in Hc. destruct (db w); [done|].
    injection Hc as <-. done. }
  rewrite Hrun. unfold Favicon.fetchAndCacheFavicon.
  destruct (trySources_world respond latency readerFails base64 writes
              domain (sources domain) w)
    as (pre & puts & Hpre & Hne & Hl & Hclock & Hputs).
  exists pre, puts. do 4 (split; [done|]).
  assert (Hsome : pre <> []) by (by apply Hne).
  split; [done|]. done.
Qed.

(** X14. An icon that was fetched and stored is served from the cache
    afterwards: when a resolution with the database open made a request
    and returned [d], and its write completed, every resolution for the
    same site that starts from the store it left, less than 7 days later,
    and whose lookup succeeds, returns [d] and does nothing else. *)
Theorem X14_fetched_icon_is_cached siteUrl domain w d w1 w2 :
  hostname siteUrl = Some domain ->
  is_Some (db w) ->
  getFavicon siteUrl w = (Ok (Some d), w1) ->
  log w1 <> log w ->
  writes domain (clock w1) = WriteCompletes ->
  db w2 = db w1 ->
  reads domain (clock w2) = ReadSucceeds ->
  clock w2 - clock w1 < CACHE_DURATION ->
  getFavicon siteUrl w2 = (Ok (Some d), w2).
Proof.
  intros Hh [store Hdb] Hrun Hreq Hwrite Hdb2 Hread Hfresh.
  assert (Hchain : fetchAndCacheFavicon domain w = (Ok (Some d), w1)).
  { destruct (getCachedFavicon_pure reads domain w) as [[c Hc]|(Hc & _ & _)].
    - rewrite (getFavicon_domain respond latency readerFails base64 hostname
                 reads writes siteUrl domain w c Hh Hc) in Hrun.
      destruct (is_truthy c); [|done]. by injection Hrun as _ <-.
    - rewrite (getFavicon_lookup_throws respond latency readerFails base64
                 hostname reads writes siteUrl domain w Hh Hc) in Hrun.
      done. }
  unfold Favicon.fetchAndCacheFavicon in Hchain.
  destruct (trySources_outcome respond latency readerFails base64 writes
              domain (sources domain) w)
    as (pre & _ & _ & [[_ Hend]|[(d' & Hd & _ & Hend)|[_ Hend]]]);
    rewrite Hend in Hchain; [done| |done].
  destruct (after_requests_world latency pre w) as (Hdb' & _ & _).
  destruct (stored_world domain d' (after_requests pre w))
    as (Hclock & Hstore & _).
  assert (Hw1 : w1 = stored domain d' (after_requests pre w) /\ d' = d).
  { destruct (taken_cases writes domain d' (after_requests pre w))
      as [[E [Hc|Hc]]|[[E _]|[[E _]|[E _]]]]; rewrite E in Hchain;
      try done; injection Hchain as <- <-; [congruence| |done].
    exfalso. rewrite Hwrite in Hc. done. }
  destruct Hw1 as [-> ->].
  rewrite Hdb', Hdb in Hstore. cbn in Hstore.
  assert (Hcached : getCachedFavicon domain w2 = (Ok (Some d), w2)).
  { unfold Favicon.getCachedFavicon.
    rewrite Hdb2, Hstore, Hread, lookup_insert_eq.
    cbn [timestamp dataUrl]. rewrite <- Hclock.
    by replace (_ <? _) with true by lia. }
  rewrite (getFavicon_domain respond latency readerFails base64 hostname
             reads writes siteUrl domain w2 _ Hh Hcached).
  cbn [is_truthy]. by destruct d.
Qed.

(** X15. A resolution leaves the records of the other domains alone, and
    neither opens nor closes the database. *)
Theorem X15_other_domains_untouched siteUrl domain other w :
  hostname siteUrl = Some domain ->
  other <> domain ->
  (fun store => store !! other) <$> db (getFavicon siteUrl w).2
  = (fun store => store !! other) <$> db w.
Proof.
  intros Hh Hne.
  destruct (getFavicon_world siteUrl domain w Hh)
    as (pre & puts & _ & _ & _ & Hputs & _).
  destruct Hputs as [[_ ->]|(d & store & _ & -> & _ & _ & _ & ->)]; [done|].
  cbn. by rewrite lookup_insert_ne.
Qed.

(** X16. A resolution requests the sources of its domain only, each once
    at most and in their order, stopping where it likes: what it adds to
    the log is the requests of the first sources, six at most, followed by
    one put at most, of a record for the domain with the time of the end of
    the resolution. *)
Theorem X16_requests_follow_the_sources siteUrl domain w :
  hostname siteUrl = Some domain ->
  let w' := (getFavicon siteUrl w).2 in
  exists pre puts,
    pre `prefix_of` sources domain
    /\ (length pre <= 6)%nat
    /\ log w' = puts ++ requests pre ++ log w
    /\ clock w' = clock w + elapsed pre
    /\ (puts = []
        \/ exists d, puts = [Put {| Favicon.domain := domain; dataUrl := d;
                                    timestamp := clock w' |}]).
Proof.
  intros Hh w'. subst w'.
  destruct (getFavicon_world siteUrl domain w Hh)
    as (pre & puts & Hpre & Hl & Hc & Hputs & _).
  exists pre, puts. split; [done|]. split.
  { apply prefix_length in Hpre. by cbn in Hpre. }
  do 2 (split; [done|]).
  destruct Hputs as [[-> _]|(d & store & _ & _ & _ & _ & -> & _)];
    [by left|right; by exists d].
Qed.

(** X17. While the database is not open nothing is cached: the database
    stays closed, no record is put, and every resolution of a site whose
    host name parses starts with a request to the first source. *)
Theorem X17_nothing_cached_without_database siteUrl w :
  db w = None ->
  let w' := (getFavicon siteUrl w).2 in
  db w' = None
  /\ filter is_put (log w') = filter is_put (log w)
  /\ (forall domain, hostname siteUrl = Some domain ->
        exists new,
          log w' = new ++ Fetch ("https://icons.duckduckgo.com/ip3/" +:+ domain +:+ ".ico")
                       :: log w).
Proof.
  intros Hdb w'. subst w'.
  destruct (hostname siteUrl) as [domain|] eqn:Hh.
  2: { rewrite (getFavicon_no_hostname respond latency readerFails base64
                  hostname reads writes siteUrl w Hh). by repeat split. }
  destruct (getFavicon_world siteUrl domain w Hh)
    as (pre & puts & Hpre & Hl & _ & Hputs & _ & Hne).
  destruct Hputs as [[-> Hsame]|(d & store & _ & Hopen & _)]; [|congruence].
  assert (Hnone : filter is_put (requests pre) = []).
  { apply filter_none. intros ev Hev Hput. unfold FaviconSpec.requests in Hev.
    rewrite elem_of_reverse in Hev.
    apply list_elem_of_fmap in Hev as (u & -> & _). done. }
  split; [congruence|]. split; [by rewrite Hl, !filter_app, Hnone|].
  intros ? [= <-]. rewrite Hl.
  destruct pre as [|u pre]; [by destruct (Hne Hdb)|].
  destruct Hpre as [post Hs]. injection Hs as <- _.
  unfold FaviconSpec.requests. rewrite fmap_cons, reverse_cons, <- app_assoc.
  by eexists.
Qed.

(** X18. The store stays as cacheFavicon writes it: when every record is
    kept under its own domain and holds a non-empty data URL, this is so
    after a resolution too. *)
Theorem X18_records_stay_well_formed siteUrl w store :
  db w = Some store ->
  written_by_cacheFavicon store ->
  exists store',
    db (getFavicon siteUrl w).2 = Some store'
    /\ forall key e, store' !! key = Some e ->
         Favicon.domain e = key /\ dataUrl e <> "".
Proof.
  intros Hdb Hwf.
  destruct (getFavicon_written_by_cacheFavicon respond latency readerFails
              base64 hostname reads writes siteUrl w store Hdb Hwf)
    as (store' & Hs & Hw).
  exists store'. split; [done|]. exact Hw.
Qed.
End FaviconMore.

Lemma X14_witness :
  Favicon.getFavicon respond0 latency0 readerFails0 base64_0 hostname0
    reads0 writes0
    "https://example.com/page" six_days_later
  = (Favicon.Ok (Some ("data:image/x-icon;base64," +:+ base64_0 (Favicon.blobBytes icon))),
     six_days_later).
Proof.
  apply (X14_fetched_icon_is_cached respond0 latency0 readerFails0 base64_0
           hostname0 reads0 writes0 "https://example.com/page" example_domain
           (empty_cache 1000) _ first_visit six_days_later).
  - done.
  - by eexists.
  - by vm_compute.
  - by vm_compute.
  - done.
  - done.
  - done.
  - by vm_compute.
Defined.

Lemma X15_witness :
  (fun store : gmap string Favicon.Entry => store !! "github.com"%string)
    <$> Favicon.db
          (Favicon.getFavicon respond0 latency0 readerFails0 base64_0 hostname0
    reads0 writes0
             "https://example.com/page" github_cached).2
  = Some (Some github_icon).
Proof.
  rewrite (X15_other_domains_untouched respond0 latency0 readerFails0 base64_0
             hostname0 reads0 writes0 "https://example.com/page" example_domain
             "github.com" github_cached eq_refl ltac:(discriminate)).
  by vm_compute.
Defined.

Lemma X16_witness :
  exists pre puts,
    pre `prefix_of` Favicon.sources example_domain
    /\ length puts = 1%nat
    /\ Favicon.log first_visit = puts ++ FaviconSpec.requests pre.
Proof.
  destruct (X16_requests_follow_the_sources respond0 latency0 readerFails0
              base64_0 hostname0 reads0 writes0 "https://example.com/page" example_domain
              (empty_cache 1000) eq_refl)
    as (pre & puts & Hpre & _ & Hlog & _ & Hputs).
  exists pre, puts. split; [done|]. split.
  - destruct Hputs as [->|[d ->]]; [|done].
    apply (f_equal (fun l => length (filter FaviconSpec.is_put l))) in Hlog.
    rewrite app_nil_r, app_nil_l in Hlog.
    assert (Hnone : filter FaviconSpec.is_put (FaviconSpec.requests pre) = []).
    { apply filter_none. intros ev Hev Hput. unfold FaviconSpec.requests in Hev.
      rewrite elem_of_reverse in Hev.
      apply list_elem_of_fmap in Hev as (u & -> & _). done. }
    rewrite Hnone in Hlog. by vm_compute in Hlog.
  - by rewrite app_nil_r in Hlog.
Defined.

Lemma X17_witness :
  Favicon.db
    (Favicon.getFavicon respond0 latency0 readerFails0 base64_0 hostname0
    reads0 writes0
       "https://example.com/page" no_database).2 = None
  /\ (Favicon.getFavicon respond0 latency0 readerFails0 base64_0 hostname0
    reads0 writes0
        "https://example.com/page" no_database).1
     = Favicon.Ok (Some ("data:image/x-icon;base64," +:+ base64_0 (Favicon.blobBytes icon))).
Proof.
  split; [|by vm_compute].
  apply (X17_nothing_cached_without_database respond0 latency0 readerFails0
           base64_0 hostname0 reads0 writes0 "https://example.com/page" no_database eq_refl).
Defined.

Lemma X18_witness :
  exists store',
    Favicon.db
      (Favicon.getFavicon respond0 latency0 readerFails0 base64_0 hostname0
    reads0 writes0
         "https://example.com/page" github_cached).2 = Some store'
    /\ forall key e, store' !! key = Some e -> Favicon.domain e = key.
Proof.
  destruct (X18_records_stay_well_formed respond0 latency0 readerFails0 base64_0
              hostname0 reads0 writes0 "https://example.com/page" github_cached
              {[ "github.com"%string := github_icon ]} eq_refl)
    as (store' & Hs & Hw).
  - intros key e [<- <-]%lookup_singleton_Some. by split.
  - exists store'. split; [done|]. intros key e He. by apply Hw.
Defined.

(** ** Auto-hibernate, continued *)

Section IdleMoreProperties.
Import Idle IdleSpec IdleMore.
Implicit Types (st : State) (t : Z).

Lemma run_single evs st st' :
  single_timer st -> run evs st = Some st' -> single_timer st'.
Proof.
  revert st. induction evs as [|ev evs IH]; intros st Hone; cbn [run].
  - by intros [= <-].
  - destruct (step ev st) as [st1|] eqn:E; [|done].
    apply IH. by apply (step_single ev st).
Qed.

Lemma single_timer_size st :
  single_timer st -> (size (timers (browser st)) <= 1)%nat.
Proof.
  intros Hone. destruct (hibernateTimer (vars st)) as [held|] eqn:Eh.
  - assert (E : timers (browser st)
                = match timers (browser st) !! held with
                  | Some due => {[ held := due ]}
                  | None => ∅
                  end).
    { apply map_eq. intros k.
      destruct (decide (k = held)) as [->|Hne].
      - destruct (timers (browser st) !! held); [by rewrite lookup_singleton_eq|done].
      - assert (timers (browser st) !! k = None) as ->.
        { destruct (timers (browser st) !! k) as [due|] eqn:Ek; [|done].
          specialize (Hone _ _ Ek). congruence. }
        destruct (timers (browser st) !! held);
          [by rewrite lookup_singleton_ne|done]. }
    rewrite E. destruct (timers (browser st) !! held).
    + by rewrite map_size_singleton.
    + rewrite map_size_empty. lia.
  - assert (E : timers (browser st) = ∅).
    { apply map_eq. intros k. rewrite lookup_empty.
      destruct (timers (browser st) !! k) as [due|] eqn:Ek; [|done].
      specialize (Hone _ _ Ek). congruence. }
    rewrite E, map_size_empty. lia.
Qed.

(** X19. Only one idle timer is live at any time: after setup and any
    sequence of events, one timeout at most is pending, and it is the one
    that [hibernateTimer] holds. *)
Theorem X19_one_idle_timer (t0 : Z) (evs : list Event) st :
  run evs (setupActivityListeners (initial t0)) = Some st ->
  (size (timers (browser st)) <= 1)%nat
  /\ (forall timer due,
        timers (browser st) !! timer = Some due ->
        hibernateTimer (vars st) = Some timer).
Proof.
  intros Hrun.
  assert (Hone : single_timer st).
  { apply (run_single evs (setupActivityListeners (initial t0))); [|done].
    apply resetActivityTimer_single, initial_single. }
  split; [by apply single_timer_size|exact Hone].
Qed.

Lemma wake_when_coherent st :
  coherent st -> isHibernated (vars st) = true ->
  exists u, hibernatedUrl (vars st) = Some u /\ u <> "".
Proof.
  intros (_ & _ & Hh & _) Hhib. destruct (Hh Hhib) as [Hset _].
  destruct (hibernatedUrl (vars st)) as [u|]; [|done].
  exists u. split; [done|]. intros ->. discriminate.
Qed.

Lemma step_coherent ev st st' :
  coherent st -> step ev st = Some st' -> coherent st'.
Proof.
  intros Hco Hstep. pose proof (wake_when_coherent st Hco) as Hwake.
  destruct Hco as (Hov & Hla & Hh & Ha).
  destruct st as [[clk tm nt] [ht ih la hu cu src ov]].
  cbn [browser vars clock timers isHibernated overlayShown lastActivityTime
       hibernatedUrl] in *.
  destruct ev as [t|timer t|url t]; cbn [step browser clock timers] in Hstep.
  - destruct (clk <=? t) eqn:Ht; [|done]. injection Hstep as <-.
    unfold resetActivityTimer, wakeFromHibernate, at_time, coherent.
    cbn [browser vars clock isHibernated hibernatedUrl hibernateTimer negb].
    destruct ih.
    + destruct (Hwake eq_refl) as (u & -> & Hu). rewrite (is_set_Some u Hu).
      cbn [hibernateTimer]. destruct ht;
        cbn [setTimeout clearTimeout browser vars clock isHibernated
             overlayShown lastActivityTime hibernatedUrl];
        repeat split; (done || lia).
    + cbn [hibernateTimer]. destruct ht;
        cbn [setTimeout clearTimeout browser vars clock isHibernated
             overlayShown lastActivityTime hibernatedUrl];
        repeat split; try (done || lia); by apply Ha.
  - destruct (tm !! timer) as [due|]; [|done].
    destruct ((due <=? t) && (clk <=? t)) eqn:G; [|done].
    apply andb_prop in G as [_ Ht]. apply Z.leb_le in Ht.
    injection Hstep as <-. unfold checkHibernate, hibernate, at_time, coherent.
    cbn [browser vars clock isHibernated lastActivityTime currentSiteUrl
         clearTimeout].
    destruct ((HIBERNATE_TIMEOUT <=? t - la) && is_set cu && negb ih) eqn:G.
    + apply andb_prop in G as [G Hn]. apply andb_prop in G as [Hold Hset].
      apply Z.leb_le in Hold. apply negb_true_iff in Hn. rewrite Hn, Hset.
      cbn [orb negb browser vars clock isHibernated overlayShown
           lastActivityTime hibernatedUrl clearTimeout].
      split; [done|]. split; [lia|]. split; [|done].
      intros _. split; [done|]. exact Hold.
    + cbn [browser vars clock isHibernated overlayShown lastActivityTime
           hibernatedUrl clearTimeout].
      split; [done|]. split; [lia|]. split; [|done].
      intros Hhib. destruct (Hh Hhib) as [Hs Hold]. split; [done|lia].
  - destruct (clk <=? t) eqn:Ht; [|done]. apply Z.leb_le in Ht.
    injection Hstep as <-. unfold loadSite, at_time, coherent.
    cbn [browser vars clock isHibernated overlayShown lastActivityTime
         hibernatedUrl].
    split; [done|]. split; [lia|]. split; [|done].
    intros Hhib. destruct (Hh Hhib) as [Hs Hold]. split; [done|lia].
Qed.

(** X20. After setup and any sequence of events the overlay is shown
    exactly while the session is hibernated; while it is hibernated, the
    address to come back to is kept and the last activity signal is five
    minutes old or more; while it is not, no address is kept. *)
Theorem X20_session_stays_coherent (t0 : Z) (evs : list Event) st :
  run evs (setupActivityListeners (initial t0)) = Some st ->
  overlayShown (vars st) = isHibernated (vars st)
  /\ (isHibernated (vars st) = true ->
      is_set (hibernatedUrl (vars st)) = true
      /\ 300000 <= clock (browser st) - lastActivityTime (vars st))
  /\ (isHibernated (vars st) = false -> hibernatedUrl (vars st) = None).
Proof.
  intros Hrun.
  assert (Hco : coherent st).
  { revert Hrun.
    assert (H0 : coherent (setupActivityListeners (initial t0))).
    { unfold coherent. cbn. repeat split; (done || lia). }
    revert H0. generalize (setupActivityListeners (initial t0)).
    induction evs as [|ev evs IH]; intros s Hs; cbn [run].
    - by intros [= <-].
    - destruct (step ev s) as [s1|] eqn:E; [|done].
      apply IH. by apply (step_coherent ev s). }
  destruct Hco as (Hov & _ & Hh & Ha). by repeat split; [|apply Hh..|].
Qed.

(** X21. Only a timeout callback puts the sidebar to sleep and only an
    activity signal wakes it: when an event changes [isHibernated], either
    it is a timeout that runs five minutes or more after the last activity
    signal, the address of the loaded site is kept and the frame is
    blanked, or it is an activity signal, whose time becomes the time of
    the last activity. *)
Theorem X21_only_timeouts_hibernate ev st st' :
  step ev st = Some st' ->
  isHibernated (vars st) <> isHibernated (vars st') ->
  (isHibernated (vars st') = true
   /\ exists timer t,
        ev = TimerFires timer t
        /\ HIBERNATE_TIMEOUT <= t - lastActivityTime (vars st)
        /\ is_set (currentSiteUrl (vars st)) = true
        /\ hibernatedUrl (vars st') = currentSiteUrl (vars st)
        /\ webFrameSrc (vars st') = "about:blank"%string)
  \/ (isHibernated (vars st') = false
      /\ exists t, ev = Activity t /\ lastActivityTime (vars st') = t).
Proof.
  intros Hstep Hne.
  destruct st as [[clk tm nt] [ht ih la hu cu src ov]].
  cbn [browser vars clock timers isHibernated lastActivityTime
       currentSiteUrl] in *.
  destruct ev as [t|timer t|url t]; cbn [step browser clock timers] in Hstep.
  - destruct (clk <=? t) eqn:Ht; [|done]. injection Hstep as <-.
    right. revert Hne.
    unfold resetActivityTimer, wakeFromHibernate, at_time.
    cbn [browser vars clock isHibernated hibernatedUrl hibernateTimer negb].
    destruct ih; [|by destruct ht].
    intros _. destruct (is_set hu), ht; cbn; (split; [done|]); by exists t.
  - destruct (tm !! timer) as [due|]; [|done].
    destruct ((due <=? t) && (clk <=? t)) eqn:G; [|done].
    injection Hstep as <-. left. revert Hne.
    unfold checkHibernate, hibernate, at_time.
    cbn [browser vars clock isHibernated lastActivityTime currentSiteUrl
         clearTimeout].
    destruct ((HIBERNATE_TIMEOUT <=? t - la) && is_set cu && negb ih) eqn:G';
      [|done].
    apply andb_prop in G' as [G' Hn]. apply andb_prop in G' as [Hold Hset].
    apply Z.leb_le in Hold. apply negb_true_iff in Hn. rewrite Hn, Hset.
    cbn [orb negb vars isHibernated hibernatedUrl webFrameSrc].
    intros _. split; [done|]. by exists timer, t.
  - destruct (clk <=? t) eqn:Ht; [|done]. injection Hstep as <-.
    by cbn in Hne.
Qed.

Lemma X19_witness :
  exists st,
    run active_session (setupActivityListeners (initial 0)) = Some st
    /\ (size (timers (browser st)) <= 1)%nat
    /\ (forall timer due,
          timers (browser st) !! timer = Some due ->
          hibernateTimer (vars st) = Some timer).
Proof.
  eexists. split; [by vm_compute|].
  apply (X19_one_idle_timer 0 active_session). by vm_compute.
Defined.

Lemma X20_witness :
  exists st,
    run idle_session (setupActivityListeners (initial 0)) = Some st
    /\ overlayShown (vars st) = isHibernated (vars st)
    /\ (isHibernated (vars st) = true ->
        is_set (hibernatedUrl (vars st)) = true
        /\ 300000 <= clock (browser st) - lastActivityTime (vars st))
    /\ (isHibernated (vars st) = false -> hibernatedUrl (vars st) = None).
Proof.
  eexists. split; [by vm_compute|].
  apply (X20_session_stays_coherent 0 idle_session). by vm_compute.
Defined.

Lemma X21_witness :
  exists st',
    step (TimerFires 3 330000) about_to_sleep = Some st'
    /\ isHibernated (vars st') = true
    /\ webFrameSrc (vars st') = "about:blank"%string.
Proof.
  eexists. split; [by vm_compute|].
  destruct (X21_only_timeouts_hibernate (TimerFires 3 330000) about_to_sleep _
              ltac:(by vm_compute) ltac:(by vm_compute))
    as [(Hhib & timer & t & _ & _ & _ & _ & Hsrc)|(Hhib & _)].
  - by split.
  - by vm_compute in Hhib.
Defined.
End IdleMoreProperties.
